(** * MayaHydraSceneDelegate: adapter tables, pending-work queues and the
      per-frame synchronisation pass

    A shallow embedding of [MayaHydraSceneDelegate] (sceneDelegate.cpp).
    The delegate owns one table per adapter kind, keyed by the identity
    path of the adapter, a second integer-keyed table for render items, and
    five vectors of deferred work.  Everything the delegate calls into but
    does not own (the Maya scene, the adapter registry, the adapters' own
    virtual methods, the Hydra render index) is gathered in the record
    [Host]; the state of those collaborators is one opaque value of type
    [World] that every outgoing call transforms. *)

From stdpp Require Import gmap strings list fin_maps.

Set Default Proof Using "Type".

(** ** Handles and paths *)

(** [SdfPath] is handled through its text; the empty path is the empty
    string.  [MDagPath] is identified by its full path name, which is what
    the delegate keys its light snapshot with.  [MObject] is a node handle;
    [kNullObj] is the null handle. *)
Abbreviation SdfPath := string (only parsing).
Abbreviation MDagPath := string (only parsing).
Abbreviation MObject := nat (only parsing).
Abbreviation TfToken := string (only parsing).

Definition kNullObj : MObject := 0.
Definition isNull (obj : MObject) : bool := bool_decide (obj = kNullObj).

Definition SdfPath_EmptyPath : SdfPath := "".

(** The static members set once by the constructor: the fallback material
    is the empty path, the default material is the child
    [__maya_default_material__] of the absolute root. *)
Definition _fallbackMaterial : SdfPath := SdfPath_EmptyPath.
Definition _mayaDefaultMaterialPath : SdfPath := "/__maya_default_material__".

(** [MHWRender::MGeometry::Primitive]. *)
Inductive Primitive :=
| kInvalidPrimitive | kPoints | kLines | kLineStrip | kTriangles
| kTriangleStrip | kAdjacentTriangles | kAdjacentTriangleStrip
| kAdjacentLines | kAdjacentLineStrip | kPatch.

Global Instance Primitive_eq_dec : EqDecision Primitive.
Proof. solve_decision. Defined.

(** ** Adapters

    The adapter classes are declared outside sceneDelegate.cpp.  Each record
    carries what the delegate reads or writes through the adapter's
    interface: [GetID], [GetFastID], [GetPrimitive], [GetMaterial],
    [GetDagPath], [IsInstanced]. *)

Record MayaHydraRenderItemAdapter := {
  ria_GetID : SdfPath;
  ria_GetFastID : Z;
  ria_GetPrimitive : Primitive;
  ria_GetMaterial : SdfPath
}.

Record MayaHydraShapeAdapter := {
  sa_GetDagPath : MDagPath;
  sa_GetMaterial : MObject;
  sa_IsInstanced : bool
}.

(** Modelled from the spec: the light adapter's "lighting-enabled state",
    the flag that [SetLightingOn] writes. *)
Record MayaHydraLightAdapter := {
  la_GetDagPath : MDagPath;
  la_lightingOn : bool
}.

Record MayaHydraCameraAdapter := {
  ca_GetDagPath : MDagPath
}.

(** Modelled from the spec: a material adapter remembers the shading
    classification (material tag) it was last derived with, and whether
    x-ray shading is enabled on it. *)
Record MayaHydraMaterialAdapter := {
  ma_node : MObject;
  ma_materialTag : TfToken;
  ma_xRay : bool
}.

(** The tables an adapter can live in. *)
Inductive Table := RenderItems | Shapes | Lights | Cameras | Materials.

Global Instance Table_eq_dec : EqDecision Table.
Proof. solve_decision. Defined.

Definition LightCreator := MDagPath → option MayaHydraLightAdapter.
Definition CameraCreator := MDagPath → option MayaHydraCameraAdapter.
Definition ShapeCreator := MDagPath → option MayaHydraShapeAdapter.
Definition MaterialCreator := SdfPath → MObject → option MayaHydraMaterialAdapter.

(** ** The collaborators of the delegate *)

Section Delegate.

(** [World]: the state of everything outside the delegate that its calls
    change (render index, change tracker, registered Maya callbacks).
    [MMatrix]: Maya's matrix type, only passed through. *)
Context {World MMatrix : Type}.

(** Calls the delegate makes on an adapter whose effect lands outside the
    delegate (render index, Maya callbacks). *)
Inductive AdapterCall :=
| Populate
| RemovePrim
| CreateCallbacks
| RemoveCallbacks
| MarkDirty (bits : N)
| CallSetLightingOn (on : bool)
| CallEnableXRayShadingMode (on : bool)
| CallSetShadowProjectionMatrix (m : MMatrix).

Record Host := {
  (* configuration read by the delegate *)
  useMeshAdapter : bool;
  IsHdSt : bool;
  GetLightsEnabled : bool;
  (* constants of MayaHydraDelegateCtx, HdChangeTracker and the adapters *)
  RebuildFlagPrim : N;
  RebuildFlagCallbacks : N;
  DirtyMaterialId : N;
  DirtyInstancer : N;
  DirtyInstanceIndex : N;
  DirtyPrimvar : N;
  kInvalidMaterial : SdfPath;
  (* the Maya scene *)
  MObjectHandle_isValid : MObject → bool;
  IsUfeItemFromMayaUsd_obj : MObject → bool;
  IsUfeItemFromMayaUsd : MDagPath → bool;
  getAPathTo : MObject → option MDagPath;
  getAllPathsTo : MObject → list MDagPath;
  dag_node : MDagPath → MObject;
  dag_hasFn_kTransform : MDagPath → bool;
  dag_children : MDagPath → list MDagPath;
  dag_isInstanced : MDagPath → bool;
  dag_instanceNumber : MDagPath → nat;
  isIntermediateObject : MDagPath → bool;
  MFnDagNode_getPath : MObject → option MDagPath;
  (* MayaHydraDelegateCtx *)
  GetPrimPath : MDagPath → bool → SdfPath;
  GetMaterialPath : MObject → SdfPath;
  (* MayaHydraAdapterRegistry and the adapters it builds *)
  GetLightAdapterCreator_obj : MObject → option LightCreator;
  GetLightAdapterCreator : MDagPath → option LightCreator;
  GetCameraAdapterCreator : MDagPath → option CameraCreator;
  GetShapeAdapterCreator : MDagPath → option ShapeCreator;
  GetMaterialAdapterCreator : MObject → option MaterialCreator;
  light_IsSupported : MayaHydraLightAdapter → bool;
  camera_IsSupported : MayaHydraCameraAdapter → bool;
  shape_IsSupported : MayaHydraShapeAdapter → bool;
  material_IsSupported : MayaHydraMaterialAdapter → bool;
  currentMaterialTag : MObject → TfToken;
  (* outgoing calls and the render index *)
  adapterCall : Table → SdfPath → AdapterCall → World → World;
  MarkRprimDirty : SdfPath → N → World → World;
  GetRprimIds : World → list SdfPath;
  GetRprim_GetMaterialId : World → SdfPath → option SdfPath;
  (* SdfPath *)
  IsPropertyPath : SdfPath → bool;
  SdfPath_GetPrimPath : SdfPath → SdfPath
}.

(** ** The delegate's own state *)

Record MayaHydraSceneDelegate := {
  _renderItemsAdaptersFast : gmap Z MayaHydraRenderItemAdapter;
  _renderItemsAdapters : gmap string MayaHydraRenderItemAdapter;
  _shapeAdapters : gmap string MayaHydraShapeAdapter;
  _lightAdapters : gmap string MayaHydraLightAdapter;
  _cameraAdapters : gmap string MayaHydraCameraAdapter;
  _materialAdapters : gmap string MayaHydraMaterialAdapter;
  _lightsToAdd : list (MObject * LightCreator);
  _addedNodes : list MObject;
  _adaptersToRecreate : list (SdfPath * MObject);
  _adaptersToRebuild : list (SdfPath * N);
  _materialTagsChanged : list SdfPath;
  _useDefaultMaterial : bool;
  _xRayEnabled : bool;
  world : World
}.

Definition set_renderItemsAdaptersFast v s :=
  {| _renderItemsAdaptersFast := v; _renderItemsAdapters := _renderItemsAdapters s;
     _shapeAdapters := _shapeAdapters s; _lightAdapters := _lightAdapters s;
     _cameraAdapters := _cameraAdapters s; _materialAdapters := _materialAdapters s;
     _lightsToAdd := _lightsToAdd s; _addedNodes := _addedNodes s;
     _adaptersToRecreate := _adaptersToRecreate s;
     _adaptersToRebuild := _adaptersToRebuild s;
     _materialTagsChanged := _materialTagsChanged s;
     _useDefaultMaterial := _useDefaultMaterial s; _xRayEnabled := _xRayEnabled s;
     world := world s |}.

Definition set_renderItemsAdapters v s :=
  {| _renderItemsAdaptersFast := _renderItemsAdaptersFast s; _renderItemsAdapters := v;
     _shapeAdapters := _shapeAdapters s; _lightAdapters := _lightAdapters s;
     _cameraAdapters := _cameraAdapters s; _materialAdapters := _materialAdapters s;
     _lightsToAdd := _lightsToAdd s; _addedNodes := _addedNodes s;
     _adaptersToRecreate := _adaptersToRecreate s;
     _adaptersToRebuild := _adaptersToRebuild s;
     _materialTagsChanged := _materialTagsChanged s;
     _useDefaultMaterial := _useDefaultMaterial s; _xRayEnabled := _xRayEnabled s;
     world := world s |}.

Definition set_shapeAdapters v s :=
  {| _renderItemsAdaptersFast := _renderItemsAdaptersFast s;
     _renderItemsAdapters := _renderItemsAdapters s;
     _shapeAdapters := v; _lightAdapters := _lightAdapters s;
     _cameraAdapters := _cameraAdapters s; _materialAdapters := _materialAdapters s;
     _lightsToAdd := _lightsToAdd s; _addedNodes := _addedNodes s;
     _adaptersToRecreate := _adaptersToRecreate s;
     _adaptersToRebuild := _adaptersToRebuild s;
     _materialTagsChanged := _materialTagsChanged s;
     _useDefaultMaterial := _useDefaultMaterial s; _xRayEnabled := _xRayEnabled s;
     world := world s |}.

Definition set_lightAdapters v s :=
  {| _renderItemsAdaptersFast := _renderItemsAdaptersFast s;
     _renderItemsAdapters := _renderItemsAdapters s;
     _shapeAdapters := _shapeAdapters s; _lightAdapters := v;
     _cameraAdapters := _cameraAdapters s; _materialAdapters := _materialAdapters s;
     _lightsToAdd := _lightsToAdd s; _addedNodes := _addedNodes s;
     _adaptersToRecreate := _adaptersToRecreate s;
     _adaptersToRebuild := _adaptersToRebuild s;
     _materialTagsChanged := _materialTagsChanged s;
     _useDefaultMaterial := _useDefaultMaterial s; _xRayEnabled := _xRayEnabled s;
     world := world s |}.

Definition set_cameraAdapters v s :=
  {| _renderItemsAdaptersFast := _renderItemsAdaptersFast s;
     _renderItemsAdapters := _renderItemsAdapters s;
     _shapeAdapters := _shapeAdapters s; _lightAdapters := _lightAdapters s;
     _cameraAdapters := v; _materialAdapters := _materialAdapters s;
     _lightsToAdd := _lightsToAdd s; _addedNodes := _addedNodes s;
     _adaptersToRecreate := _adaptersToRecreate s;
     _adaptersToRebuild := _adaptersToRebuild s;
     _materialTagsChanged := _materialTagsChanged s;
     _useDefaultMaterial := _useDefaultMaterial s; _xRayEnabled := _xRayEnabled s;
     world := world s |}.

Definition set_materialAdapters v s :=
  {| _renderItemsAdaptersFast := _renderItemsAdaptersFast s;
     _renderItemsAdapters := _renderItemsAdapters s;
     _shapeAdapters := _shapeAdapters s; _lightAdapters := _lightAdapters s;
     _cameraAdapters := _cameraAdapters s; _materialAdapters := v;
     _lightsToAdd := _lightsToAdd s; _addedNodes := _addedNodes s;
     _adaptersToRecreate := _adaptersToRecreate s;
     _adaptersToRebuild := _adaptersToRebuild s;
     _materialTagsChanged := _materialTagsChanged s;
     _useDefaultMaterial := _useDefaultMaterial s; _xRayEnabled := _xRayEnabled s;
     world := world s |}.

Definition set_lightsToAdd v s :=
  {| _renderItemsAdaptersFast := _renderItemsAdaptersFast s;
     _renderItemsAdapters := _renderItemsAdapters s;
     _shapeAdapters := _shapeAdapters s; _lightAdapters := _lightAdapters s;
     _cameraAdapters := _cameraAdapters s; _materialAdapters := _materialAdapters s;
     _lightsToAdd := v; _addedNodes := _addedNodes s;
     _adaptersToRecreate := _adaptersToRecreate s;
     _adaptersToRebuild := _adaptersToRebuild s;
     _materialTagsChanged := _materialTagsChanged s;
     _useDefaultMaterial := _useDefaultMaterial s; _xRayEnabled := _xRayEnabled s;
     world := world s |}.

Definition set_addedNodes v s :=
  {| _renderItemsAdaptersFast := _renderItemsAdaptersFast s;
     _renderItemsAdapters := _renderItemsAdapters s;
     _shapeAdapters := _shapeAdapters s; _lightAdapters := _lightAdapters s;
     _cameraAdapters := _cameraAdapters s; _materialAdapters := _materialAdapters s;
     _lightsToAdd := _lightsToAdd s; _addedNodes := v;
     _adaptersToRecreate := _adaptersToRecreate s;
     _adaptersToRebuild := _adaptersToRebuild s;
     _materialTagsChanged := _materialTagsChanged s;
     _useDefaultMaterial := _useDefaultMaterial s; _xRayEnabled := _xRayEnabled s;
     world := world s |}.

Definition set_adaptersToRecreate v s :=
  {| _renderItemsAdaptersFast := _renderItemsAdaptersFast s;
     _renderItemsAdapters := _renderItemsAdapters s;
     _shapeAdapters := _shapeAdapters s; _lightAdapters := _lightAdapters s;
     _cameraAdapters := _cameraAdapters s; _materialAdapters := _materialAdapters s;
     _lightsToAdd := _lightsToAdd s; _addedNodes := _addedNodes s;
     _adaptersToRecreate := v;
     _adaptersToRebuild := _adaptersToRebuild s;
     _materialTagsChanged := _materialTagsChanged s;
     _useDefaultMaterial := _useDefaultMaterial s; _xRayEnabled := _xRayEnabled s;
     world := world s |}.

Definition set_adaptersToRebuild v s :=
  {| _renderItemsAdaptersFast := _renderItemsAdaptersFast s;
     _renderItemsAdapters := _renderItemsAdapters s;
     _shapeAdapters := _shapeAdapters s; _lightAdapters := _lightAdapters s;
     _cameraAdapters := _cameraAdapters s; _materialAdapters := _materialAdapters s;
     _lightsToAdd := _lightsToAdd s; _addedNodes := _addedNodes s;
     _adaptersToRecreate := _adaptersToRecreate s;
     _adaptersToRebuild := v;
     _materialTagsChanged := _materialTagsChanged s;
     _useDefaultMaterial := _useDefaultMaterial s; _xRayEnabled := _xRayEnabled s;
     world := world s |}.

Definition set_materialTagsChanged v s :=
  {| _renderItemsAdaptersFast := _renderItemsAdaptersFast s;
     _renderItemsAdapters := _renderItemsAdapters s;
     _shapeAdapters := _shapeAdapters s; _lightAdapters := _lightAdapters s;
     _cameraAdapters := _cameraAdapters s; _materialAdapters := _materialAdapters s;
     _lightsToAdd := _lightsToAdd s; _addedNodes := _addedNodes s;
     _adaptersToRecreate := _adaptersToRecreate s;
     _adaptersToRebuild := _adaptersToRebuild s;
     _materialTagsChanged := v;
     _useDefaultMaterial := _useDefaultMaterial s; _xRayEnabled := _xRayEnabled s;
     world := world s |}.

Definition set_useDefaultMaterial v s :=
  {| _renderItemsAdaptersFast := _renderItemsAdaptersFast s;
     _renderItemsAdapters := _renderItemsAdapters s;
     _shapeAdapters := _shapeAdapters s; _lightAdapters := _lightAdapters s;
     _cameraAdapters := _cameraAdapters s; _materialAdapters := _materialAdapters s;
     _lightsToAdd := _lightsToAdd s; _addedNodes := _addedNodes s;
     _adaptersToRecreate := _adaptersToRecreate s;
     _adaptersToRebuild := _adaptersToRebuild s;
     _materialTagsChanged := _materialTagsChanged s;
     _useDefaultMaterial := v; _xRayEnabled := _xRayEnabled s;
     world := world s |}.

Definition set_xRayEnabled v s :=
  {| _renderItemsAdaptersFast := _renderItemsAdaptersFast s;
     _renderItemsAdapters := _renderItemsAdapters s;
     _shapeAdapters := _shapeAdapters s; _lightAdapters := _lightAdapters s;
     _cameraAdapters := _cameraAdapters s; _materialAdapters := _materialAdapters s;
     _lightsToAdd := _lightsToAdd s; _addedNodes := _addedNodes s;
     _adaptersToRecreate := _adaptersToRecreate s;
     _adaptersToRebuild := _adaptersToRebuild s;
     _materialTagsChanged := _materialTagsChanged s;
     _useDefaultMaterial := _useDefaultMaterial s; _xRayEnabled := v;
     world := world s |}.

Definition set_world v s :=
  {| _renderItemsAdaptersFast := _renderItemsAdaptersFast s;
     _renderItemsAdapters := _renderItemsAdapters s;
     _shapeAdapters := _shapeAdapters s; _lightAdapters := _lightAdapters s;
     _cameraAdapters := _cameraAdapters s; _materialAdapters := _materialAdapters s;
     _lightsToAdd := _lightsToAdd s; _addedNodes := _addedNodes s;
     _adaptersToRecreate := _adaptersToRecreate s;
     _adaptersToRebuild := _adaptersToRebuild s;
     _materialTagsChanged := _materialTagsChanged s;
     _useDefaultMaterial := _useDefaultMaterial s; _xRayEnabled := _xRayEnabled s;
     world := v |}.

(** ** Operations *)

Variable host : Host.

Implicit Types (s : MayaHydraSceneDelegate) (id : SdfPath) (obj : MObject).

(** [std::unordered_map::insert] and [emplace]: an existing key keeps its
    value. *)
Definition map_insert_new `{Countable K} {A} (k : K) (v : A) (m : gmap K A) : gmap K A :=
  match m !! k with
  | Some _ => m
  | None => <[k:=v]> m
  end.

(** [TfMapLookupPtr(m, id) != nullptr]. *)
Definition TfMapContains (m : Table) id s : bool :=
  match m with
  | RenderItems => bool_decide (is_Some (_renderItemsAdapters s !! id))
  | Shapes => bool_decide (is_Some (_shapeAdapters s !! id))
  | Lights => bool_decide (is_Some (_lightAdapters s !! id))
  | Cameras => bool_decide (is_Some (_cameraAdapters s !! id))
  | Materials => bool_decide (is_Some (_materialAdapters s !! id))
  end.

(** [m.erase(id)]. *)
Definition erase (m : Table) id s : MayaHydraSceneDelegate :=
  match m with
  | RenderItems => set_renderItemsAdapters (delete id (_renderItemsAdapters s)) s
  | Shapes => set_shapeAdapters (delete id (_shapeAdapters s)) s
  | Lights => set_lightAdapters (delete id (_lightAdapters s)) s
  | Cameras => set_cameraAdapters (delete id (_cameraAdapters s)) s
  | Materials => set_materialAdapters (delete id (_materialAdapters s)) s
  end.

(** A call on the adapter stored under [id] in table [m]. *)
Definition call (m : Table) id (c : AdapterCall) s : MayaHydraSceneDelegate :=
  set_world (adapterCall host m id c (world s)) s.

(** The variadic templates [_FindAdapter], [_RemoveAdapter] and
    [_MapAdapter] recurse over their pack of maps; here the pack is a list
    of tables, and the callback receives the table and key of the adapter
    it is applied to. *)
Fixpoint _FindAdapter id (f : Table → SdfPath → MayaHydraSceneDelegate → MayaHydraSceneDelegate)
    (ms : list Table) s : bool * MayaHydraSceneDelegate :=
  match ms with
  | [] => (false, s)
  | m0 :: m =>
      if TfMapContains m0 id s then (true, f m0 id s)
      else _FindAdapter id f m s
  end.

Fixpoint _RemoveAdapter id (f : Table → SdfPath → MayaHydraSceneDelegate → MayaHydraSceneDelegate)
    (ms : list Table) s : bool * MayaHydraSceneDelegate :=
  match ms with
  | [] => (false, s)
  | m0 :: m =>
      if TfMapContains m0 id s then (true, erase m0 id (f m0 id s))
      else _RemoveAdapter id f m s
  end.

Definition for_each (m0 : Table) (f : SdfPath → MayaHydraSceneDelegate → MayaHydraSceneDelegate)
    s : MayaHydraSceneDelegate :=
  match m0 with
  | RenderItems => map_fold (λ id _ acc, f id acc) s (_renderItemsAdapters s)
  | Shapes => map_fold (λ id _ acc, f id acc) s (_shapeAdapters s)
  | Lights => map_fold (λ id _ acc, f id acc) s (_lightAdapters s)
  | Cameras => map_fold (λ id _ acc, f id acc) s (_cameraAdapters s)
  | Materials => map_fold (λ id _ acc, f id acc) s (_materialAdapters s)
  end.

Fixpoint _MapAdapter (f : Table → SdfPath → MayaHydraSceneDelegate → MayaHydraSceneDelegate)
    (ms : list Table) s : MayaHydraSceneDelegate :=
  match ms with
  | [] => s
  | m0 :: m => _MapAdapter f m (for_each m0 (f m0) s)
  end.

(** *** Render items *)

Definition _AddRenderItem (ria : MayaHydraRenderItemAdapter) s : MayaHydraSceneDelegate :=
  let primPath := ria_GetID ria in
  let s := set_renderItemsAdaptersFast
             (map_insert_new (ria_GetFastID ria) ria (_renderItemsAdaptersFast s)) s in
  set_renderItemsAdapters (map_insert_new primPath ria (_renderItemsAdapters s)) s.

Definition _RemoveRenderItem (ria : MayaHydraRenderItemAdapter) s : MayaHydraSceneDelegate :=
  let primPath := ria_GetID ria in
  let s := set_renderItemsAdaptersFast
             (delete (ria_GetFastID ria) (_renderItemsAdaptersFast s)) s in
  set_renderItemsAdapters (delete primPath (_renderItemsAdapters s)) s.

Definition _GetRenderItem (fastId : Z) s : option MayaHydraRenderItemAdapter :=
  _renderItemsAdaptersFast s !! fastId.

(** The callback of [RemoveAdapter] and [RecreateAdapter]. *)
Definition RemoveCallbacks_RemovePrim (m : Table) id s : MayaHydraSceneDelegate :=
  call m id RemovePrim (call m id RemoveCallbacks s).

(** [RemoveAdapter]; the warning printed when nothing was found is not
    part of the state. *)
Definition RemoveAdapter id s : MayaHydraSceneDelegate :=
  (_RemoveAdapter id RemoveCallbacks_RemovePrim
     [RenderItems; Shapes; Lights; Materials] s).2.

(** *** Pending-work queues *)

Fixpoint RecreateAdapterOnIdle_find id obj (q : list (SdfPath * MObject))
    : option (list (SdfPath * MObject)) :=
  match q with
  | [] => None
  | it :: q' =>
      if decide (it.1 = id) then Some ((it.1, obj) :: q')
      else (it ::.) <$> RecreateAdapterOnIdle_find id obj q'
  end.

Definition RecreateAdapterOnIdle id obj s : MayaHydraSceneDelegate :=
  match RecreateAdapterOnIdle_find id obj (_adaptersToRecreate s) with
  | Some q => set_adaptersToRecreate q s
  | None => set_adaptersToRecreate (_adaptersToRecreate s ++ [(id, obj)]) s
  end.

Definition MaterialTagChanged id s : MayaHydraSceneDelegate :=
  if decide (id ∈ _materialTagsChanged s) then s
  else set_materialTagsChanged (_materialTagsChanged s ++ [id]) s.

Fixpoint RebuildAdapterOnIdle_find id (flags : N) (q : list (SdfPath * N))
    : option (list (SdfPath * N)) :=
  match q with
  | [] => None
  | it :: q' =>
      if decide (it.1 = id) then Some ((it.1, N.lor it.2 flags) :: q')
      else (it ::.) <$> RebuildAdapterOnIdle_find id flags q'
  end.

Definition RebuildAdapterOnIdle id (flags : N) s : MayaHydraSceneDelegate :=
  match RebuildAdapterOnIdle_find id flags (_adaptersToRebuild s) with
  | Some q => set_adaptersToRebuild q s
  | None => set_adaptersToRebuild (_adaptersToRebuild s ++ [(id, flags)]) s
  end.

(** *** Node lifecycle handlers *)

Definition OnDagNodeAdded obj s : MayaHydraSceneDelegate :=
  if isNull obj then s
  else if IsUfeItemFromMayaUsd_obj host obj then s
  else match GetLightAdapterCreator_obj host obj with
       | Some lightFn => set_lightsToAdd (_lightsToAdd s ++ [(obj, lightFn)]) s
       | None =>
           if useMeshAdapter host then set_addedNodes (_addedNodes s ++ [obj]) s
           else s
       end.

(** [std::remove_if] returns [end()] exactly when no element matches. *)
Definition OnDagNodeRemoved obj s : MayaHydraSceneDelegate :=
  let kept := filter (λ item, item.1 ≠ obj) (_lightsToAdd s) in
  if decide (length kept ≠ length (_lightsToAdd s)) then set_lightsToAdd kept s
  else if useMeshAdapter host then
    set_addedNodes (filter (λ item, item ≠ obj) (_addedNodes s)) s
  else s.

(** *** Adapter creation *)

(** The member template [_CreateAdapter]; [get] and [set] stand for the
    reference to the adapter map it is instantiated with. *)
Definition _CreateAdapter {A} (dag : MDagPath)
    (adapterCreator : option (MDagPath → option A)) (IsSupported : A → bool)
    (m : Table)
    (get : MayaHydraSceneDelegate → gmap string A)
    (set : gmap string A → MayaHydraSceneDelegate → MayaHydraSceneDelegate)
    (isSprim : bool) s : option A * MayaHydraSceneDelegate :=
  match adapterCreator with
  | None => (None, s)
  | Some creator =>
      if IsUfeItemFromMayaUsd host dag then (None, s)
      else
        let id := GetPrimPath host dag isSprim in
        match get s !! id with
        | Some _ => (None, s)
        | None =>
            match creator dag with
            | None => (None, s)
            | Some adapter =>
                if negb (IsSupported adapter) then (None, s)
                else
                  let s := call m id Populate s in
                  let s := call m id CreateCallbacks s in
                  (Some adapter, set (map_insert_new id adapter (get s)) s)
            end
        end
  end.

Definition CreateLightAdapter (dagPath : MDagPath) s
    : option MayaHydraLightAdapter * MayaHydraSceneDelegate :=
  _CreateAdapter dagPath (GetLightAdapterCreator host dagPath) (light_IsSupported host)
    Lights _lightAdapters set_lightAdapters true s.

Definition CreateCameraAdapter (dagPath : MDagPath) s
    : option MayaHydraCameraAdapter * MayaHydraSceneDelegate :=
  _CreateAdapter dagPath (GetCameraAdapterCreator host dagPath) (camera_IsSupported host)
    Cameras _cameraAdapters set_cameraAdapters true s.

Definition CreateShapeAdapter (dagPath : MDagPath) s
    : option MayaHydraShapeAdapter * MayaHydraSceneDelegate :=
  _CreateAdapter dagPath (GetShapeAdapterCreator host dagPath) (shape_IsSupported host)
    Shapes _shapeAdapters set_shapeAdapters false s.

(** Modelled from the spec: [EnableXRayShadingMode] is an adapter method
    declared outside this file; it toggles the adapter's x-ray mode. *)
Definition EnableXRayShadingMode (on : bool) (a : MayaHydraMaterialAdapter)
    : MayaHydraMaterialAdapter :=
  {| ma_node := ma_node a; ma_materialTag := ma_materialTag a; ma_xRay := on |}.

Definition _CreateMaterial id obj s : bool * MayaHydraSceneDelegate :=
  match GetMaterialAdapterCreator host obj with
  | None => (false, s)
  | Some materialCreator =>
      match materialCreator id obj with
      | None => (false, s)
      | Some materialAdapter =>
          if negb (material_IsSupported host materialAdapter) then (false, s)
          else
            let '(materialAdapter, s) :=
              if _xRayEnabled s
              then (EnableXRayShadingMode (_xRayEnabled s) materialAdapter,
                    call Materials id (CallEnableXRayShadingMode (_xRayEnabled s)) s)
              else (materialAdapter, s) in
            let s := call Materials id Populate s in
            let s := call Materials id CreateCallbacks s in
            (true, set_materialAdapters
                     (map_insert_new id materialAdapter (_materialAdapters s)) s)
      end
  end.

Definition InsertDag (dag : MDagPath) s : MayaHydraSceneDelegate :=
  if dag_hasFn_kTransform host dag then s
  else if isIntermediateObject host dag then s
  else if IsUfeItemFromMayaUsd host dag then s
  else
    let '(light, s) :=
      if GetLightsEnabled host then CreateLightAdapter dag s else (None, s) in
    if bool_decide (is_Some light) then s
    else
      let '(camera, s) := CreateCameraAdapter dag s in
      if bool_decide (is_Some camera) then s
      else if dag_isInstanced host dag && bool_decide (0 < dag_instanceNumber host dag) then s
      else
        let '(adapter, s) := CreateShapeAdapter dag s in
        match adapter with
        | None => s
        | Some adapter =>
            let material := sa_GetMaterial adapter in
            if decide (material = kNullObj) then s
            else
              let materialId := GetMaterialPath host material in
              match _materialAdapters s !! materialId with
              | Some _ => s
              | None => (_CreateMaterial materialId material s).2
              end
        end.

(** *** Instancing *)

Definition AddNewInstance (dag : MDagPath) s : MayaHydraSceneDelegate :=
  let dags := getAllPathsTo host (dag_node host dag) in
  match dags with
  | [] => s
  | masterDag :: _ =>
      let id := GetPrimPath host masterDag false in
      match _shapeAdapters s !! id with
      | None => s
      | Some masterAdapter =>
          if bool_decide (length dags = 1) || negb (sa_IsInstanced masterAdapter) then
            RecreateAdapterOnIdle id (dag_node host masterDag) s
          else
            let s := RebuildAdapterOnIdle id (RebuildFlagCallbacks host) s in
            call Shapes id
              (MarkDirty (N.lor (N.lor (DirtyInstancer host) (DirtyInstanceIndex host))
                                (DirtyPrimvar host))) s
      end
  end.

(** *** Recreation *)

Definition MarkMaterialUsersDirty id s : MayaHydraSceneDelegate :=
  foldl (λ acc rprimId,
           match GetRprim_GetMaterialId host (world acc) rprimId with
           | Some materialId =>
               if decide (materialId = id)
               then set_world (MarkRprimDirty host rprimId (DirtyMaterialId host) (world acc)) acc
               else acc
           | None => acc
           end)
        s (GetRprimIds host (world s)).

Definition RecreateAdapter id obj s : MayaHydraSceneDelegate :=
  let '(removed, s1) := _RemoveAdapter id RemoveCallbacks_RemovePrim [Lights] s in
  if removed then
    if MObjectHandle_isValid host obj then OnDagNodeAdded obj s1 else s1
  else
    let '(removed, s2) :=
      if useMeshAdapter host
      then _RemoveAdapter id RemoveCallbacks_RemovePrim [Shapes] s
      else (false, s) in
    if removed then
      match MFnDagNode_getPath host obj with
      | Some path => if MObjectHandle_isValid host obj then InsertDag path s2 else s2
      | None => s2
      end
    else
      let '(removed, s3) := _RemoveAdapter id RemoveCallbacks_RemovePrim [Materials] s in
      if removed then
        let s3 := MarkMaterialUsersDirty id s3 in
        if MObjectHandle_isValid host obj
        then (_CreateMaterial (GetMaterialPath host obj) obj s3).2
        else s3
      else s.

(** *** Material resolution *)

Definition GetMaterialId id s : SdfPath * MayaHydraSceneDelegate :=
  if _useDefaultMaterial s then (_mayaDefaultMaterialPath, s)
  else
    let fromRenderItem : option SdfPath :=
      match _renderItemsAdapters s !! id with
      | Some renderItemAdapter =>
          if bool_decide (kLines = ria_GetPrimitive renderItemAdapter)
             || bool_decide (kLineStrip = ria_GetPrimitive renderItemAdapter)
          then Some _fallbackMaterial
          else
            let material := ria_GetMaterial renderItemAdapter in
            if decide (material = kInvalidMaterial host) then Some _fallbackMaterial
            else match _materialAdapters s !! material with
                 | Some _ => Some material
                 | None => None
                 end
      | None => None
      end in
    match fromRenderItem with
    | Some r => (r, s)
    | None =>
        if useMeshAdapter host then
          match _shapeAdapters s !! id with
          | None => (_fallbackMaterial, s)
          | Some shapeAdapter =>
              let material := sa_GetMaterial shapeAdapter in
              if decide (material = kNullObj) then (_fallbackMaterial, s)
              else
                let materialId := GetMaterialPath host material in
                match _materialAdapters s !! materialId with
                | Some _ => (materialId, s)
                | None =>
                    let '(created, s) := _CreateMaterial materialId material s in
                    (if created then materialId else _fallbackMaterial, s)
                end
          end
        else (_fallbackMaterial, s)
    end.

(** *** The per-frame pass *)

(** What [PreFrame] reads from the draw context. [kShadowOn] and
    [kShadowViewProj] are [None] when [getParameter] fails. *)
Record MLightParameterInformation := {
  lightPath : MDagPath;
  lightPath_isValid : bool;
  kShadowOn : option (list Z);
  kShadowViewProj : option MMatrix
}.

Record MDrawContext := {
  getDisplayStyle_kDefaultMaterial : bool;
  getDisplayStyle_kXray : bool;
  numberOfActiveLights_status : bool;
  numberOfActiveLights : nat;
  getLightParameterInformation : nat → option MLightParameterInformation
}.

(** [PreFrame] has early [return]s inside its loops: a block either falls
    through to the next one or leaves the function. *)
Inductive Flow :=
| Continue (s : MayaHydraSceneDelegate)
| Return (s : MayaHydraSceneDelegate).

Definition andThen (x : Flow) (k : MayaHydraSceneDelegate → Flow) : Flow :=
  match x with
  | Continue s => k s
  | Return s => Return s
  end.

Definition leave (x : Flow) : MayaHydraSceneDelegate :=
  match x with
  | Continue s => s
  | Return s => s
  end.

Notation "x >>> k" := (andThen x k) (at level 61, left associativity).

Definition PreFrame_displayStyle (context : MDrawContext) s : MayaHydraSceneDelegate :=
  let useDefaultMaterial := getDisplayStyle_kDefaultMaterial context in
  let s :=
    if decide (useDefaultMaterial ≠ _useDefaultMaterial s) then
      let s := set_useDefaultMaterial useDefaultMaterial s in
      if useMeshAdapter host
      then for_each Shapes (λ id acc, call Shapes id (MarkDirty (DirtyMaterialId host)) acc) s
      else s
    else s in
  let xRayEnabled := getDisplayStyle_kXray context in
  if decide (xRayEnabled ≠ _xRayEnabled s) then
    let s := set_xRayEnabled xRayEnabled s in
    for_each Materials
      (λ id acc,
         call Materials id (CallEnableXRayShadingMode (_xRayEnabled acc))
           (set_materialAdapters
              (alter (EnableXRayShadingMode (_xRayEnabled acc)) id (_materialAdapters acc))
              acc))
      s
  else s.

(** Modelled from the spec: [UpdateMaterialTag] is an adapter method
    declared outside this file; it re-derives the material's shading
    classification and reports whether it changed. *)
Definition UpdateMaterialTag (a : MayaHydraMaterialAdapter) : MayaHydraMaterialAdapter * bool :=
  let tag := currentMaterialTag host (ma_node a) in
  if decide (tag = ma_materialTag a) then (a, false)
  else ({| ma_node := ma_node a; ma_materialTag := tag; ma_xRay := ma_xRay a |}, true).

Definition RebuildMaterialUsers id s : MayaHydraSceneDelegate :=
  foldl (λ acc rprimId,
           match GetRprim_GetMaterialId host (world acc) rprimId with
           | Some materialId =>
               if decide (materialId = id)
               then RebuildAdapterOnIdle rprimId (RebuildFlagPrim host) acc
               else acc
           | None => acc
           end)
        s (GetRprimIds host (world s)).

Definition PreFrame_materialTag id s : MayaHydraSceneDelegate :=
  match _materialAdapters s !! id with
  | None => s
  | Some a =>
      let '(a, changed) := UpdateMaterialTag a in
      let s := set_materialAdapters (<[id:=a]> (_materialAdapters s)) s in
      if changed then RebuildMaterialUsers id s else s
  end.

Definition PreFrame_materialTags s : MayaHydraSceneDelegate :=
  match _materialTagsChanged s with
  | [] => s
  | _ =>
      let s :=
        if IsHdSt host
        then foldl (λ acc id, PreFrame_materialTag id acc) s (_materialTagsChanged s)
        else s in
      set_materialTagsChanged [] s
  end.

Fixpoint PreFrame_lightsToAdd_loop (q : list (MObject * LightCreator)) s : Flow :=
  match q with
  | [] => Continue s
  | lightToAdd :: q =>
      match getAPathTo host lightToAdd.1 with
      | None => Return s
      | Some dag => PreFrame_lightsToAdd_loop q (CreateLightAdapter dag s).2
      end
  end.

Definition PreFrame_lightsToAdd s : Flow :=
  match _lightsToAdd s with
  | [] => Continue s
  | q => PreFrame_lightsToAdd_loop q s >>> λ s, Continue (set_lightsToAdd [] s)
  end.

Definition PreFrame_addedNode_children (dag : MDagPath) s : MayaHydraSceneDelegate :=
  foldl (λ acc dagCopy,
           if dag_isInstanced host dagCopy && bool_decide (0 < dag_instanceNumber host dagCopy)
           then AddNewInstance dagCopy acc
           else acc)
        s (dag_children host dag).

Fixpoint PreFrame_addedNodes_loop (q : list MObject) s : Flow :=
  match q with
  | [] => Continue s
  | obj :: q =>
      if isNull obj then PreFrame_addedNodes_loop q s
      else
        match getAPathTo host obj with
        | None => Return s
        | Some dag =>
            PreFrame_addedNodes_loop q
              (if dag_hasFn_kTransform host dag
               then PreFrame_addedNode_children dag s
               else InsertDag dag s)
        end
  end.

Definition PreFrame_addedNodes s : Flow :=
  if useMeshAdapter host then
    match _addedNodes s with
    | [] => Continue s
    | q => PreFrame_addedNodes_loop q s >>> λ s, Continue (set_addedNodes [] s)
    end
  else Continue s.

(** The inner loop of the recreate block: erase the first queued rebuild
    with the same identity. *)
Fixpoint erase_first id (q : list (SdfPath * N)) : list (SdfPath * N) :=
  match q with
  | [] => []
  | itr :: q => if decide (id = itr.1) then q else itr :: erase_first id q
  end.

Definition PreFrame_adaptersToRecreate s : MayaHydraSceneDelegate :=
  match _adaptersToRecreate s with
  | [] => s
  | q =>
      let s :=
        foldl (λ acc it,
                 let acc := RecreateAdapter it.1 it.2 acc in
                 set_adaptersToRebuild (erase_first it.1 (_adaptersToRebuild acc)) acc)
              s q in
      set_adaptersToRecreate [] s
  end.

Definition ApplyRebuild (flags : N) (m : Table) id s : MayaHydraSceneDelegate :=
  let s :=
    if decide (N.land flags (RebuildFlagCallbacks host) ≠ 0%N)
    then call m id CreateCallbacks (call m id RemoveCallbacks s)
    else s in
  if decide (N.land flags (RebuildFlagPrim host) ≠ 0%N)
  then call m id Populate (call m id RemovePrim s)
  else s.

Definition PreFrame_adaptersToRebuild s : MayaHydraSceneDelegate :=
  match _adaptersToRebuild s with
  | [] => s
  | q =>
      let s :=
        foldl (λ acc it,
                 (_FindAdapter it.1 (ApplyRebuild it.2) [Shapes; Lights; Materials] acc).2)
              s q in
      set_adaptersToRebuild [] s
  end.

(** Modelled from the spec: [SetLightingOn] is an adapter method declared
    outside this file; it sets the adapter's lighting-enabled state. *)
Definition SetLightingOn (on : bool) (m : Table) id s : MayaHydraSceneDelegate :=
  call m id (CallSetLightingOn on)
    (set_lightAdapters
       (alter (λ a, {| la_GetDagPath := la_GetDagPath a; la_lightingOn := on |}) id
              (_lightAdapters s))
       s).

(** [LightDagPathMap]: full path name to DAG path. *)
Definition _GetActiveLightPaths s : gmap string string :=
  map_fold (λ _ a activeLightPaths,
              map_insert_new (la_GetDagPath a) (la_GetDagPath a) activeLightPaths)
           ∅ (_lightAdapters s).

Definition PreFrame_lightParameter (context : MDrawContext)
    (st : gmap string string * MayaHydraSceneDelegate) (i : nat)
    : gmap string string * MayaHydraSceneDelegate :=
  match getLightParameterInformation context i with
  | None => st
  | Some lightParam =>
      let lightPath := lightPath lightParam in
      if negb (lightPath_isValid lightParam) then st
      else if IsUfeItemFromMayaUsd host lightPath then st
      else
        let activeLightPaths := map_insert_new lightPath lightPath st.1 in
        let s := st.2 in
        match kShadowOn lightParam with
        | Some (v :: _) =>
            if decide (v = 1%Z) then
              match kShadowViewProj lightParam with
              | Some matrixVal =>
                  (activeLightPaths,
                   (_FindAdapter (GetPrimPath host lightPath true)
                      (λ m id s, call m id (CallSetShadowProjectionMatrix matrixVal) s)
                      [Lights] s).2)
              | None => (activeLightPaths, s)
              end
            else (activeLightPaths, s)
        | _ => (activeLightPaths, s)
        end
  end.

Definition PreFrame_sweep (activeLightPaths : gmap string string) s
    : gmap string string * MayaHydraSceneDelegate :=
  map_fold (λ id a st,
              match st.1 !! la_GetDagPath a with
              | Some _ => (delete (la_GetDagPath a) st.1, SetLightingOn true Lights id st.2)
              | None => (st.1, SetLightingOn false Lights id st.2)
              end)
           (activeLightPaths, s) (_lightAdapters s).

Definition PreFrame_lights (context : MDrawContext) s : MayaHydraSceneDelegate :=
  let activeLightPaths := _GetActiveLightPaths s in
  let status := numberOfActiveLights_status context in
  let numLights := numberOfActiveLights context in
  if (negb status || bool_decide (numLights = 0)) && bool_decide (size activeLightPaths = 0)
  then _MapAdapter (SetLightingOn false) [Lights] s
  else
    let st := foldl (PreFrame_lightParameter context) (activeLightPaths, s) (seq 0 numLights) in
    let st := PreFrame_sweep st.1 st.2 in
    map_fold (λ _ dag acc, (CreateLightAdapter dag acc).2) st.2 st.1.

(** The blocks of [PreFrame] that follow the material-tag block: queued
    lights, queued nodes, recreation, rebuild, light reconciliation. *)
Definition PreFrame_after_materialTags (context : MDrawContext) s : Flow :=
  PreFrame_lightsToAdd s
  >>> PreFrame_addedNodes
  >>> (λ s, Continue (PreFrame_adaptersToRebuild (PreFrame_adaptersToRecreate s)))
  >>> (λ s, if negb (IsHdSt host) then Return s else Continue (PreFrame_lights context s)).

Definition PreFrame_flow (context : MDrawContext) s : Flow :=
  PreFrame_after_materialTags context
    (PreFrame_materialTags (PreFrame_displayStyle context s)).

Definition PreFrame (context : MDrawContext) s : MayaHydraSceneDelegate :=
  leave (PreFrame_flow context s).

End Delegate.

(** ** Pull queries *)

(** The value types of the queries belong to USD and are only passed
    through; each comes with the value [R{}] that [_GetDefaultValue<R>]
    returns.  [double] is the scalar of [GfMatrix4d]. *)
Record QueryTypes := {
  HdMeshTopology : Type;
  HdBasisCurvesTopology : Type;
  PxOsdSubdivTags : Type;
  GfRange3d : Type;
  VtValue : Type;
  HdPrimvarDescriptorVector : Type;
  VtIntArray : Type;
  HdCullStyle : Type;
  HdDisplayStyle : Type;
  HdInterpolation : Type;
  double : Type;
  HdMeshTopology_init : HdMeshTopology;
  HdBasisCurvesTopology_init : HdBasisCurvesTopology;
  PxOsdSubdivTags_init : PxOsdSubdivTags;
  GfRange3d_init : GfRange3d;
  VtValue_init : VtValue;
  HdPrimvarDescriptorVector_init : HdPrimvarDescriptorVector;
  VtIntArray_init : VtIntArray;
  HdCullStyle_init : HdCullStyle;
  HdDisplayStyle_init : HdDisplayStyle;
  double_0 : double;
  double_1 : double
}.

(** [R{}], the result of [_GetDefaultValue<R>()]. *)
Class ValueInit (R : Type) := value_init : R.

Global Instance bool_ValueInit : ValueInit bool := false.
Global Instance size_t_ValueInit : ValueInit nat := 0.
(** [SdfPath] and [TfToken]: the empty path, the empty token. *)
Global Instance string_ValueInit : ValueInit string := "".
(** A sample count of zero, nothing written to the buffers. *)
Global Instance samples_ValueInit {A} : ValueInit (nat * list A) := (0, []).

(** A pointer to the common base class of the adapters. *)
Inductive MayaHydraAdapter :=
| AsRenderItem (a : MayaHydraRenderItemAdapter)
| AsShape (a : MayaHydraShapeAdapter)
| AsLight (a : MayaHydraLightAdapter)
| AsCamera (a : MayaHydraCameraAdapter)
| AsMaterial (a : MayaHydraMaterialAdapter).

Section Queries.

Context {World MMatrix : Type} (host : @Host World MMatrix) {T : QueryTypes}.

Implicit Types (s : @MayaHydraSceneDelegate World) (id : SdfPath).

(** [GfMatrix4d] as its rows; [GfMatrix4d(s)] is [s] times the identity. *)
Definition GfMatrix4d : Type := list (list (double T)).

Definition GfMatrix4d_scalar (x : double T) : GfMatrix4d :=
  let o := double_0 T in
  [ [x; o; o; o]; [o; x; o; o]; [o; o; x; o]; [o; o; o; x] ].

Definition GfMatrix4d_identity : GfMatrix4d :=
  let o := double_0 T in
  let l := double_1 T in
  [ [l; o; o; o]; [o; l; o; o]; [o; o; l; o]; [o; o; o; l] ].

Global Instance GfMatrix4d_ValueInit : ValueInit GfMatrix4d :=
  GfMatrix4d_scalar (double_0 T).
Global Instance HdMeshTopology_ValueInit : ValueInit (HdMeshTopology T) :=
  HdMeshTopology_init T.
Global Instance HdBasisCurvesTopology_ValueInit : ValueInit (HdBasisCurvesTopology T) :=
  HdBasisCurvesTopology_init T.
Global Instance PxOsdSubdivTags_ValueInit : ValueInit (PxOsdSubdivTags T) :=
  PxOsdSubdivTags_init T.
Global Instance GfRange3d_ValueInit : ValueInit (GfRange3d T) := GfRange3d_init T.
Global Instance VtValue_ValueInit : ValueInit (VtValue T) := VtValue_init T.
Global Instance HdPrimvarDescriptorVector_ValueInit
  : ValueInit (HdPrimvarDescriptorVector T) := HdPrimvarDescriptorVector_init T.
Global Instance VtIntArray_ValueInit : ValueInit (VtIntArray T) := VtIntArray_init T.
Global Instance HdCullStyle_ValueInit : ValueInit (HdCullStyle T) := HdCullStyle_init T.
Global Instance HdDisplayStyle_ValueInit : ValueInit (HdDisplayStyle T) :=
  HdDisplayStyle_init T.

(** The adapters' virtual query methods, and what the delegate takes from
    its base class and from [MayaHydraMaterialAdapter]'s statics.  A
    sampling method returns the number of samples together with the
    samples it wrote to the caller's buffers. *)
Record AdapterMethods := {
  a_GetMeshTopology : MayaHydraAdapter → HdMeshTopology T;
  a_GetBasisCurvesTopology : MayaHydraAdapter → HdBasisCurvesTopology T;
  a_GetSubdivTags : MayaHydraAdapter → PxOsdSubdivTags T;
  a_GetExtent : MayaHydraAdapter → GfRange3d T;
  a_GetTransform : MayaHydraAdapter → GfMatrix4d;
  a_SampleTransform : MayaHydraAdapter → nat → nat * list (double T * GfMatrix4d);
  a_Get : MayaHydraAdapter → TfToken → VtValue T;
  a_GetInstancePrimvar : MayaHydraAdapter → TfToken → VtValue T;
  a_SamplePrimvar : MayaHydraAdapter → TfToken → nat → nat * list (double T * VtValue T);
  a_GetRenderTag : MayaHydraAdapter → TfToken;
  a_GetPrimvarDescriptors : MayaHydraAdapter → HdInterpolation T → HdPrimvarDescriptorVector T;
  a_GetInstancePrimvarDescriptors :
    MayaHydraAdapter → HdInterpolation T → HdPrimvarDescriptorVector T;
  a_GetLightParamValue : MayaHydraAdapter → TfToken → VtValue T;
  a_GetCameraParamValue : MayaHydraAdapter → TfToken → VtValue T;
  a_GetInstanceIndices : MayaHydraAdapter → SdfPath → VtIntArray T;
  a_GetInstancerID : MayaHydraAdapter → SdfPath;
  a_GetVisible : MayaHydraAdapter → bool;
  a_GetDoubleSided : MayaHydraAdapter → bool;
  a_GetCullStyle : MayaHydraAdapter → HdCullStyle T;
  a_GetDisplayStyle : MayaHydraAdapter → HdDisplayStyle T;
  a_GetMaterialResource : MayaHydraAdapter → VtValue T;
  HdSceneDelegate_SamplePrimvar :
    (SdfPath → TfToken → VtValue T) → SdfPath → TfToken → nat
    → nat * list (double T * VtValue T);
  GetPreviewMaterialResource : SdfPath → VtValue T;
  _mayaDefaultMaterial : VtValue T;
  VtValue_IsEmpty : VtValue T → bool
}.

Variable methods : AdapterMethods.

(** [TfMapLookupPtr(m, id)], followed by the cast to the base class. *)
Definition TfMapLookupPtr (m : Table) id s : option MayaHydraAdapter :=
  match m with
  | RenderItems => AsRenderItem <$> _renderItemsAdapters s !! id
  | Shapes => AsShape <$> _shapeAdapters s !! id
  | Lights => AsLight <$> _lightAdapters s !! id
  | Cameras => AsCamera <$> _cameraAdapters s !! id
  | Materials => AsMaterial <$> _materialAdapters s !! id
  end.

Definition _GetDefaultValue {R} `{ValueInit R} : R := value_init.

Fixpoint _GetValue {R} `{ValueInit R} id (f : MayaHydraAdapter → R) (ms : list Table) s : R :=
  match ms with
  | [] => _GetDefaultValue
  | m0 :: m =>
      match TfMapLookupPtr m0 id s with
      | None => _GetValue id f m s
      | Some adapterPtr => f adapterPtr
      end
  end.

Definition GetMeshTopology id s : HdMeshTopology T :=
  _GetValue id (a_GetMeshTopology methods) [Shapes; RenderItems] s.

Definition GetBasisCurvesTopology id s : HdBasisCurvesTopology T :=
  _GetValue id (a_GetBasisCurvesTopology methods) [Shapes; RenderItems] s.

Definition GetSubdivTags id s : PxOsdSubdivTags T :=
  _GetValue id (a_GetSubdivTags methods) [Shapes] s.

Definition GetExtent id s : GfRange3d T :=
  _GetValue id (a_GetExtent methods) [Shapes] s.

Definition GetTransform id s : GfMatrix4d :=
  _GetValue id (a_GetTransform methods) [Shapes; RenderItems; Cameras; Lights] s.

Definition SampleTransform id (maxSampleCount : nat) s : nat * list (double T * GfMatrix4d) :=
  _GetValue id (λ a, a_SampleTransform methods a maxSampleCount) [Shapes; Cameras; Lights] s.

Definition Get id (key : TfToken) s : VtValue T :=
  if useMeshAdapter host && IsPropertyPath host id then
    _GetValue (SdfPath_GetPrimPath host id)
      (λ a, a_GetInstancePrimvar methods a key) [Shapes] s
  else
    _GetValue id (λ a, a_Get methods a key)
      [Shapes; RenderItems; Cameras; Lights; Materials] s.

Definition SamplePrimvar id (key : TfToken) (maxSampleCount : nat) s
    : nat * list (double T * VtValue T) :=
  if negb (useMeshAdapter host) then
    HdSceneDelegate_SamplePrimvar methods (λ id key, Get id key s) id key maxSampleCount
  else if bool_decide (maxSampleCount < 1) then (0, [])
  else if IsPropertyPath host id then
    (1, [(double_0 T,
          _GetValue (SdfPath_GetPrimPath host id)
            (λ a, a_GetInstancePrimvar methods a key) [Shapes] s)])
  else
    _GetValue id (λ a, a_SamplePrimvar methods a key maxSampleCount) [Shapes] s.

Definition GetRenderTag id s : TfToken :=
  _GetValue (SdfPath_GetPrimPath host id) (a_GetRenderTag methods) [Shapes; RenderItems] s.

Definition GetPrimvarDescriptors id (interpolation : HdInterpolation T) s
    : HdPrimvarDescriptorVector T :=
  if useMeshAdapter host && IsPropertyPath host id then
    _GetValue (SdfPath_GetPrimPath host id)
      (λ a, a_GetInstancePrimvarDescriptors methods a interpolation) [Shapes] s
  else
    _GetValue id (λ a, a_GetPrimvarDescriptors methods a interpolation)
      [Shapes; RenderItems] s.

Definition GetLightParamValue id (paramName : TfToken) s : VtValue T :=
  _GetValue id (λ a, a_GetLightParamValue methods a paramName) [Lights] s.

Definition GetCameraParamValue (cameraId : SdfPath) (paramName : TfToken) s : VtValue T :=
  _GetValue cameraId (λ a, a_GetCameraParamValue methods a paramName) [Cameras] s.

Definition GetInstanceIndices (instancerId prototypeId : SdfPath) s : VtIntArray T :=
  _GetValue (SdfPath_GetPrimPath host instancerId)
    (λ a, a_GetInstanceIndices methods a prototypeId) [Shapes] s.

Definition GetInstancerPrototypes (instancerId : SdfPath) s : list SdfPath :=
  [SdfPath_GetPrimPath host instancerId].

Definition GetInstancerId (primId : SdfPath) s : SdfPath :=
  if IsPropertyPath host primId then SdfPath_EmptyPath
  else _GetValue primId (a_GetInstancerID methods) [Shapes] s.

Definition GetInstancerTransform (instancerId : SdfPath) s : GfMatrix4d :=
  GfMatrix4d_scalar (double_1 T).

Definition GetScenePrimPath (rprimPath : SdfPath) (instanceIndex : Z) s : SdfPath :=
  rprimPath.

Definition GetVisible id s : bool :=
  _GetValue id (a_GetVisible methods) [Shapes; RenderItems; Lights] s.

Definition GetDoubleSided id s : bool :=
  _GetValue id (a_GetDoubleSided methods) [Shapes; RenderItems] s.

Definition GetCullStyle id s : HdCullStyle T :=
  _GetValue id (a_GetCullStyle methods) [Shapes; RenderItems] s.

Definition GetDisplayStyle id s : HdDisplayStyle T :=
  _GetValue id (a_GetDisplayStyle methods) [Shapes; RenderItems] s.

Definition GetMaterialResource id s : VtValue T :=
  if decide (id = _mayaDefaultMaterialPath) then _mayaDefaultMaterial methods
  else if decide (id = _fallbackMaterial) then GetPreviewMaterialResource methods id
  else
    let ret := _GetValue id (a_GetMaterialResource methods) [Materials] s in
    if VtValue_IsEmpty methods ret then GetPreviewMaterialResource methods id else ret.

End Queries.

(** ** Predicates used in the statements *)

Section Predicates.

Context {World MMatrix : Type} (host : @Host World MMatrix).

Implicit Types (s : @MayaHydraSceneDelegate World) (id : SdfPath) (obj : MObject).

(** An adapter is entered in the fast table under its fast key exactly when
    it is entered in the path table under its path. *)
Definition renderItems_in_sync s : Prop :=
  ∀ ria, _renderItemsAdaptersFast s !! ria_GetFastID ria = Some ria
         ↔ _renderItemsAdapters s !! ria_GetID ria = Some ria.

(** Every entry sits under its own keys and has its twin in the other
    table. *)
Definition renderItems_wf s : Prop :=
  (∀ k r, _renderItemsAdaptersFast s !! k = Some r →
          ria_GetFastID r = k ∧ _renderItemsAdapters s !! ria_GetID r = Some r)
  ∧ (∀ p r, _renderItemsAdapters s !! p = Some r →
            ria_GetID r = p ∧ _renderItemsAdaptersFast s !! ria_GetFastID r = Some r).

(** The queued rebuilds of one identity. *)
Definition pending_rebuilds id (q : list (SdfPath * N)) : list (SdfPath * N) :=
  filter (λ it, it.1 = id) q.

(** [id] is queued for a rebuild whose flags include all bits of [bits]. *)
Definition rebuild_scheduled id (bits : N) (q : list (SdfPath * N)) : Prop :=
  ∃ flags, (id, flags) ∈ q ∧ N.land flags bits = bits.

(** The adapter tables and the world behind the render index are the same
    in [s] and [s']. *)
Definition same_adapters_and_world s s' : Prop :=
  _renderItemsAdaptersFast s' = _renderItemsAdaptersFast s
  ∧ _renderItemsAdapters s' = _renderItemsAdapters s
  ∧ _shapeAdapters s' = _shapeAdapters s
  ∧ _lightAdapters s' = _lightAdapters s
  ∧ _cameraAdapters s' = _cameraAdapters s
  ∧ _materialAdapters s' = _materialAdapters s
  ∧ world s' = world s.

(** The handles queued in [_lightsToAdd]. *)
Definition handles (q : list (MObject * LightCreator)) : list MObject := q.*1.

(** What [OnDagNodeAdded], the only writer of the two queues, maintains: a
    handle goes to the light queue exactly when the registry has a light
    creator for it, and the node queue is used in mesh-adapter mode only. *)
Definition queues_wf s : Prop :=
  Forall (λ it, is_Some (GetLightAdapterCreator_obj host it.1)) (_lightsToAdd s)
  ∧ Forall (λ o, GetLightAdapterCreator_obj host o = None) (_addedNodes s)
  ∧ (useMeshAdapter host = false → _addedNodes s = []).

(** [id] is a key of none of the path-keyed adapter tables. *)
Definition in_no_table id s : Prop := ∀ m : Table, TfMapContains m id s = false.

(** The render-item adapter of [id], if any, draws lines or a line strip. *)
Definition is_line_render_item id s : bool :=
  match _renderItemsAdapters s !! id with
  | Some ria =>
      bool_decide (ria_GetPrimitive ria = kLines)
      || bool_decide (ria_GetPrimitive ria = kLineStrip)
  | None => false
  end.

(** The path of the material bound to the adapter of [id]: the material of
    its render-item adapter, or the path of the shading node of its shape
    adapter. *)
Definition bound_material id s : option SdfPath :=
  match _renderItemsAdapters s !! id with
  | Some ria => Some (ria_GetMaterial ria)
  | None =>
      match _shapeAdapters s !! id with
      | Some shape =>
          if decide (sa_GetMaterial shape = kNullObj) then None
          else Some (GetMaterialPath host (sa_GetMaterial shape))
      | None => None
      end
  end.

(** The resolution order of [GetMaterialId] in the words of the
    specification: default-material override, then line primitives, then
    the bound material if it is registered, and the fallback material in
    every other case. *)
Definition GetMaterialId_as_specified id s : SdfPath :=
  if _useDefaultMaterial s then _mayaDefaultMaterialPath
  else if is_line_render_item id s then _fallbackMaterial
  else
    match bound_material id s with
    | Some material =>
        if bool_decide (is_Some (_materialAdapters s !! material)) then material
        else _fallbackMaterial
    | None => _fallbackMaterial
    end.

(** Every light adapter is stored under the sprim path of its DAG path,
    which is how [_CreateAdapter] enters it. *)
Definition lights_wf s : Prop :=
  ∀ id a, _lightAdapters s !! id = Some a → id = GetPrimPath host (la_GetDagPath a) true.

(** The registry's light creators build an adapter for the DAG path they
    are given. *)
Definition light_creators_wf : Prop :=
  ∀ dag creator a,
    GetLightAdapterCreator host dag = Some creator → creator dag = Some a →
    la_GetDagPath a = dag.

(** From [s] to [s'] the light adapter [a] of [P] stays in place and the
    light table stays well keyed. *)
Definition keeps_light (P : SdfPath) (a : MayaHydraLightAdapter) s s' : Prop :=
  (_lightAdapters s !! P = Some a → _lightAdapters s' !! P = Some a)
  ∧ (lights_wf s → lights_wf s').

(** No queued light or node makes [PreFrame] return early. *)
Definition queued_handles_resolve s : Prop :=
  Forall (λ e : MObject * LightCreator, is_Some (getAPathTo host e.1)) (_lightsToAdd s)
  ∧ Forall (λ o : MObject, isNull o = true ∨ is_Some (getAPathTo host o)) (_addedNodes s).

(** The draw context enumerates an active light whose sprim path is [P]. *)
Definition enumerates_light (context : @MDrawContext MMatrix) (P : SdfPath) : Prop :=
  ∃ i lightParam,
    i < numberOfActiveLights context
    ∧ getLightParameterInformation context i = Some lightParam
    ∧ lightPath_isValid lightParam = true
    ∧ GetPrimPath host (lightPath lightParam) true = P.

(** The adapter [a] with its lighting-enabled state set to [on]. *)
Definition with_lightingOn (on : bool) (a : MayaHydraLightAdapter) : MayaHydraLightAdapter :=
  {| la_GetDagPath := la_GetDagPath a; la_lightingOn := on |}.

(** [P] is not queued for recreation. *)
Definition recreate_avoids (P : SdfPath) s : Prop := P ∉ (_adaptersToRecreate s).*1.

(** *** Footprints

    The fields of the delegate, and what it means for an operation to
    change at most a given set of them. *)
Inductive Field :=
| FRenderItemsFast | FRenderItems | FShapes | FLights | FCameras | FMaterials
| FLightsToAdd | FAddedNodes | FRecreate | FRebuild | FMaterialTags
| FUseDefaultMaterial | FXRay | FWorld.

Definition unchanged (f : Field) s s' : Prop :=
  match f with
  | FRenderItemsFast => _renderItemsAdaptersFast s' = _renderItemsAdaptersFast s
  | FRenderItems => _renderItemsAdapters s' = _renderItemsAdapters s
  | FShapes => _shapeAdapters s' = _shapeAdapters s
  | FLights => _lightAdapters s' = _lightAdapters s
  | FCameras => _cameraAdapters s' = _cameraAdapters s
  | FMaterials => _materialAdapters s' = _materialAdapters s
  | FLightsToAdd => _lightsToAdd s' = _lightsToAdd s
  | FAddedNodes => _addedNodes s' = _addedNodes s
  | FRecreate => _adaptersToRecreate s' = _adaptersToRecreate s
  | FRebuild => _adaptersToRebuild s' = _adaptersToRebuild s
  | FMaterialTags => _materialTagsChanged s' = _materialTagsChanged s
  | FUseDefaultMaterial => _useDefaultMaterial s' = _useDefaultMaterial s
  | FXRay => _xRayEnabled s' = _xRayEnabled s
  | FWorld => world s' = world s
  end.

Definition modifies (fs : list Field) s s' : Prop :=
  ∀ f, f ∉ fs → unchanged f s s'.

End Predicates.

Global Instance Field_eq_dec : EqDecision Field.
Proof. solve_decision. Defined.

(** ** A small scene

    One concrete host, used to run the operations: a light node whose DAG
    path resolves (handle 1), a light node whose path does not (handle 2),
    a mesh shape (handle 3), a shape with two instance paths (handle 4) and
    a shading engine (handle 5).  The world keeps the render prims with the
    material each was last synced with, and the calls made on adapters. *)

Record ExWorld := {
  ex_rprims : list (string * string);
  ex_calls : list (Table * string * @AdapterCall unit);
  ex_dirty : list (string * N)
}.

Definition ex_light : LightCreator :=
  λ dag, Some {| la_GetDagPath := dag; la_lightingOn := true |}.

Definition ex_shape : ShapeCreator :=
  λ dag, Some {| sa_GetDagPath := dag; sa_GetMaterial := 5; sa_IsInstanced := false |}.

Definition ex_material : MaterialCreator :=
  λ id obj, Some {| ma_node := obj; ma_materialTag := "opaque"; ma_xRay := false |}.

Definition ex_getAPathTo (obj : MObject) : option MDagPath :=
  match obj with
  | 1 => Some "|light1"
  | 3 => Some "|cubeShape"
  | 4 => Some "|a|inst"
  | _ => None
  end.

Definition ex_host (mesh hdSt : bool) : @Host ExWorld unit := {|
  useMeshAdapter := mesh;
  IsHdSt := hdSt;
  GetLightsEnabled := true;
  RebuildFlagPrim := 2;
  RebuildFlagCallbacks := 4;
  DirtyMaterialId := 128;
  DirtyInstancer := 65536;
  DirtyInstanceIndex := 131072;
  DirtyPrimvar := 64;
  kInvalidMaterial := "/InvalidMaterial";
  MObjectHandle_isValid := λ _, true;
  IsUfeItemFromMayaUsd_obj := λ _, false;
  IsUfeItemFromMayaUsd := λ _, false;
  getAPathTo := ex_getAPathTo;
  getAllPathsTo := λ obj,
    match obj with
    | 3 => ["|cubeShape"]
    | 4 => ["|a|inst"; "|b|inst"]
    | _ => []
    end;
  dag_node := λ dag,
    if decide (dag = "|light1") then 1
    else if decide (dag = "|cubeShape") then 3
    else if decide (dag = "|a|inst") then 4
    else if decide (dag = "|b|inst") then 4
    else 0;
  dag_hasFn_kTransform := λ _, false;
  dag_children := λ _, [];
  dag_isInstanced := λ dag, bool_decide (dag = "|a|inst") || bool_decide (dag = "|b|inst");
  dag_instanceNumber := λ dag, if decide (dag = "|b|inst") then 1 else 0;
  isIntermediateObject := λ _, false;
  MFnDagNode_getPath := ex_getAPathTo;
  GetPrimPath := λ dag isSprim,
    String.append (if isSprim then "/Lights" else "/Rprims") dag;
  GetMaterialPath := λ _, "/Materials/sg";
  GetLightAdapterCreator_obj := λ obj,
    if bool_decide (obj = 1) || bool_decide (obj = 2) then Some ex_light else None;
  GetLightAdapterCreator := λ dag,
    if decide (dag = "|light1") then Some ex_light else None;
  GetCameraAdapterCreator := λ _, None;
  GetShapeAdapterCreator := λ dag,
    if bool_decide (dag = "|cubeShape") || bool_decide (dag = "|a|inst")
    then Some ex_shape else None;
  GetMaterialAdapterCreator := λ obj, if decide (obj = 5) then Some ex_material else None;
  light_IsSupported := λ _, true;
  camera_IsSupported := λ _, true;
  shape_IsSupported := λ _, true;
  material_IsSupported := λ _, true;
  currentMaterialTag := λ _, "translucent";
  adapterCall := λ m id c w,
    {| ex_rprims := ex_rprims w; ex_calls := ex_calls w ++ [(m, id, c)];
       ex_dirty := ex_dirty w |};
  MarkRprimDirty := λ id bits w,
    {| ex_rprims := ex_rprims w; ex_calls := ex_calls w;
       ex_dirty := ex_dirty w ++ [(id, bits)] |};
  GetRprimIds := λ w, (ex_rprims w).*1;
  GetRprim_GetMaterialId := λ w id, (snd ∘ snd) <$> list_find (λ r, r.1 = id) (ex_rprims w);
  IsPropertyPath := λ p, bool_decide (is_Some (String.index 0 "." p));
  SdfPath_GetPrimPath := λ p,
    match String.index 0 "." p with
    | Some n => String.substring 0 n p
    | None => p
    end
|}.

(** A delegate with empty tables and queues, over a given world. *)
Definition ex_empty (w : ExWorld) : @MayaHydraSceneDelegate ExWorld := {|
  _renderItemsAdaptersFast := ∅;
  _renderItemsAdapters := ∅;
  _shapeAdapters := ∅;
  _lightAdapters := ∅;
  _cameraAdapters := ∅;
  _materialAdapters := ∅;
  _lightsToAdd := [];
  _addedNodes := [];
  _adaptersToRecreate := [];
  _adaptersToRebuild := [];
  _materialTagsChanged := [];
  _useDefaultMaterial := false;
  _xRayEnabled := false;
  world := w
|}.

Definition ex_world0 : ExWorld := {| ex_rprims := []; ex_calls := []; ex_dirty := [] |}.

(** A draw context that enumerates no active light. *)
Definition ex_context0 : @MDrawContext unit := {|
  getDisplayStyle_kDefaultMaterial := false;
  getDisplayStyle_kXray := false;
  numberOfActiveLights_status := true;
  numberOfActiveLights := 0;
  getLightParameterInformation := λ _, None
|}.

Definition ex_ria : MayaHydraRenderItemAdapter := {|
  ria_GetID := "/Rprims|cubeShape/StandardShadedItem_7";
  ria_GetFastID := 7;
  ria_GetPrimitive := kTriangles;
  ria_GetMaterial := "/Materials/sg"
|}.

(** One registered render item. *)
Definition ex_one_render_item : @MayaHydraSceneDelegate ExWorld :=
  _AddRenderItem ex_ria (ex_empty ex_world0).

Definition ex_light1 (on : bool) : MayaHydraLightAdapter :=
  {| la_GetDagPath := "|light1"; la_lightingOn := on |}.

(** One light adapter, for [|light1], with lighting switched off. *)
Definition ex_one_light : @MayaHydraSceneDelegate ExWorld :=
  set_lightAdapters {[ "/Lights|light1" := ex_light1 false ]} (ex_empty ex_world0).

(** Two queued lights, the first of which does not resolve, and one
    identity queued both for recreation and for rebuild. *)
Definition ex_unresolved_light : @MayaHydraSceneDelegate ExWorld :=
  set_lightsToAdd [(2, ex_light); (1, ex_light)]
    (set_adaptersToRecreate [("/Rprims|cubeShape", 3)]
       (set_adaptersToRebuild [("/Rprims|cubeShape", 4%N)] (ex_empty ex_world0))).

Definition ex_cubeShape : MayaHydraShapeAdapter :=
  {| sa_GetDagPath := "|cubeShape"; sa_GetMaterial := 5; sa_IsInstanced := false |}.

(** One shape adapter whose material has no adapter yet. *)
Definition ex_one_shape : @MayaHydraSceneDelegate ExWorld :=
  set_shapeAdapters {[ "/Rprims|cubeShape" := ex_cubeShape ]} (ex_empty ex_world0).

Definition ex_instanced : MayaHydraShapeAdapter :=
  {| sa_GetDagPath := "|a|inst"; sa_GetMaterial := 0; sa_IsInstanced := true |}.

(** One instanced shape adapter, the master of two instance paths. *)
Definition ex_one_instanced_shape : @MayaHydraSceneDelegate ExWorld :=
  set_shapeAdapters {[ "/Rprims|a|inst" := ex_instanced ]} (ex_empty ex_world0).

Definition ex_sg : MayaHydraMaterialAdapter :=
  {| ma_node := 5; ma_materialTag := "opaque"; ma_xRay := false |}.

(** A material whose classification changed, referenced by two render
    prims. *)
Definition ex_material_changed : @MayaHydraSceneDelegate ExWorld :=
  set_materialTagsChanged ["/Materials/sg"]
    (set_materialAdapters {[ "/Materials/sg" := ex_sg ]}
       (ex_empty {| ex_rprims := [("/Rprims|A", "/Materials/sg");
                                  ("/Rprims|B", "/Materials/sg")];
                    ex_calls := []; ex_dirty := [] |})).

(** Query value types for the scene: values are optional numbers. *)
Definition ex_types : QueryTypes := {|
  HdMeshTopology := list nat;
  HdBasisCurvesTopology := list nat;
  PxOsdSubdivTags := list nat;
  GfRange3d := nat * nat;
  VtValue := option nat;
  HdPrimvarDescriptorVector := list string;
  VtIntArray := list Z;
  HdCullStyle := nat;
  HdDisplayStyle := nat;
  HdInterpolation := nat;
  double := Z;
  HdMeshTopology_init := [];
  HdBasisCurvesTopology_init := [];
  PxOsdSubdivTags_init := [];
  GfRange3d_init := (0, 0);
  VtValue_init := None;
  HdPrimvarDescriptorVector_init := [];
  VtIntArray_init := [];
  HdCullStyle_init := 0;
  HdDisplayStyle_init := 0;
  double_0 := 0%Z;
  double_1 := 1%Z
|}.

Definition ex_methods : @AdapterMethods ex_types :=
  @Build_AdapterMethods ex_types
    (* a_GetMeshTopology *) (λ _, [3; 3])
    (* a_GetBasisCurvesTopology *) (λ _, [2])
    (* a_GetSubdivTags *) (λ _, [1])
    (* a_GetExtent *) (λ _, (1, 1))
    (* a_GetTransform *) (λ _, GfMatrix4d_identity (T:=ex_types))
    (* a_SampleTransform *) (λ _ _, (1, [(0%Z, GfMatrix4d_identity (T:=ex_types))]))
    (* a_Get *) (λ _ _, Some 1)
    (* a_GetInstancePrimvar *) (λ _ _, Some 2)
    (* a_SamplePrimvar *) (λ _ _ _, (1, [(0%Z, Some 1)]))
    (* a_GetRenderTag *) (λ _, "geometry")
    (* a_GetPrimvarDescriptors *) (λ _ _, ["points"])
    (* a_GetInstancePrimvarDescriptors *) (λ _ _, ["instanceTransform"])
    (* a_GetLightParamValue *) (λ _ _, Some 3)
    (* a_GetCameraParamValue *) (λ _ _, Some 4)
    (* a_GetInstanceIndices *) (λ _ _, [0%Z; 1%Z])
    (* a_GetInstancerID *) (λ _, "/Rprims|a|inst.instancer")
    (* a_GetVisible *) (λ _, true)
    (* a_GetDoubleSided *) (λ _, true)
    (* a_GetCullStyle *) (λ _, 1)
    (* a_GetDisplayStyle *) (λ _, 1)
    (* a_GetMaterialResource *) (λ _, Some 5)
    (* HdSceneDelegate_SamplePrimvar *)
    (λ get id key maxSampleCount,
       if bool_decide (maxSampleCount < 1) then (0, []) else (1, [(0%Z, get id key)]))
    (* GetPreviewMaterialResource *) (λ _, Some 6)
    (* _mayaDefaultMaterial *) (Some 7)
    (* VtValue_IsEmpty *) (λ v, bool_decide (v = None)).

(** * The rest of the delegate

    The operations of sceneDelegate.cpp that the pass and the queries above
    do not reach: the per-frame render-item batch, the population entry
    point, the lookups by identity and the selection helper. *)

(** ** Render items as Maya hands them over *)

(** Two pointers to render-item adapters are compared through the adapters
    they point to. *)
Global Instance MayaHydraRenderItemAdapter_eq_dec : EqDecision MayaHydraRenderItemAdapter.
Proof. solve_decision. Defined.

(** [MHWRender::MRenderItem], as far as the delegate reads it. *)
Record MRenderItem := {
  ri_name : string;
  ri_InternalObjectId : Z;
  ri_primitive : Primitive;
  ri_sourceDagPath : MDagPath;
  ri_sourceDagPath_isValid : bool;
  ri_shadingComponent : MObject
}.

(** [MDataServerOperation::MViewportScene]: the removal ids
    [mRemovals[0 .. mRemovalCount)] and the pairs [mItems[i]], [mFlags[i]]
    for [i < mCount]. *)
Record MViewportScene := {
  mRemovals : list Z;
  mItems : list (MRenderItem * N)
}.

(** The sentinel of the removal loop, [constexpr int kInvalidId = 0]. *)
Definition kInvalidId : Z := 0.

(** [HdxPickHit], as far as the delegate reads it. *)
Record HdxPickHit {GfVec3d : Type} := {
  objectId : SdfPath;
  worldSpaceHitPoint : GfVec3d
}.
Arguments HdxPickHit : clear implicits.

(** [MCallbackId], an integer handle. *)
Abbreviation MCallbackId := nat (only parsing).

(** The three callbacks [Populate] registers. *)
Inductive MCallbackKind := NodeAddedCallback | NodeRemovedCallback | ConnectionCallback.

Section Viewport.

(** [MColor], [MHWRender::DisplayStatus], [GfVec4d] and [GfVec3d] are only
    passed through. *)
Context {World MMatrix MColor DisplayStatus GfVec4d GfVec3d : Type}.

(** [MayaHydraRenderItemAdapter::UpdateFromDeltaData]. *)
Record UpdateFromDeltaData := {
  data_ri : MRenderItem;
  data_flags : N;
  data_wireframeColor : MColor;
  data_displayStatus : DisplayStatus
}.

(** Calls the delegate makes on a render-item adapter. *)
Inductive RenderItemCall :=
| SetPlaybackChanged
| SetIsRenderITemAnaiSkydomeLightTriangleShape (b : bool)
| CallSetMaterial (material : SdfPath)
| UpdateFromDelta (data : UpdateFromDeltaData)
| UpdateTransform (ri : MRenderItem).

(** What these operations read and call besides [Host]. *)
Record Viewport := {
  (* build configuration: [assert] is compiled out *)
  NDEBUG : bool;
  (* Maya *)
  MAnimControl_isPlaying : bool;
  MVS_changedEffect : N;
  MVS_changedMatrix : N;
  isRenderItem_aiSkyDomeLightTriangleShape : MRenderItem → bool;
  getConnectedSetsAndMembers : MDagPath → list (MObject * MObject);
  apiType_kShadingEngine : MObject → bool;
  MFnComponent_isEqual : MObject → MObject → bool;
  MColor_default : MColor;
  kNoStatus : DisplayStatus;
  wireframeColor : MDagPath → MColor;
  displayStatus : MDagPath → DisplayStatus;
  MItDag : list (MDagPath * option MObject);
  addCallback : MCallbackKind → World → MCallbackId * bool * World;
  transform_getAPathTo : MDagPath → option MDagPath;
  (* MayaHydraDelegateCtx *)
  GetRenderItemPrimPath : MRenderItem → SdfPath;
  GetRprimPath : SdfPath;
  (* the render-item and camera adapters *)
  ctor_GetPrimitive : MDagPath → MRenderItem → Primitive;
  ctor_GetMaterial : MDagPath → MRenderItem → SdfPath;
  ria_GetDagPath : MayaHydraRenderItemAdapter → MDagPath;
  renderItemCall : MayaHydraRenderItemAdapter → RenderItemCall → World → World;
  SetViewport : SdfPath → GfVec4d → World → World;
  (* the render index *)
  IsSprimTypeSupported_material : World → bool;
  InsertSprim_material : SdfPath → World → World;
  (* SdfPath *)
  SdfPath_HasPrefix : SdfPath → SdfPath → bool
}.

Variable host : @Host World MMatrix.
Variable viewport : Viewport.

Implicit Types (s : @MayaHydraSceneDelegate World) (id : SdfPath) (obj : MObject).

(** ** Lookups by identity *)

(** [nullptr] is [None]. *)
Definition GetLightAdapter id s : option MayaHydraLightAdapter := _lightAdapters s !! id.

Definition GetMaterialAdapter id s : option MayaHydraMaterialAdapter :=
  _materialAdapters s !! id.

Definition SetCameraViewport (camPath : MDagPath) (vp : GfVec4d) s
    : SdfPath * MayaHydraSceneDelegate :=
  let camID := GetPrimPath host camPath true in
  match _cameraAdapters s !! camID with
  | Some _ => (camID, set_world (SetViewport viewport camID vp (world s)) s)
  | None => (SdfPath_EmptyPath, s)
  end.

(** ** The render-item batch *)

Definition filterMesh (ri : MRenderItem) : bool :=
  if useMeshAdapter host then bool_decide (ri_name ri = "StandardShadedItem") else false.

(** The loop of [GetShadingEngineNode] over [sets] and [comps], which have
    the same length. *)
Fixpoint GetShadingEngineNode_loop (shadingComp : MObject) (sets : list (MObject * MObject))
    : option MObject :=
  match sets with
  | [] => None
  | (object, comp) :: sets =>
      if apiType_kShadingEngine viewport object
         && (isNull shadingComp || isNull comp
             || MFnComponent_isEqual viewport comp shadingComp)
      then Some object
      else GetShadingEngineNode_loop shadingComp sets
  end.

(** [GetShadingEngineNode] writes [shadingEngineNode] only when it returns
    [true]; the result is the node it wrote, if any. *)
Definition GetShadingEngineNode (ri : MRenderItem) : option MObject :=
  let dagPath := ri_sourceDagPath ri in
  if ri_sourceDagPath_isValid ri then
    GetShadingEngineNode_loop (ri_shadingComponent ri)
      (getConnectedSetsAndMembers viewport dagPath)
  else None.

(** [_GetRenderItemMaterial]: the returned triple is the result and the
    values of the references [material] and [shadingEngineNode] on return. *)
Definition _GetRenderItemMaterial (ri : MRenderItem) (material : SdfPath)
    (shadingEngineNode : MObject) s : bool * SdfPath * MObject :=
  if bool_decide (kLines = ri_primitive ri) || bool_decide (kLineStrip = ri_primitive ri)
  then (true, _fallbackMaterial, shadingEngineNode)
  else
    match GetShadingEngineNode ri with
    | Some shadingEngineNode =>
        let material := GetMaterialPath host shadingEngineNode in
        match _materialAdapters s !! material with
        | Some _ => (true, material, shadingEngineNode)
        | None => (false, material, shadingEngineNode)
        end
    | None => (false, material, shadingEngineNode)
    end.

(** Modelled from the spec: the constructor of the render-item adapter is
    declared outside this file.  The adapter keeps the identity path and
    the fast key it is constructed with; the primitive and the material it
    starts with are the host's. *)
Definition MayaHydraRenderItemAdapter_new (dagPath : MDagPath) (slowId : SdfPath)
    (fastId : Z) (ri : MRenderItem) : MayaHydraRenderItemAdapter :=
  {| ria_GetID := slowId; ria_GetFastID := fastId;
     ria_GetPrimitive := ctor_GetPrimitive viewport dagPath ri;
     ria_GetMaterial := ctor_GetMaterial viewport dagPath ri |}.

(** A call on the render-item adapter held under [fastId]. *)
Definition ria_call (fastId : Z) (c : RenderItemCall) s : MayaHydraSceneDelegate :=
  match _renderItemsAdaptersFast s !! fastId with
  | Some ria => set_world (renderItemCall viewport ria c (world s)) s
  | None => s
  end.

(** Modelled from the spec: [SetMaterial] is an adapter method declared
    outside this file; it pushes the new material binding, the one
    [GetMaterial] returns.  The two tables share the adapter object, so the
    write shows through both: the entry of the path table is the object of
    the fast table when it holds the same adapter under the adapter's
    path. *)
Definition SetMaterial (fastId : Z) (material : SdfPath) s : MayaHydraSceneDelegate :=
  match _renderItemsAdaptersFast s !! fastId with
  | Some ria =>
      let ria' := {| ria_GetID := ria_GetID ria; ria_GetFastID := ria_GetFastID ria;
                     ria_GetPrimitive := ria_GetPrimitive ria;
                     ria_GetMaterial := material |} in
      let s := ria_call fastId (CallSetMaterial material) s in
      let s := set_renderItemsAdaptersFast (<[fastId:=ria']> (_renderItemsAdaptersFast s)) s in
      if decide (_renderItemsAdapters s !! ria_GetID ria = Some ria)
      then set_renderItemsAdapters (<[ria_GetID ria:=ria']> (_renderItemsAdapters s)) s
      else s
  | None => s
  end.

(** The first loop of [HandleCompleteViewportScene].  [assert(ria !=
    nullptr)] stops the program, unless it is compiled out. *)
Fixpoint HandleRemovals (removals : list Z) s : option MayaHydraSceneDelegate :=
  match removals with
  | [] => Some s
  | fastId :: removals =>
      if decide (fastId = kInvalidId) then HandleRemovals removals s
      else
        match _GetRenderItem fastId s with
        | Some ria => HandleRemovals removals (_RemoveRenderItem ria s)
        | None => if NDEBUG viewport then HandleRemovals removals s else None
        end
  end.

(** The part of the second loop's body that finds or creates the adapter;
    [None] is [continue]. *)
Definition HandleItem_adapter (ri : MRenderItem) s : option MayaHydraSceneDelegate :=
  let fastId := ri_InternalObjectId ri in
  match _GetRenderItem fastId s with
  | Some _ => Some s
  | None =>
      let slowId := GetRenderItemPrimPath viewport ri in
      if decide (slowId = SdfPath_EmptyPath) then None
      else
        let dagPath := ri_sourceDagPath ri in
        let ria := MayaHydraRenderItemAdapter_new dagPath slowId fastId ri in
        let s :=
          set_world
            (renderItemCall viewport ria
               (SetIsRenderITemAnaiSkydomeLightTriangleShape
                  (isRenderItem_aiSkyDomeLightTriangleShape viewport ri))
               (world s)) s in
        Some (_AddRenderItem ria s)
  end.

(** The rest of the body, once the adapter is there: material, draw state
    and transform. *)
Definition HandleItem_update (ri : MRenderItem) (flags : N) s : MayaHydraSceneDelegate :=
  let fastId := ri_InternalObjectId ri in
  let '(found, material, shadingEngineNode) :=
    _GetRenderItemMaterial ri SdfPath_EmptyPath kNullObj s in
  let s :=
    if found then s
    else if decide (material ≠ kInvalidMaterial host)
         then (_CreateMaterial host material shadingEngineNode s).2
         else s in
  let s :=
    if decide (N.land flags (MVS_changedEffect viewport) ≠ 0%N)
    then SetMaterial fastId material s
    else s in
  let dagPath := ri_sourceDagPath ri in
  let '(wireframeColor, displayStatus) :=
    if ri_sourceDagPath_isValid ri
    then (wireframeColor viewport dagPath, displayStatus viewport dagPath)
    else (MColor_default viewport, kNoStatus viewport) in
  let data := {| data_ri := ri; data_flags := flags;
                 data_wireframeColor := wireframeColor;
                 data_displayStatus := displayStatus |} in
  let s := ria_call fastId (UpdateFromDelta data) s in
  if decide (N.land flags (MVS_changedMatrix viewport) ≠ 0%N)
  then ria_call fastId (UpdateTransform ri) s
  else s.

(** The body of the second loop. *)
Definition HandleItem s (item : MRenderItem * N) : MayaHydraSceneDelegate :=
  let '(ri, flags) := item in
  if decide (flags = 0%N) then s
  else if filterMesh ri then s
  else
    match HandleItem_adapter ri s with
    | None => s
    | Some s => HandleItem_update ri flags s
    end.

(** [HandleCompleteViewportScene]; the member [_isPlaybackRunning] is read
    and written by this function only and is passed in and out.  The
    parameter [displayStyle] is not used by the body.  [None]: an assertion
    failed. *)
Definition HandleCompleteViewportScene (scene : MViewportScene) (_isPlaybackRunning : bool) s
    : option (bool * MayaHydraSceneDelegate) :=
  let playbackRunning := MAnimControl_isPlaying viewport in
  let s :=
    if decide (_isPlaybackRunning ≠ playbackRunning) then
      map_fold (λ _ ria acc,
                  set_world (renderItemCall viewport ria SetPlaybackChanged (world acc)) acc)
               s (_renderItemsAdapters s)
    else s in
  match HandleRemovals (mRemovals scene) s with
  | None => None
  | Some s => Some (playbackRunning, foldl HandleItem s (mItems scene))
  end.

(** ** Population *)

(** One of the three registrations of [Populate]: the id is kept when the
    status is a success. *)
Definition register (kind : MCallbackKind)
    (st : list MCallbackId * MayaHydraSceneDelegate)
    : list MCallbackId * MayaHydraSceneDelegate :=
  let '(id, status, w) := addCallback viewport kind (world st.2) in
  (if status then st.1 ++ [id] else st.1, set_world w st.2).

(** [MayaHydraSceneDelegate::Populate]; the member [_callbacks] is passed
    in and out.  [MItDag] lists, in traversal order, the path of each node
    and its handle when [currentItem] succeeds.  The registry is the one
    [LoadAllPlugin] leaves. *)
Definition MayaHydraSceneDelegate_Populate (_callbacks : list MCallbackId) s
    : list MCallbackId * MayaHydraSceneDelegate :=
  let s :=
    if useMeshAdapter host then
      foldl (λ acc e, InsertDag host e.1 acc) s (MItDag viewport)
    else
      foldl (λ acc e,
               match e.2 with
               | Some node => OnDagNodeAdded host node acc
               | None => acc
               end)
            s (MItDag viewport) in
  let st := register NodeAddedCallback (_callbacks, s) in
  let st := register NodeRemovedCallback st in
  let st := register ConnectionCallback st in
  if IsSprimTypeSupported_material viewport (world st.2)
  then (st.1, set_world (InsertSprim_material viewport _mayaDefaultMaterialPath (world st.2))
                        st.2)
  else st.

(** ** Selection *)

(** [AddPickHitToSelectionList]: the triple is the result and the contents
    of [selectionList] and [worldSpaceHitPts] on return.  The point appended
    has the three coordinates of the hit point.  The parameter [selectInfo]
    is not used by the body. *)
Definition AddPickHitToSelectionList (hit : HdxPickHit GfVec3d)
    (selectionList : list MDagPath) (worldSpaceHitPts : list GfVec3d) s
    : bool * list MDagPath * list GfVec3d :=
  let hitId := objectId hit in
  if SdfPath_HasPrefix viewport hitId (GetRprimPath viewport) then
    match _renderItemsAdapters s !! hitId with
    | Some a =>
        let itemPath := ria_GetDagPath viewport a in
        let selectPath :=
          match transform_getAPathTo viewport itemPath with
          | Some selectPath => selectPath
          | None => itemPath
          end in
        (true, selectionList ++ [selectPath], worldSpaceHitPts ++ [worldSpaceHitPoint hit])
    | None => (true, selectionList, worldSpaceHitPts)
    end
  else (false, selectionList, worldSpaceHitPts).

(** ** Predicates used in the statements *)

(** The queued recreations of one identity. *)
Definition pending_recreates id (q : list (SdfPath * MObject)) : list (SdfPath * MObject) :=
  filter (λ it, it.1 = id) q.

(** What a successful [_CreateAdapter] does to the table it is instantiated
    with: the identity was free, the new adapter is entered under it, and
    the adapter was populated and then given its callbacks. *)
Definition adapter_entered {A} (m : Table) (get : MayaHydraSceneDelegate → gmap string A)
    id (a : A) s s' : Prop :=
  get s !! id = None
  ∧ get s' = <[id:=a]> (get s)
  ∧ world s' = adapterCall host m id CreateCallbacks (adapterCall host m id Populate (world s)).

(** The five pending-work queues are empty. *)
Definition queues_empty s : Prop :=
  _lightsToAdd s = [] ∧ _addedNodes s = [] ∧ _adaptersToRecreate s = []
  ∧ _adaptersToRebuild s = [] ∧ _materialTagsChanged s = [].

(** The batch item [ri] is one the second loop works on. *)
Definition handled (item : MRenderItem * N) : Prop :=
  item.2 ≠ 0%N ∧ filterMesh item.1 = false.

(** The adapter [a] with the material binding [material]. *)
Definition with_material (material : SdfPath) (a : MayaHydraRenderItemAdapter)
    : MayaHydraRenderItemAdapter :=
  {| ria_GetID := ria_GetID a; ria_GetFastID := ria_GetFastID a;
     ria_GetPrimitive := ria_GetPrimitive a; ria_GetMaterial := material |}.

(** The same fast keys have an adapter in [s] and in [s']. *)
Definition same_fast_keys s s' : Prop :=
  ∀ k, is_Some (_renderItemsAdaptersFast s' !! k) ↔ is_Some (_renderItemsAdaptersFast s !! k).

(** Render items with the same derived path have the same fast key: two
    items of the batch, and an item of the batch and a registered adapter,
    unless the batch removes that adapter. *)
Definition paths_follow_keys (scene : MViewportScene) s : Prop :=
  (∀ item item', item ∈ mItems scene → item' ∈ mItems scene →
     GetRenderItemPrimPath viewport item.1 = GetRenderItemPrimPath viewport item'.1 →
     ri_InternalObjectId item.1 = ri_InternalObjectId item'.1)
  ∧ (∀ item r, item ∈ mItems scene → _renderItemsAdapters s !! ria_GetID r = Some r →
       GetRenderItemPrimPath viewport item.1 = ria_GetID r →
       ri_InternalObjectId item.1 = ria_GetFastID r
       ∨ (ria_GetFastID r ∈ mRemovals scene ∧ ria_GetFastID r ≠ kInvalidId)).

(** What the second loop maintains: the two tables are paired, and an
    adapter registered under the derived path of an item of the batch is held
    under the fast key of that item. *)
Definition batch_invariant (items : list (MRenderItem * N)) s : Prop :=
  renderItems_wf s
  ∧ ∀ item r, item ∈ items → _renderItemsAdapters s !! ria_GetID r = Some r →
      GetRenderItemPrimPath viewport item.1 = ria_GetID r →
      ri_InternalObjectId item.1 = ria_GetFastID r.

End Viewport.

(** [GetShadingStyle] *)
Section ShadingStyle.

Context {World : Type} {T : QueryTypes}.

(** [VtValue(token)] and [MayaHydraDelegateCtx::GetShadingStyle]. *)
Variable VtValue_TfToken : TfToken → VtValue T.
Variable MayaHydraDelegateCtx_GetShadingStyle : SdfPath → VtValue T.

Definition GetShadingStyle (id : SdfPath) (s : @MayaHydraSceneDelegate World) : VtValue T :=
  match _renderItemsAdapters s !! id with
  | Some ri =>
      let primitive := ria_GetPrimitive ri in
      if bool_decide (kLines = primitive) || bool_decide (kLineStrip = primitive)
      then VtValue_TfToken "constantLighting"
      else MayaHydraDelegateCtx_GetShadingStyle id
  | None => MayaHydraDelegateCtx_GetShadingStyle id
  end.

End ShadingStyle.

(** ** The calls a pass makes on adapters

    The world is opaque.  What a pass does to an adapter is read off a
    record of the calls made on adapters, for a world that keeps one. *)
Section Calls.

Context {World MMatrix : Type}.
Variable host : @Host World MMatrix.

Implicit Types (s : @MayaHydraSceneDelegate World) (P : SdfPath).






End Calls.

(** ** The viewport of the small scene

    The calls made on render-item adapters, the viewport of a camera and the
    sprims inserted by [Populate] are logged in the dirty list of the example
    world, under a number for the kind of call. *)

Definition ex_log (id : string) (code : N) (w : ExWorld) : ExWorld :=
  {| ex_rprims := ex_rprims w; ex_calls := ex_calls w; ex_dirty := ex_dirty w ++ [(id, code)] |}.

Definition ex_call_code (c : @RenderItemCall unit unit) : N :=
  match c with
  | SetPlaybackChanged => 1
  | SetIsRenderITemAnaiSkydomeLightTriangleShape _ => 2
  | CallSetMaterial _ => 3
  | UpdateFromDelta _ => 4
  | UpdateTransform _ => 5
  end.

(** The shape [|cubeShape] is connected to the shading engine 5; the DAG
    has the light 1, the shape 3 and a node whose [currentItem] fails; the
    third registration fails. *)
Definition ex_viewport : @Viewport ExWorld unit unit nat := {|
  NDEBUG := false;
  MAnimControl_isPlaying := false;
  MVS_changedEffect := 2;
  MVS_changedMatrix := 1;
  isRenderItem_aiSkyDomeLightTriangleShape := λ _, false;
  getConnectedSetsAndMembers := λ dag, if decide (dag = "|cubeShape") then [(5, 0)] else [];
  apiType_kShadingEngine := λ object, bool_decide (object = 5);
  MFnComponent_isEqual := λ comp other, bool_decide (comp = other);
  MColor_default := tt;
  kNoStatus := tt;
  wireframeColor := λ _, tt;
  displayStatus := λ _, tt;
  MItDag := [("|light1", Some 1); ("|cubeShape", Some 3); ("|gone", None)];
  addCallback := λ kind w,
    match kind with
    | NodeAddedCallback => (10, true, w)
    | NodeRemovedCallback => (11, true, w)
    | ConnectionCallback => (12, false, w)
    end;
  transform_getAPathTo := λ dag, if decide (dag = "|cubeShape") then Some "|cube" else None;
  GetRenderItemPrimPath := λ ri,
    if decide (ri_name ri = "") then SdfPath_EmptyPath
    else String.append "/Rprims" (String.append (ri_sourceDagPath ri)
                                    (String.append "/" (ri_name ri)));
  GetRprimPath := "/Rprims";
  ctor_GetPrimitive := λ _ ri, ri_primitive ri;
  ctor_GetMaterial := λ _ _, SdfPath_EmptyPath;
  ria_GetDagPath := λ _, "|cubeShape";
  renderItemCall := λ ria c w, ex_log (ria_GetID ria) (ex_call_code c) w;
  SetViewport := λ id vp w, ex_log id 6 w;
  IsSprimTypeSupported_material := λ _, true;
  InsertSprim_material := λ id w, ex_log id 7 w;
  SdfPath_HasPrefix := λ path prefix, String.prefix prefix path
|}.

(** The render item of [ex_ria], as Maya reports it. *)
Definition ex_item (fastId : Z) : MRenderItem := {|
  ri_name := "StandardShadedItem_7";
  ri_InternalObjectId := fastId;
  ri_primitive := kTriangles;
  ri_sourceDagPath := "|cubeShape";
  ri_sourceDagPath_isValid := true;
  ri_shadingComponent := 0
|}.

(** A batch that brings the render item 7 with a changed effect. *)
Definition ex_scene_add : MViewportScene :=
  {| mRemovals := [0%Z]; mItems := [(ex_item 7, 2%N)] |}.

(** A batch that removes the render item 7 and brings, under the same
    derived path, the render item 8. *)
Definition ex_scene_replace : MViewportScene :=
  {| mRemovals := [0%Z; 7%Z]; mItems := [(ex_item 8, 3%N)] |}.

(** A delegate as [ex_empty], with a given light queue. *)
Definition ex_queued_light : @MayaHydraSceneDelegate ExWorld :=
  set_lightsToAdd [(1, ex_light)] (ex_empty ex_world0).

(** A second adapter with the path of [ex_ria], under the fast key 8. *)
Definition ex_ria8 : MayaHydraRenderItemAdapter := {|
  ria_GetID := ria_GetID ex_ria;
  ria_GetFastID := 8;
  ria_GetPrimitive := kTriangles;
  ria_GetMaterial := "/Materials/sg"
|}.

(** One identity queued for rebuild that no table knows. *)
Definition ex_stale_rebuild : @MayaHydraSceneDelegate ExWorld :=
  set_adaptersToRebuild [("/Rprims|cubeShape", 4%N)] (ex_empty ex_world0).

(** The delegate after a batch, in the scene where nothing plays; an
    assertion failure leaves the delegate as it was. *)
Definition ex_after (scene : MViewportScene) (s : @MayaHydraSceneDelegate ExWorld)
    : bool * @MayaHydraSceneDelegate ExWorld :=
  default (false, s)
    (HandleCompleteViewportScene (ex_host false true) ex_viewport scene false s).





(** * Properties *)

Section DelegateFacts.

Context {World MMatrix : Type} (host : @Host World MMatrix).

Implicit Types (s : @MayaHydraSceneDelegate World) (id : SdfPath) (obj : MObject).

(** ** Footprints of the operations *)

Lemma modifies_refl fs s : modifies fs s s.
Proof. intros f _. by destruct f. Qed.

Lemma modifies_trans fs s1 s2 s3 :
  modifies fs s1 s2 → modifies fs s2 s3 → modifies fs s1 s3.
Proof.
  intros H12 H23 f Hf. specialize (H12 f Hf). specialize (H23 f Hf).
  destruct f; simpl in *; congruence.
Qed.

Lemma modifies_weaken fs fs' s s' : fs ⊆ fs' → modifies fs s s' → modifies fs' s s'.
Proof. intros Hsub H f Hf. apply H. intros Hin. apply Hf, Hsub, Hin. Qed.

Lemma modifies_step fs1 fs2 fs s1 s2 s3 :
  modifies fs1 s1 s2 → modifies fs2 s2 s3 → fs1 ⊆ fs → fs2 ⊆ fs → modifies fs s1 s3.
Proof.
  intros H12 H23 H1 H2.
  apply (modifies_trans fs s1 s2 s3); [by apply (modifies_weaken fs1)|by apply (modifies_weaken fs2)].
Qed.

Lemma modifies_foldl {X} fs (g : MayaHydraSceneDelegate → X → MayaHydraSceneDelegate)
    (l : list X) :
  (∀ s x, modifies fs s (g s x)) → ∀ s, modifies fs s (foldl g s l).
Proof.
  intros Hg. induction l as [|x l IH]; intros s; simpl; [apply modifies_refl|].
  eapply modifies_trans; [apply Hg|apply IH].
Qed.

Lemma modifies_map_fold {A} fs (g : SdfPath → A → MayaHydraSceneDelegate → MayaHydraSceneDelegate)
    (m : gmap string A) :
  (∀ s k x, modifies fs s (g k x s)) → ∀ s, modifies fs s (map_fold g s m).
Proof.
  intros Hg s. rewrite map_fold_foldr.
  induction (map_to_list m) as [|[k x] l IH]; simpl; [apply modifies_refl|].
  eapply modifies_trans; [apply IH|apply Hg].
Qed.

Ltac field_in :=
  solve [repeat first [apply list_elem_of_here | apply list_elem_of_further]].

Ltac field_sub :=
  let x := fresh "x" in
  let Hx := fresh "Hx" in
  intros x Hx;
  repeat (apply elem_of_cons in Hx as [->|Hx]; [field_in|]);
  by apply elem_of_nil in Hx.

Ltac solve_modifies :=
  let f := fresh "f" in
  let Hf := fresh "Hf" in
  intros f Hf; destruct f; simpl; try done; exfalso; apply Hf; field_in.

Ltac field_notin :=
  let Hx := fresh "Hx" in
  intros Hx;
  repeat (apply elem_of_cons in Hx as [Hx|Hx]; [discriminate|]);
  by apply elem_of_nil in Hx.

Ltac use_unchanged H F :=
  let Hu := fresh "Hu" in
  assert (Hu := H F ltac:(field_notin)); simpl in Hu.

Lemma modifies_call fs m id c s : FWorld ∈ fs → modifies fs s (call host m id c s).
Proof. intros Hin f Hf. destruct f; simpl; try done. Qed.

Lemma modifies_RemoveCallbacks_RemovePrim m id s :
  modifies [FWorld] s (RemoveCallbacks_RemovePrim host m id s).
Proof. unfold RemoveCallbacks_RemovePrim. solve_modifies. Qed.

Lemma modifies__FindAdapter fs id f ms s :
  (∀ m id s, modifies fs s (f m id s)) → modifies fs s (_FindAdapter id f ms s).2.
Proof.
  intros Hf. induction ms as [|m0 ms IH]; simpl; [apply modifies_refl|].
  destruct (TfMapContains m0 id s); simpl; [apply Hf|apply IH].
Qed.

Lemma modifies_for_each fs m0 f s :
  (∀ id s, modifies fs s (f id s)) → modifies fs s (for_each m0 f s).
Proof.
  intros Hf. destruct m0; simpl; apply modifies_map_fold; intros; apply Hf.
Qed.

Lemma modifies__MapAdapter fs f ms s :
  (∀ m id s, modifies fs s (f m id s)) → modifies fs s (_MapAdapter f ms s).
Proof.
  intros Hf. revert s. induction ms as [|m0 ms IH]; intros s; simpl; [apply modifies_refl|].
  eapply modifies_trans; [|apply IH]. apply modifies_for_each. intros. apply Hf.
Qed.

Lemma modifies_RecreateAdapterOnIdle id obj s :
  modifies [FRecreate] s (RecreateAdapterOnIdle id obj s).
Proof. unfold RecreateAdapterOnIdle. case_match; solve_modifies. Qed.

Lemma modifies_RebuildAdapterOnIdle id flags s :
  modifies [FRebuild] s (RebuildAdapterOnIdle id flags s).
Proof. unfold RebuildAdapterOnIdle. case_match; solve_modifies. Qed.

Lemma modifies_OnDagNodeAdded obj s :
  modifies [FLightsToAdd; FAddedNodes] s (OnDagNodeAdded host obj s).
Proof. unfold OnDagNodeAdded. repeat case_match; solve_modifies. Qed.

Lemma modifies_CreateLightAdapter dag s :
  modifies [FLights; FWorld] s (CreateLightAdapter host dag s).2.
Proof.
  unfold CreateLightAdapter, _CreateAdapter, call. repeat case_match; solve_modifies.
Qed.

Lemma modifies_CreateCameraAdapter dag s :
  modifies [FCameras; FWorld] s (CreateCameraAdapter host dag s).2.
Proof.
  unfold CreateCameraAdapter, _CreateAdapter, call. repeat case_match; solve_modifies.
Qed.

Lemma modifies_CreateShapeAdapter dag s :
  modifies [FShapes; FWorld] s (CreateShapeAdapter host dag s).2.
Proof.
  unfold CreateShapeAdapter, _CreateAdapter, call. repeat case_match; solve_modifies.
Qed.

Lemma modifies__CreateMaterial id obj s :
  modifies [FMaterials; FWorld] s (_CreateMaterial host id obj s).2.
Proof.
  unfold _CreateMaterial, call. repeat case_match; simplify_eq; solve_modifies.
Qed.

Lemma modifies_InsertDag dag s :
  modifies [FLights; FCameras; FShapes; FMaterials; FWorld] s (InsertDag host dag s).
Proof.
  unfold InsertDag.
  destruct (dag_hasFn_kTransform host dag); [apply modifies_refl|].
  destruct (isIntermediateObject host dag); [apply modifies_refl|].
  destruct (IsUfeItemFromMayaUsd host dag); [apply modifies_refl|].
  assert (∃ light s1,
            (if GetLightsEnabled host then CreateLightAdapter host dag s else (None, s))
            = (light, s1) ∧ modifies [FLights; FWorld] s s1) as (light & s1 & -> & H1).
  { destruct (GetLightsEnabled host).
    - pose proof (modifies_CreateLightAdapter dag s) as H.
      destruct (CreateLightAdapter host dag s) as [l s1]. eauto.
    - eexists _, _. split; [done|apply modifies_refl]. }
  destruct (bool_decide (is_Some light)).
  { eapply modifies_weaken; [|done]. field_sub. }
  pose proof (modifies_CreateCameraAdapter dag s1) as H2.
  destruct (CreateCameraAdapter host dag s1) as [camera s2]. simpl in H2.
  assert (modifies [FLights; FCameras; FShapes; FMaterials; FWorld] s s2) as H12.
  { eapply modifies_step; [done|done|field_sub|field_sub]. }
  destruct (bool_decide (is_Some camera)); [done|].
  destruct (dag_isInstanced host dag && bool_decide (0 < dag_instanceNumber host dag));
    [done|].
  pose proof (modifies_CreateShapeAdapter dag s2) as H3.
  destruct (CreateShapeAdapter host dag s2) as [adapter s3]. simpl in H3.
  assert (modifies [FLights; FCameras; FShapes; FMaterials; FWorld] s s3) as H13.
  { eapply modifies_step; [done|done|field_sub|field_sub]. }
  destruct adapter as [adapter|]; [|done].
  case_decide; [done|]. case_match; [done|].
  eapply modifies_step; [done|apply modifies__CreateMaterial|field_sub|field_sub].
Qed.

Lemma modifies_AddNewInstance dag s :
  modifies [FRecreate; FRebuild; FWorld] s (AddNewInstance host dag s).
Proof.
  unfold AddNewInstance. repeat case_match; try apply modifies_refl.
  - eapply modifies_weaken; [|apply modifies_RecreateAdapterOnIdle]. field_sub.
  - eapply modifies_step;
      [apply modifies_RebuildAdapterOnIdle|apply (modifies_call [FWorld])
      |field_sub|field_sub].
    field_in.
Qed.

Lemma modifies_MarkMaterialUsersDirty id s :
  modifies [FWorld] s (MarkMaterialUsersDirty host id s).
Proof.
  unfold MarkMaterialUsersDirty. apply modifies_foldl.
  intros s0 x. repeat case_match; solve_modifies.
Qed.

Lemma modifies_RecreateAdapter id obj s :
  modifies [FLights; FShapes; FCameras; FMaterials; FWorld; FLightsToAdd; FAddedNodes]
           s (RecreateAdapter host id obj s).
Proof.
  unfold RecreateAdapter. cbn [_RemoveAdapter].
  destruct (TfMapContains Lights id s).
  { case_match.
    - eapply modifies_step with (fs1 := [FLights; FWorld]);
        [|apply modifies_OnDagNodeAdded|field_sub|field_sub].
      unfold RemoveCallbacks_RemovePrim, call. solve_modifies.
    - unfold RemoveCallbacks_RemovePrim, call. solve_modifies. }
  destruct (useMeshAdapter host).
  - destruct (TfMapContains Shapes id s).
    + assert (modifies [FShapes; FWorld] s
                (erase Shapes id (RemoveCallbacks_RemovePrim host Shapes id s))) as H1.
      { unfold RemoveCallbacks_RemovePrim, call. solve_modifies. }
      repeat case_match.
      * eapply modifies_step; [done|apply modifies_InsertDag|field_sub|field_sub].
      * eapply modifies_weaken; [|done]. field_sub.
      * eapply modifies_weaken; [|done]. field_sub.
    + destruct (TfMapContains Materials id s); [|apply modifies_refl].
      assert (modifies [FMaterials; FWorld] s
                (erase Materials id (RemoveCallbacks_RemovePrim host Materials id s))) as H1.
      { unfold RemoveCallbacks_RemovePrim, call. solve_modifies. }
      case_match.
      * eapply modifies_step with (fs1 := [FMaterials; FWorld]);
          [|apply modifies__CreateMaterial|field_sub|field_sub].
        eapply modifies_step with (fs := [FMaterials; FWorld]);
          [done|apply modifies_MarkMaterialUsersDirty|field_sub|field_sub].
      * eapply modifies_step;
          [done|apply modifies_MarkMaterialUsersDirty|field_sub|field_sub].
  - destruct (TfMapContains Materials id s); [|apply modifies_refl].
    assert (modifies [FMaterials; FWorld] s
              (erase Materials id (RemoveCallbacks_RemovePrim host Materials id s))) as H1.
    { unfold RemoveCallbacks_RemovePrim, call. solve_modifies. }
    case_match.
    * eapply modifies_step with (fs1 := [FMaterials; FWorld]);
        [|apply modifies__CreateMaterial|field_sub|field_sub].
      eapply modifies_step with (fs := [FMaterials; FWorld]);
        [done|apply modifies_MarkMaterialUsersDirty|field_sub|field_sub].
    * eapply modifies_step;
        [done|apply modifies_MarkMaterialUsersDirty|field_sub|field_sub].
Qed.

(** *** Footprints of the blocks of [PreFrame] *)

Lemma leave_andThen (x : @Flow World) k :
  leave (andThen x k) = match x with Continue s => leave (k s) | Return s => s end.
Proof. by destruct x. Qed.

Lemma modifies_andThen fs s (x : @Flow World) k :
  modifies fs s (leave x) → (∀ s', modifies fs s' (leave (k s'))) →
  modifies fs s (leave (andThen x k)).
Proof.
  intros Hx Hk. rewrite leave_andThen. destruct x as [s1|s1]; simpl in *; [|done].
  eapply modifies_trans; [done|apply Hk].
Qed.

Lemma modifies_PreFrame_displayStyle context s :
  modifies [FUseDefaultMaterial; FXRay; FMaterials; FWorld] s
           (PreFrame_displayStyle host context s).
Proof.
  unfold PreFrame_displayStyle.
  set (s1 := if decide (getDisplayStyle_kDefaultMaterial context ≠ _useDefaultMaterial s)
             then _ else s).
  assert (modifies [FUseDefaultMaterial; FXRay; FMaterials; FWorld] s s1) as H1.
  { subst s1. case_decide; [|apply modifies_refl].
    destruct (useMeshAdapter host).
    - eapply modifies_trans; [|apply modifies_for_each].
      + solve_modifies.
      + intros. apply modifies_call. field_in.
    - solve_modifies. }
  clearbody s1. case_decide; [|done].
  eapply modifies_trans; [done|]. eapply modifies_trans; [|apply modifies_for_each].
  - solve_modifies.
  - intros id0 s0. unfold call. solve_modifies.
Qed.

Lemma modifies_RebuildMaterialUsers id s :
  modifies [FRebuild] s (RebuildMaterialUsers host id s).
Proof.
  unfold RebuildMaterialUsers. apply modifies_foldl.
  intros s0 x. repeat case_match; try apply modifies_refl.
  apply modifies_RebuildAdapterOnIdle.
Qed.

Lemma modifies_PreFrame_materialTag id s :
  modifies [FMaterials; FRebuild] s (PreFrame_materialTag host id s).
Proof.
  unfold PreFrame_materialTag. destruct (_materialAdapters s !! id); [|apply modifies_refl].
  destruct (UpdateMaterialTag host _) as [a changed].
  destruct changed; [|solve_modifies].
  apply (modifies_step [FMaterials] [FRebuild] _ s
           (set_materialAdapters (<[id:=a]> (_materialAdapters s)) s));
    [solve_modifies|apply modifies_RebuildMaterialUsers|field_sub|field_sub].
Qed.

Lemma modifies_PreFrame_materialTags s :
  modifies [FMaterials; FRebuild; FMaterialTags] s (PreFrame_materialTags host s).
Proof.
  unfold PreFrame_materialTags.
  destruct (_materialTagsChanged s) as [|id0 l]; [apply modifies_refl|].
  set (s1 := if IsHdSt host then _ else s).
  apply (modifies_step [FMaterials; FRebuild] [FMaterialTags] _ s s1);
    [|solve_modifies|field_sub|field_sub].
  subst s1. destruct (IsHdSt host); [|apply modifies_refl].
  apply modifies_foldl. intros. apply modifies_PreFrame_materialTag.
Qed.

Lemma modifies_PreFrame_lightsToAdd_loop q s :
  modifies [FLights; FWorld] s (leave (PreFrame_lightsToAdd_loop host q s)).
Proof.
  revert s. induction q as [|lightToAdd q IH]; intros s; simpl; [apply modifies_refl|].
  destruct (getAPathTo host lightToAdd.1); [|apply modifies_refl].
  eapply modifies_trans; [apply modifies_CreateLightAdapter|apply IH].
Qed.

Lemma modifies_PreFrame_lightsToAdd s :
  modifies [FLights; FWorld; FLightsToAdd] s (leave (PreFrame_lightsToAdd host s)).
Proof.
  unfold PreFrame_lightsToAdd. destruct (_lightsToAdd s) as [|x q]; [apply modifies_refl|].
  apply modifies_andThen.
  - eapply modifies_weaken; [|apply modifies_PreFrame_lightsToAdd_loop]. field_sub.
  - intros s'. simpl. solve_modifies.
Qed.

Lemma modifies_PreFrame_addedNode_children dag s :
  modifies [FRecreate; FRebuild; FWorld] s (PreFrame_addedNode_children host dag s).
Proof.
  unfold PreFrame_addedNode_children. apply modifies_foldl.
  intros s0 x. case_match; [apply modifies_AddNewInstance|apply modifies_refl].
Qed.

Lemma modifies_PreFrame_addedNodes_loop q s :
  modifies [FLights; FCameras; FShapes; FMaterials; FWorld; FRecreate; FRebuild] s
           (leave (PreFrame_addedNodes_loop host q s)).
Proof.
  revert s. induction q as [|obj q IH]; intros s; simpl; [apply modifies_refl|].
  destruct (isNull obj); [apply IH|].
  destruct (getAPathTo host obj) as [dag|]; [|apply modifies_refl].
  eapply modifies_trans; [|apply IH].
  destruct (dag_hasFn_kTransform host dag).
  - eapply modifies_weaken; [|apply modifies_PreFrame_addedNode_children]. field_sub.
  - eapply modifies_weaken; [|apply modifies_InsertDag]. field_sub.
Qed.

Lemma modifies_PreFrame_addedNodes s :
  modifies [FLights; FCameras; FShapes; FMaterials; FWorld; FRecreate; FRebuild; FAddedNodes]
           s (leave (PreFrame_addedNodes host s)).
Proof.
  unfold PreFrame_addedNodes. destruct (useMeshAdapter host); [|apply modifies_refl].
  destruct (_addedNodes s) as [|x q]; [apply modifies_refl|].
  apply modifies_andThen.
  - eapply modifies_weaken; [|apply modifies_PreFrame_addedNodes_loop]. field_sub.
  - intros s'. simpl. solve_modifies.
Qed.

Lemma modifies_PreFrame_adaptersToRecreate s :
  modifies [FLights; FShapes; FCameras; FMaterials; FWorld; FLightsToAdd; FAddedNodes;
            FRebuild; FRecreate] s (PreFrame_adaptersToRecreate host s).
Proof.
  unfold PreFrame_adaptersToRecreate.
  destruct (_adaptersToRecreate s) as [|x q]; [apply modifies_refl|].
  set (s1 := foldl _ s (x :: q)).
  apply (modifies_trans _ s s1); [|solve_modifies].
  subst s1. apply modifies_foldl. intros s0 it.
  apply (modifies_step
           [FLights; FShapes; FCameras; FMaterials; FWorld; FLightsToAdd; FAddedNodes]
           [FRebuild] _ s0 (RecreateAdapter host it.1 it.2 s0));
    [apply modifies_RecreateAdapter|solve_modifies|field_sub|field_sub].
Qed.

Lemma modifies_ApplyRebuild flags m id s :
  modifies [FWorld] s (ApplyRebuild host flags m id s).
Proof. unfold ApplyRebuild, call. repeat case_decide; solve_modifies. Qed.

Lemma modifies_PreFrame_adaptersToRebuild s :
  modifies [FWorld; FRebuild] s (PreFrame_adaptersToRebuild host s).
Proof.
  unfold PreFrame_adaptersToRebuild.
  destruct (_adaptersToRebuild s) as [|x q]; [apply modifies_refl|].
  set (s1 := foldl _ s (x :: q)).
  apply (modifies_trans _ s s1); [|solve_modifies].
  subst s1. apply modifies_foldl.
  intros s0 it. apply modifies__FindAdapter. intros.
  eapply modifies_weaken; [|apply modifies_ApplyRebuild]. field_sub.
Qed.

Lemma modifies_SetLightingOn on m id s :
  modifies [FLights; FWorld] s (SetLightingOn host on m id s).
Proof. unfold SetLightingOn, call. solve_modifies. Qed.

Lemma modifies_PreFrame_lightParameter context st i :
  modifies [FWorld] st.2 (PreFrame_lightParameter host context st i).2.
Proof.
  unfold PreFrame_lightParameter. repeat case_match; cbn [snd]; try apply modifies_refl.
  apply modifies__FindAdapter. intros. apply modifies_call. field_in.
Qed.

Lemma modifies_PreFrame_lightParameters context l st :
  modifies [FWorld] st.2 (foldl (PreFrame_lightParameter host context) st l).2.
Proof.
  revert st. induction l as [|i l IH]; intros st; simpl; [apply modifies_refl|].
  eapply modifies_trans; [apply modifies_PreFrame_lightParameter|apply IH].
Qed.

Lemma modifies_PreFrame_sweep activeLightPaths s :
  modifies [FLights; FWorld] s (PreFrame_sweep host activeLightPaths s).2.
Proof.
  unfold PreFrame_sweep. rewrite map_fold_foldr.
  induction (map_to_list (_lightAdapters s)) as [|[id a] l IH]; simpl; [apply modifies_refl|].
  eapply modifies_trans; [apply IH|].
  case_match; simpl; apply modifies_SetLightingOn.
Qed.

Lemma modifies_PreFrame_lights context s :
  modifies [FLights; FWorld] s (PreFrame_lights host context s).
Proof.
  unfold PreFrame_lights. case_match.
  - apply modifies__MapAdapter. intros. apply modifies_SetLightingOn.
  - eapply modifies_trans; [|apply modifies_map_fold].
    + eapply modifies_trans; [|apply modifies_PreFrame_sweep].
      eapply modifies_weaken; [|apply (modifies_PreFrame_lightParameters _ _ (_, s))].
      field_sub.
    + intros. apply modifies_CreateLightAdapter.
Qed.

Lemma modifies_PreFrame_after_materialTags context s :
  modifies [FLights; FCameras; FShapes; FMaterials; FWorld; FLightsToAdd; FAddedNodes;
            FRecreate; FRebuild] s (leave (PreFrame_after_materialTags host context s)).
Proof.
  unfold PreFrame_after_materialTags. repeat apply modifies_andThen.
  - eapply modifies_weaken; [|apply modifies_PreFrame_lightsToAdd]. field_sub.
  - intros s'. eapply modifies_weaken; [|apply modifies_PreFrame_addedNodes]. field_sub.
  - intros s'. simpl.
    eapply modifies_step;
      [apply modifies_PreFrame_adaptersToRecreate|apply modifies_PreFrame_adaptersToRebuild
      |field_sub|field_sub].
  - intros s'. destruct (IsHdSt host); simpl; [|apply modifies_refl].
    eapply modifies_weaken; [|apply modifies_PreFrame_lights]. field_sub.
Qed.

(** ** Render-item tables *)

Lemma renderItems_wf_in_sync s : renderItems_wf s → renderItems_in_sync s.
Proof.
  intros [Hf Hp] ria. split; intros H.
  - by destruct (Hf _ _ H).
  - by destruct (Hp _ _ H).
Qed.

Lemma map_insert_new_fresh `{Countable K} {A} (k : K) (v : A) (m : gmap K A) :
  m !! k = None → map_insert_new k v m = <[k:=v]> m.
Proof. intros Hk. unfold map_insert_new. by rewrite Hk. Qed.

Lemma map_insert_new_lookup_old `{Countable K} {A} (k k' : K) (v v' : A) (m : gmap K A) :
  m !! k' = Some v' → map_insert_new k v m !! k' = Some v'.
Proof.
  intros Hk'. unfold map_insert_new. destruct (m !! k) eqn:Hk; [done|].
  rewrite lookup_insert_ne; [done|]. intros ->. congruence.
Qed.

Lemma map_insert_new_lookup `{Countable K} {A} (k k' : K) (v : A) (m : gmap K A) :
  map_insert_new k v m !! k'
  = match m !! k' with
    | Some x => Some x
    | None => if decide (k = k') then Some v else None
    end.
Proof.
  unfold map_insert_new. destruct (decide (k = k')) as [->|Hne].
  - destruct (m !! k') eqn:Hk; [done|]. by rewrite lookup_insert_eq.
  - destruct (m !! k) eqn:Hk.
    + by destruct (m !! k').
    + rewrite lookup_insert_ne; [|done]. by destruct (m !! k').
Qed.

Lemma _AddRenderItem_wf ria s :
  renderItems_wf s →
  _renderItemsAdaptersFast s !! ria_GetFastID ria = None →
  _renderItemsAdapters s !! ria_GetID ria = None →
  renderItems_wf (_AddRenderItem ria s).
Proof.
  intros [Hf Hp] Hnf Hnp. unfold _AddRenderItem, renderItems_wf. simpl.
  rewrite !map_insert_new_fresh by done. split.
  - intros k r. rewrite lookup_insert. case_decide as Hk.
    + intros [= <-]. by rewrite lookup_insert_eq.
    + intros Hr. destruct (Hf _ _ Hr) as [? Hr']. split; [done|].
      rewrite lookup_insert_ne; [done|]. intros Heq. rewrite <- Heq in Hr'. congruence.
  - intros p r. rewrite lookup_insert. case_decide as Hk.
    + intros [= <-]. by rewrite lookup_insert_eq.
    + intros Hr. destruct (Hp _ _ Hr) as [? Hr']. split; [done|].
      rewrite lookup_insert_ne; [done|]. intros Heq. rewrite <- Heq in Hr'. congruence.
Qed.

Lemma _RemoveRenderItem_wf ria s :
  renderItems_wf s →
  _renderItemsAdaptersFast s !! ria_GetFastID ria = Some ria →
  renderItems_wf (_RemoveRenderItem ria s).
Proof.
  intros [Hf Hp] Hin. unfold _RemoveRenderItem, renderItems_wf. simpl.
  destruct (Hf _ _ Hin) as [_ Hin'].
  split.
  - intros k r. rewrite lookup_delete. case_decide; [done|]. intros Hr.
    destruct (Hf _ _ Hr) as [Hk Hr']. split; [done|].
    rewrite lookup_delete_ne; [done|]. intros Heq. rewrite <- Heq in Hr'.
    assert (ria = r) as -> by congruence. congruence.
  - intros p r. rewrite lookup_delete. case_decide; [done|]. intros Hr.
    destruct (Hp _ _ Hr) as [Hk Hr']. split; [done|].
    rewrite lookup_delete_ne; [done|]. intros Heq. rewrite <- Heq in Hr'.
    assert (ria = r) as -> by congruence. congruence.
Qed.

(** C1. [RemoveAdapter] applied to the path of a registered render item
    erases it from the path table only: its entry stays in the fast table,
    so the two tables are no longer updated together. *)
Theorem RemoveAdapter_leaves_fast_entry ria s :
  _renderItemsAdaptersFast s !! ria_GetFastID ria = Some ria →
  _renderItemsAdapters s !! ria_GetID ria = Some ria →
  _renderItemsAdapters (RemoveAdapter host (ria_GetID ria) s) !! ria_GetID ria = None
  ∧ _renderItemsAdaptersFast (RemoveAdapter host (ria_GetID ria) s) !! ria_GetFastID ria
    = Some ria
  ∧ ¬ renderItems_in_sync (RemoveAdapter host (ria_GetID ria) s).
Proof.
  intros Hfast Hpath.
  assert (RemoveAdapter host (ria_GetID ria) s
          = erase RenderItems (ria_GetID ria)
              (RemoveCallbacks_RemovePrim host RenderItems (ria_GetID ria) s)) as ->.
  { unfold RemoveAdapter. simpl. rewrite Hpath.
    rewrite bool_decide_eq_true_2 by eauto. done. }
  simpl. rewrite lookup_delete_eq. repeat split; [done|].
  intros Hsync. specialize (Hsync ria). simpl in Hsync.
  rewrite lookup_delete_eq in Hsync. apply Hsync in Hfast. done.
Qed.

(** ** Pending-work queues *)

Lemma RebuildAdapterOnIdle_find_None id flags q :
  RebuildAdapterOnIdle_find id flags q = None ↔ pending_rebuilds id q = [].
Proof.
  unfold pending_rebuilds. induction q as [|it q IH]; simpl; [done|].
  destruct (decide (it.1 = id)) as [Heq|Hne].
  - rewrite filter_cons_True by done. split; discriminate.
  - rewrite filter_cons_False by done. rewrite <- IH.
    destruct (RebuildAdapterOnIdle_find id flags q); simpl; split; done.
Qed.

Lemma RebuildAdapterOnIdle_find_Some id flags q q' :
  RebuildAdapterOnIdle_find id flags q = Some q' →
  ∃ l1 old l2, q = l1 ++ (id, old) :: l2 ∧ q' = l1 ++ (id, N.lor old flags) :: l2
               ∧ pending_rebuilds id l1 = [].
Proof.
  revert q'. induction q as [|it q IH]; intros q'; simpl; [done|].
  destruct (decide (it.1 = id)) as [Heq|Hne].
  - intros [= <-]. exists [], it.2, q. destruct it as [k v]. simpl in *. by subst.
  - destruct (RebuildAdapterOnIdle_find id flags q) as [q0|] eqn:Hq; simpl; [|done].
    intros [= <-]. destruct (IH _ eq_refl) as (l1 & old & l2 & -> & -> & Hl1).
    exists (it :: l1), old, l2. repeat split.
    unfold pending_rebuilds. by rewrite filter_cons_False.
Qed.

Lemma pending_rebuilds_app id q1 q2 :
  pending_rebuilds id (q1 ++ q2) = pending_rebuilds id q1 ++ pending_rebuilds id q2.
Proof. apply filter_app. Qed.

Lemma pending_rebuilds_cons_eq id flags q :
  pending_rebuilds id ((id, flags) :: q) = (id, flags) :: pending_rebuilds id q.
Proof. unfold pending_rebuilds. by rewrite filter_cons_True. Qed.

Lemma RebuildAdapterOnIdle_fresh id flags s :
  pending_rebuilds id (_adaptersToRebuild s) = [] →
  _adaptersToRebuild (RebuildAdapterOnIdle id flags s) = _adaptersToRebuild s ++ [(id, flags)].
Proof.
  intros Hp. unfold RebuildAdapterOnIdle.
  apply (RebuildAdapterOnIdle_find_None id flags) in Hp. by rewrite Hp.
Qed.

Lemma RebuildAdapterOnIdle_pending_length id flags s :
  length (pending_rebuilds id (_adaptersToRebuild (RebuildAdapterOnIdle id flags s)))
  = Nat.max 1 (length (pending_rebuilds id (_adaptersToRebuild s))).
Proof.
  unfold RebuildAdapterOnIdle.
  destruct (RebuildAdapterOnIdle_find id flags (_adaptersToRebuild s)) as [q'|] eqn:Hf.
  - destruct (RebuildAdapterOnIdle_find_Some _ _ _ _ Hf) as (l1 & old & l2 & Hq & -> & Hl1).
    rewrite Hq. simpl. rewrite !pending_rebuilds_app, !pending_rebuilds_cons_eq, Hl1.
    simpl. done.
  - apply RebuildAdapterOnIdle_find_None in Hf. simpl.
    rewrite pending_rebuilds_app, pending_rebuilds_cons_eq, Hf. done.
Qed.

Lemma N_land_lor_absorb (a b : N) : N.land (N.lor a b) b = b.
Proof.
  apply N.bits_inj. intros n. rewrite N.land_spec, N.lor_spec.
  destruct (N.testbit a n), (N.testbit b n); done.
Qed.

Lemma N_land_lor_keep (a b bits : N) : N.land a bits = bits → N.land (N.lor a b) bits = bits.
Proof.
  intros Ha. apply N.bits_inj. intros n.
  apply (f_equal (λ x, N.testbit x n)) in Ha. revert Ha.
  rewrite !N.land_spec, N.lor_spec.
  destruct (N.testbit a n), (N.testbit b n), (N.testbit bits n); done.
Qed.

Lemma RebuildAdapterOnIdle_scheduled id flags s :
  rebuild_scheduled id flags (_adaptersToRebuild (RebuildAdapterOnIdle id flags s)).
Proof.
  unfold RebuildAdapterOnIdle, rebuild_scheduled.
  destruct (RebuildAdapterOnIdle_find id flags (_adaptersToRebuild s)) as [q'|] eqn:Hf; simpl.
  - destruct (RebuildAdapterOnIdle_find_Some _ _ _ _ Hf) as (l1 & old & l2 & _ & -> & _).
    exists (N.lor old flags). split; [|apply N_land_lor_absorb].
    apply elem_of_app. right. apply elem_of_cons. by left.
  - exists flags. split; [|apply N.land_diag].
    apply elem_of_app. right. apply elem_of_cons. by left.
Qed.

Lemma RebuildAdapterOnIdle_scheduled_mono id' bits id flags s :
  rebuild_scheduled id' bits (_adaptersToRebuild s) →
  rebuild_scheduled id' bits (_adaptersToRebuild (RebuildAdapterOnIdle id flags s)).
Proof.
  intros (f0 & Hin & Hbits). unfold RebuildAdapterOnIdle, rebuild_scheduled.
  destruct (RebuildAdapterOnIdle_find id flags (_adaptersToRebuild s)) as [q'|] eqn:Hf; simpl.
  - destruct (RebuildAdapterOnIdle_find_Some _ _ _ _ Hf) as (l1 & old & l2 & Hq & -> & _).
    rewrite Hq in Hin. apply elem_of_app in Hin as [Hin|Hin].
    + exists f0. split; [|done]. apply elem_of_app. by left.
    + apply elem_of_cons in Hin as [[= -> ->]|Hin].
      * exists (N.lor old flags). split; [|by apply N_land_lor_keep].
        apply elem_of_app. right. apply elem_of_cons. by left.
      * exists f0. split; [|done]. apply elem_of_app. right. apply elem_of_cons. by right.
  - exists f0. split; [|done]. apply elem_of_app. by left.
Qed.

(** C4. Enqueuing a rebuild of [id] with flags [A] and again with flags
    [B], when none was pending, leaves exactly one queued rebuild of [id],
    with flags [A|B]; and whatever the queue holds, a call never adds a
    second entry for an identity that already has one. *)
Theorem RebuildAdapterOnIdle_twice_coalesces id (A B : N) s :
  (pending_rebuilds id (_adaptersToRebuild s) = [] →
   pending_rebuilds id
     (_adaptersToRebuild (RebuildAdapterOnIdle id B (RebuildAdapterOnIdle id A s)))
   = [(id, N.lor A B)])
  ∧ length (pending_rebuilds id (_adaptersToRebuild (RebuildAdapterOnIdle id A s)))
    = Nat.max 1 (length (pending_rebuilds id (_adaptersToRebuild s))).
Proof.
  split; [|apply RebuildAdapterOnIdle_pending_length].
  intros Hnone.
  pose proof (RebuildAdapterOnIdle_fresh id A s Hnone) as H1.
  unfold RebuildAdapterOnIdle at 1. rewrite H1.
  destruct (RebuildAdapterOnIdle_find id B (_adaptersToRebuild s ++ [(id, A)]))
    as [q'|] eqn:Hf.
  - destruct (RebuildAdapterOnIdle_find_Some _ _ _ _ Hf) as (l1 & old & l2 & Hq & -> & Hl1).
    simpl.
    assert (l1 = _adaptersToRebuild s ∧ old = A ∧ l2 = []) as (-> & -> & ->).
    { destruct l2 as [|x l2 _] using rev_ind.
      - apply (app_inj_tail _ l1 _ (id, old)) in Hq as [-> [= ->]]. done.
      - rewrite app_comm_cons, app_assoc in Hq.
        apply app_inj_tail in Hq as [Hq _].
        rewrite Hq, pending_rebuilds_app, pending_rebuilds_cons_eq in Hnone.
        by destruct (pending_rebuilds id l1). }
    by rewrite pending_rebuilds_app, pending_rebuilds_cons_eq, Hl1.
  - apply RebuildAdapterOnIdle_find_None in Hf.
    rewrite pending_rebuilds_app, pending_rebuilds_cons_eq in Hf.
    by destruct (pending_rebuilds id (_adaptersToRebuild s)).
Qed.

(** ** Node lifecycle handlers *)

Lemma filter_all {A} (P : A → Prop) `{∀ x, Decision (P x)} (l : list A) :
  Forall P l → filter P l = l.
Proof.
  induction 1 as [|x l Hx _ IH]; [done|]. rewrite filter_cons_True by done. by rewrite IH.
Qed.

Lemma filter_same_length {A} (P : A → Prop) `{∀ x, Decision (P x)} (l : list A) :
  length (filter P l) = length l → Forall P l.
Proof.
  induction l as [|x l IH]; [done|]. destruct (decide (P x)) as [Hx|Hx].
  - rewrite filter_cons_True by done. simpl. intros [= Hl]. constructor; auto.
  - rewrite filter_cons_False by done. simpl. intros Hl.
    pose proof (length_filter P l). lia.
Qed.

Lemma OnDagNodeAdded_queues_wf obj s : queues_wf host s → queues_wf host (OnDagNodeAdded host obj s).
Proof.
  intros (Hl & Ha & Hm). unfold OnDagNodeAdded.
  destruct (isNull obj); [done|].
  destruct (IsUfeItemFromMayaUsd_obj host obj); [done|].
  destruct (GetLightAdapterCreator_obj host obj) as [fn|] eqn:Hfn.
  - split; [|done]. simpl. apply Forall_app. split; [done|].
    constructor; [|done]. simpl. rewrite Hfn. eauto.
  - destruct (useMeshAdapter host) eqn:Hmesh; [|repeat split; auto].
    split; [done|]. split; [|intros; congruence]. simpl. apply Forall_app.
    split; [done|]. by constructor.
Qed.

Lemma OnDagNodeRemoved_queues_wf obj s : queues_wf host s → queues_wf host (OnDagNodeRemoved host obj s).
Proof.
  intros (Hl & Ha & Hm). unfold OnDagNodeRemoved.
  case_decide.
  - split; [|done]. simpl. apply Forall_forall. intros it Hit.
    apply list_elem_of_filter in Hit as [_ Hit]. by eapply Forall_forall in Hl.
  - destruct (useMeshAdapter host) eqn:Hmesh; [|repeat split; auto].
    split; [done|]. split; [|intros; congruence]. simpl. apply Forall_forall. intros o Ho.
    apply list_elem_of_filter in Ho as [_ Ho]. by eapply Forall_forall in Ha.
Qed.

Lemma OnDagNodeRemoved_not_queued obj s :
  queues_wf host s →
  (obj ∉ handles (_lightsToAdd (OnDagNodeRemoved host obj s)))
  ∧ (obj ∉ _addedNodes (OnDagNodeRemoved host obj s)).
Proof.
  intros (Hl & Ha & Hm). unfold OnDagNodeRemoved.
  set (kept := filter (λ item : MObject * LightCreator, item.1 ≠ obj) (_lightsToAdd s)).
  assert (obj ∉ handles kept) as Hkept.
  { subst kept. intros Hin. unfold handles in Hin. apply list_elem_of_fmap in Hin as (it & -> & Hit).
    apply list_elem_of_filter in Hit as [Hne _]. done. }
  case_decide as Hlen.
  - split; [done|]. simpl. intros Hin.
    assert (∃ it, it ∈ _lightsToAdd s ∧ it.1 = obj) as (it & Hit & Heq).
    { destruct (decide (Forall (λ item : MObject * LightCreator, item.1 ≠ obj)
                          (_lightsToAdd s))) as [Hall|Hex].
      - subst kept. rewrite filter_all in Hlen by done. done.
      - apply not_Forall_Exists in Hex; [|solve_decision].
        apply Exists_exists in Hex as (it & Hit & Hnn).
        exists it. split; [done|]. by destruct (decide (it.1 = obj)). }
    eapply Forall_forall in Hl; [|done]. eapply Forall_forall in Ha; [|done].
    simpl in *. rewrite Heq, Ha in Hl. by destruct Hl.
  - assert (obj ∉ handles (_lightsToAdd s)) as Hnl.
    { apply filter_same_length in Hlen.
      intros Hin. unfold handles in Hin. apply list_elem_of_fmap in Hin as (it & -> & Hit).
      by eapply Forall_forall in Hlen. }
    destruct (useMeshAdapter host) eqn:Hmesh; simpl.
    + split; [done|]. intros Hin. apply list_elem_of_filter in Hin as [Hne _]. done.
    + split; [done|]. rewrite Hm by done. apply not_elem_of_nil.
Qed.

Lemma set_lightsToAdd_twice v v' s :
  set_lightsToAdd v (set_lightsToAdd v' s) = set_lightsToAdd v s.
Proof. done. Qed.

Lemma set_lightsToAdd_same s : set_lightsToAdd (_lightsToAdd s) s = s.
Proof. by destruct s. Qed.

Lemma set_addedNodes_twice v v' s :
  set_addedNodes v (set_addedNodes v' s) = set_addedNodes v s.
Proof. done. Qed.

Lemma set_addedNodes_same s : set_addedNodes (_addedNodes s) s = s.
Proof. by destruct s. Qed.

Lemma OnDagNodeRemoved_idle obj s :
  obj ∉ handles (_lightsToAdd s) → obj ∉ _addedNodes s → OnDagNodeRemoved host obj s = s.
Proof.
  intros Hl Ha. unfold OnDagNodeRemoved.
  assert (filter (λ item : MObject * LightCreator, item.1 ≠ obj) (_lightsToAdd s)
          = _lightsToAdd s) as ->.
  { apply filter_all, Forall_forall. intros it Hit Heq. apply Hl.
    unfold handles. apply list_elem_of_fmap. eauto. }
  case_decide; [done|]. destruct (useMeshAdapter host); [|done].
  rewrite filter_all; [apply set_addedNodes_same|].
  apply Forall_forall. intros o Ho ->. done.
Qed.

Lemma OnDagNodeRemoved_OnDagNodeAdded obj s :
  obj ∉ handles (_lightsToAdd s) → obj ∉ _addedNodes s →
  OnDagNodeRemoved host obj (OnDagNodeAdded host obj s) = s.
Proof.
  intros Hl Ha. unfold OnDagNodeAdded.
  destruct (isNull obj); [by apply OnDagNodeRemoved_idle|].
  destruct (IsUfeItemFromMayaUsd_obj host obj); [by apply OnDagNodeRemoved_idle|].
  assert (filter (λ item : MObject * LightCreator, item.1 ≠ obj) (_lightsToAdd s)
          = _lightsToAdd s) as Hfl.
  { apply filter_all, Forall_forall. intros it Hit Heq. apply Hl.
    unfold handles. apply list_elem_of_fmap. eauto. }
  assert (filter (λ item : MObject, item ≠ obj) (_addedNodes s) = _addedNodes s) as Hfa.
  { apply filter_all, Forall_forall. intros o Ho ->. done. }
  destruct (GetLightAdapterCreator_obj host obj) as [fn|].
  - unfold OnDagNodeRemoved. simpl.
    rewrite filter_app, Hfl, filter_cons_False, filter_nil, app_nil_r by (simpl; tauto).
    rewrite length_app. simpl. case_decide; [|lia].
    rewrite set_lightsToAdd_twice. apply set_lightsToAdd_same.
  - destruct (useMeshAdapter host) eqn:Hmesh.
    + unfold OnDagNodeRemoved. simpl. rewrite Hfl, Hmesh. case_decide; [done|].
      rewrite filter_app, Hfa, filter_cons_False, filter_nil, app_nil_r by tauto.
      rewrite set_addedNodes_twice. apply set_addedNodes_same.
    + by apply OnDagNodeRemoved_idle.
Qed.

(** C10. The two node handlers change the pending-work queues only: the
    adapter tables and the world behind the render index stay as they are.
    After [OnDagNodeRemoved] the handle is queued in neither the light queue
    nor the node queue, and a node that is announced and then removed
    leaves the delegate as it was, so the next pass creates nothing for
    it. *)
Theorem OnDagNode_handlers_only_touch_queues obj s :
  queues_wf host s →
  same_adapters_and_world s (OnDagNodeAdded host obj s)
  ∧ same_adapters_and_world s (OnDagNodeRemoved host obj s)
  ∧ (obj ∉ handles (_lightsToAdd (OnDagNodeRemoved host obj s)))
  ∧ (obj ∉ _addedNodes (OnDagNodeRemoved host obj s))
  ∧ (obj ∉ handles (_lightsToAdd (OnDagNodeRemoved host obj (OnDagNodeAdded host obj s))))
  ∧ (obj ∉ _addedNodes (OnDagNodeRemoved host obj (OnDagNodeAdded host obj s)))
  ∧ (obj ∉ handles (_lightsToAdd s) → obj ∉ _addedNodes s →
     OnDagNodeRemoved host obj (OnDagNodeAdded host obj s) = s
     ∧ ∀ context,
         PreFrame host context (OnDagNodeRemoved host obj (OnDagNodeAdded host obj s))
         = PreFrame host context s).
Proof.
  intros Hwf.
  split.
  { unfold OnDagNodeAdded, same_adapters_and_world.
    repeat case_match; simpl; repeat split; done. }
  split.
  { unfold OnDagNodeRemoved, same_adapters_and_world.
    repeat case_match; simpl; repeat split; done. }
  destruct (OnDagNodeRemoved_not_queued obj s Hwf) as [H1 H2].
  destruct (OnDagNodeRemoved_not_queued obj _ (OnDagNodeAdded_queues_wf obj s Hwf))
    as [H3 H4].
  repeat (split; [done|]).
  intros Hl Ha. rewrite OnDagNodeRemoved_OnDagNodeAdded by done. done.
Qed.

(** ** Instancing *)

Lemma RecreateAdapterOnIdle_find_Some id obj q q' :
  RecreateAdapterOnIdle_find id obj q = Some q' → (id, obj) ∈ q'.
Proof.
  revert q'. induction q as [|it q IH]; intros q'; simpl; [done|].
  destruct (decide (it.1 = id)) as [Heq|Hne].
  - intros [= <-]. rewrite Heq. apply elem_of_cons. by left.
  - destruct (RecreateAdapterOnIdle_find id obj q) as [q0|]; simpl; [|done].
    intros [= <-]. apply elem_of_cons. right. by apply IH.
Qed.

Lemma RecreateAdapterOnIdle_queued id obj s :
  (id, obj) ∈ _adaptersToRecreate (RecreateAdapterOnIdle id obj s).
Proof.
  unfold RecreateAdapterOnIdle.
  destruct (RecreateAdapterOnIdle_find id obj (_adaptersToRecreate s)) as [q'|] eqn:Hf; simpl.
  - by eapply RecreateAdapterOnIdle_find_Some.
  - apply elem_of_app. right. apply elem_of_cons. by left.
Qed.

(** C9. [AddNewInstance] on a shape whose master adapter exists: with a
    single instance path, or an adapter not marked instanced, it queues the
    adapter for recreation and does nothing else; otherwise it queues a
    rebuild of the callbacks, marks the adapter dirty for instancer,
    instance index and primvars, and queues no recreation. *)
Theorem AddNewInstance_recreates_or_rebuilds (dag masterDag : MDagPath)
    (rest : list MDagPath) (masterAdapter : MayaHydraShapeAdapter) s :
  getAllPathsTo host (dag_node host dag) = masterDag :: rest →
  _shapeAdapters s !! GetPrimPath host masterDag false = Some masterAdapter →
  let id := GetPrimPath host masterDag false in
  let s' := AddNewInstance host dag s in
  (rest = [] ∨ sa_IsInstanced masterAdapter = false →
     s' = RecreateAdapterOnIdle id (dag_node host masterDag) s
     ∧ (id, dag_node host masterDag) ∈ _adaptersToRecreate s'
     ∧ _adaptersToRebuild s' = _adaptersToRebuild s
     ∧ same_adapters_and_world s s')
  ∧ (rest ≠ [] → sa_IsInstanced masterAdapter = true →
     _adaptersToRecreate s' = _adaptersToRecreate s
     ∧ _adaptersToRebuild s'
       = _adaptersToRebuild (RebuildAdapterOnIdle id (RebuildFlagCallbacks host) s)
     ∧ rebuild_scheduled id (RebuildFlagCallbacks host) (_adaptersToRebuild s')
     ∧ world s'
       = adapterCall host Shapes id
           (MarkDirty (N.lor (N.lor (DirtyInstancer host) (DirtyInstanceIndex host))
                             (DirtyPrimvar host)))
           (world s)
     ∧ _shapeAdapters s' = _shapeAdapters s).
Proof.
  intros Hdags Hmaster id s'. subst id s'. unfold AddNewInstance.
  rewrite Hdags, Hmaster. split.
  - intros Hone.
    assert (bool_decide (length (masterDag :: rest) = 1)
            || negb (sa_IsInstanced masterAdapter) = true) as ->.
    { destruct Hone as [->| ->]; [done|]. by rewrite orb_true_r. }
    split; [done|]. split; [apply RecreateAdapterOnIdle_queued|].
    unfold RecreateAdapterOnIdle, same_adapters_and_world.
    case_match; simpl; repeat split; done.
  - intros Hmany Hinst.
    assert (bool_decide (length (masterDag :: rest) = 1)
            || negb (sa_IsInstanced masterAdapter) = false) as ->.
    { rewrite Hinst. rewrite bool_decide_eq_false_2; [done|]. by destruct rest. }
    simpl. split.
    { unfold RebuildAdapterOnIdle. by case_match. }
    split; [done|]. split; [apply RebuildAdapterOnIdle_scheduled|].
    unfold RebuildAdapterOnIdle. by case_match.
Qed.

(** ** Material resolution *)

(** C6. [GetMaterialId] resolves in this order: the default-material
    override; for a render-item adapter, the fallback material for lines,
    line strips and an invalid material, and the bound material if it is
    registered; failing that, outside mesh-adapter mode the fallback
    material, and in mesh-adapter mode the material of the shape adapter:
    the fallback without a shape adapter or a bound material, the
    material's path if it is registered, and otherwise the outcome of
    creating its adapter on the spot, the path on success and the fallback
    on failure. *)
Theorem GetMaterialId_resolution_order id s :
  (_useDefaultMaterial s = true →
   GetMaterialId host id s = (_mayaDefaultMaterialPath, s))
  ∧ (_useDefaultMaterial s = false →
     (∀ ria, _renderItemsAdapters s !! id = Some ria →
        (ria_GetPrimitive ria = kLines ∨ ria_GetPrimitive ria = kLineStrip →
         GetMaterialId host id s = (_fallbackMaterial, s))
        ∧ (ria_GetPrimitive ria ≠ kLines → ria_GetPrimitive ria ≠ kLineStrip →
           (ria_GetMaterial ria = kInvalidMaterial host →
            GetMaterialId host id s = (_fallbackMaterial, s))
           ∧ (ria_GetMaterial ria ≠ kInvalidMaterial host →
              is_Some (_materialAdapters s !! ria_GetMaterial ria) →
              GetMaterialId host id s = (ria_GetMaterial ria, s))))
     ∧ (_renderItemsAdapters s !! id = None
        ∨ (∃ ria, _renderItemsAdapters s !! id = Some ria
                  ∧ ria_GetPrimitive ria ≠ kLines ∧ ria_GetPrimitive ria ≠ kLineStrip
                  ∧ ria_GetMaterial ria ≠ kInvalidMaterial host
                  ∧ _materialAdapters s !! ria_GetMaterial ria = None) →
        (useMeshAdapter host = false →
         GetMaterialId host id s = (_fallbackMaterial, s))
        ∧ (useMeshAdapter host = true →
           (_shapeAdapters s !! id = None →
            GetMaterialId host id s = (_fallbackMaterial, s))
           ∧ (∀ shape, _shapeAdapters s !! id = Some shape →
                (sa_GetMaterial shape = kNullObj →
                 GetMaterialId host id s = (_fallbackMaterial, s))
                ∧ (sa_GetMaterial shape ≠ kNullObj →
                   (is_Some (_materialAdapters s
                               !! GetMaterialPath host (sa_GetMaterial shape)) →
                    GetMaterialId host id s
                    = (GetMaterialPath host (sa_GetMaterial shape), s))
                   ∧ (_materialAdapters s !! GetMaterialPath host (sa_GetMaterial shape)
                      = None →
                      GetMaterialId host id s
                      = ((if (_CreateMaterial host
                                (GetMaterialPath host (sa_GetMaterial shape))
                                (sa_GetMaterial shape) s).1
                          then GetMaterialPath host (sa_GetMaterial shape)
                          else _fallbackMaterial),
                         (_CreateMaterial host
                            (GetMaterialPath host (sa_GetMaterial shape))
                            (sa_GetMaterial shape) s).2))))))).
Proof.
  split; [intros Hd; unfold GetMaterialId; by rewrite Hd|].
  intros Hd. split.
  - intros ria Hria. unfold GetMaterialId. rewrite Hd, Hria. split.
    + intros [Hp|Hp]; rewrite Hp; done.
    + intros Hn1 Hn2.
      rewrite (bool_decide_eq_false_2 (kLines = _)) by done.
      rewrite (bool_decide_eq_false_2 (kLineStrip = _)) by done. simpl. split.
      * intros Hinv. by rewrite decide_True.
      * intros Hinv [a Ha]. rewrite decide_False by done. by rewrite Ha.
  - intros Hnone.
    assert (GetMaterialId host id s
              = if useMeshAdapter host then
                  match _shapeAdapters s !! id with
                  | None => (_fallbackMaterial, s)
                  | Some shapeAdapter =>
                      if decide (sa_GetMaterial shapeAdapter = kNullObj)
                      then (_fallbackMaterial, s)
                      else
                        match _materialAdapters s
                                !! GetMaterialPath host (sa_GetMaterial shapeAdapter) with
                        | Some _ => (GetMaterialPath host (sa_GetMaterial shapeAdapter), s)
                        | None =>
                            let '(created, s) :=
                              _CreateMaterial host
                                (GetMaterialPath host (sa_GetMaterial shapeAdapter))
                                (sa_GetMaterial shapeAdapter) s in
                            (if created
                             then GetMaterialPath host (sa_GetMaterial shapeAdapter)
                             else _fallbackMaterial, s)
                        end
                  end
                else (_fallbackMaterial, s)) as Heq.
    { unfold GetMaterialId. rewrite Hd.
      destruct Hnone as [Hri|(ria & Hri & Hn1 & Hn2 & Hinv & Hreg)]; rewrite Hri; [done|].
      rewrite (bool_decide_eq_false_2 (kLines = _)) by done.
      rewrite (bool_decide_eq_false_2 (kLineStrip = _)) by done. simpl.
      rewrite decide_False by done. by rewrite Hreg. }
    rewrite Heq. split.
    + by intros ->.
    + intros ->. split; [by intros ->|].
      intros shape ->. split.
      * intros Hnull. by rewrite decide_True.
      * intros Hnull. rewrite decide_False by done. split.
        -- intros [a ->]. done.
        -- intros ->. by destruct (_CreateMaterial _ _ _ _).
Qed.

(** ** The per-frame pass: queued lights *)

Lemma PreFrame_lightsToAdd_loop_resolved q s :
  Forall (λ e : MObject * LightCreator, is_Some (getAPathTo host e.1)) q →
  PreFrame_lightsToAdd_loop host q s
  = Continue (leave (PreFrame_lightsToAdd_loop host q s)).
Proof.
  intros Hq. revert s. induction Hq as [|e q [dag He] _ IH]; intros s; simpl; [done|].
  rewrite He. apply IH.
Qed.

Lemma PreFrame_lightsToAdd_loop_app q1 q2 s :
  PreFrame_lightsToAdd_loop host (q1 ++ q2) s
  = andThen (PreFrame_lightsToAdd_loop host q1 s) (PreFrame_lightsToAdd_loop host q2).
Proof.
  revert s. induction q1 as [|e q1 IH]; intros s; simpl; [done|].
  destruct (getAPathTo host e.1); [apply IH|done].
Qed.

Lemma PreFrame_lightsToAdd_loop_unresolved q s obj lightFn :
  (obj, lightFn) ∈ q → getAPathTo host obj = None →
  ∃ s', PreFrame_lightsToAdd_loop host q s = Return s'.
Proof.
  intros Hin Hobj. revert s. induction q as [|e q IH]; intros s; simpl.
  { by apply elem_of_nil in Hin. }
  apply elem_of_cons in Hin as [<-|Hin]; simpl.
  - rewrite Hobj. eauto.
  - destruct (getAPathTo host e.1); [by apply IH|eauto].
Qed.

Lemma PreFrame_after_materialTags_unresolved context s obj lightFn :
  (obj, lightFn) ∈ _lightsToAdd s → getAPathTo host obj = None →
  ∃ s', PreFrame_after_materialTags host context s = Return s'
        ∧ modifies [FLights; FWorld] s s'.
Proof.
  intros Hin Hobj. unfold PreFrame_after_materialTags, PreFrame_lightsToAdd.
  destruct (_lightsToAdd s) as [|e q] eqn:Hq; [by apply elem_of_nil in Hin|].
  pose proof (modifies_PreFrame_lightsToAdd_loop (e :: q) s) as Hmod.
  destruct (PreFrame_lightsToAdd_loop_unresolved (e :: q) s obj lightFn Hin Hobj)
    as [s' Hs'].
  rewrite Hs' in Hmod |- *. simpl in *. eauto.
Qed.

(** C3. A queued light whose DAG path cannot be resolved ends the pass on
    the spot: after the lights queued before it have been created,
    [PreFrame] returns.  The lights queued behind it are not created, no
    queue is cleared, and the blocks for queued nodes, recreation, rebuild
    and light reconciliation do not run. *)
Theorem PreFrame_unresolved_light_ends_pass context s obj lightFn
    (done rest : list (MObject * LightCreator)) :
  _lightsToAdd s = done ++ (obj, lightFn) :: rest →
  Forall (λ e : MObject * LightCreator, is_Some (getAPathTo host e.1)) done →
  getAPathTo host obj = None →
  let s3 := PreFrame_materialTags host (PreFrame_displayStyle host context s) in
  let s' := leave (PreFrame_lightsToAdd_loop host done s3) in
  PreFrame_flow host context s = Return s'
  ∧ PreFrame host context s = s'
  ∧ _lightsToAdd s' = _lightsToAdd s
  ∧ _addedNodes s' = _addedNodes s
  ∧ _adaptersToRecreate s' = _adaptersToRecreate s
  ∧ _adaptersToRebuild s' = _adaptersToRebuild s3
  ∧ _shapeAdapters s' = _shapeAdapters s
  ∧ _cameraAdapters s' = _cameraAdapters s.
Proof.
  intros Hq Hdone Hobj s3 s'.
  pose proof (modifies_PreFrame_displayStyle context s) as H1.
  pose proof (modifies_PreFrame_materialTags (PreFrame_displayStyle host context s)) as H2.
  pose proof (modifies_PreFrame_lightsToAdd_loop done s3) as H3. fold s' in H3. fold s3 in H2.
  assert (PreFrame_flow host context s = Return s') as Hflow.
  { unfold PreFrame_flow, PreFrame_after_materialTags, PreFrame_lightsToAdd. fold s3.
    assert (_lightsToAdd s3 = done ++ (obj, lightFn) :: rest) as ->.
    { rewrite <- Hq. use_unchanged H1 FLightsToAdd. use_unchanged H2 FLightsToAdd.
      congruence. }
    destruct (done ++ (obj, lightFn) :: rest) as [|e q] eqn:Hdq.
    { by destruct done. }
    rewrite <- Hdq, PreFrame_lightsToAdd_loop_app.
    rewrite PreFrame_lightsToAdd_loop_resolved by done. fold s'. simpl.
    by rewrite Hobj. }
  split; [done|]. split; [unfold PreFrame; by rewrite Hflow|].
  use_unchanged H1 FLightsToAdd. use_unchanged H2 FLightsToAdd. use_unchanged H3 FLightsToAdd.
  use_unchanged H1 FAddedNodes. use_unchanged H2 FAddedNodes. use_unchanged H3 FAddedNodes.
  use_unchanged H1 FRecreate. use_unchanged H2 FRecreate. use_unchanged H3 FRecreate.
  use_unchanged H3 FRebuild.
  use_unchanged H1 FShapes. use_unchanged H2 FShapes. use_unchanged H3 FShapes.
  use_unchanged H1 FCameras. use_unchanged H2 FCameras. use_unchanged H3 FCameras.
  repeat split; congruence.
Qed.

(** ** The per-frame pass: material tags *)

Lemma rebuild_scheduled_here id flags (q : list (SdfPath * N)) :
  (id, flags) ∈ q → rebuild_scheduled id flags q.
Proof. intros Hin. exists flags. split; [done|apply N.land_diag]. Qed.

Lemma RebuildMaterialUsers_fold_mono x bits id l s :
  rebuild_scheduled x bits (_adaptersToRebuild s) →
  rebuild_scheduled x bits
    (_adaptersToRebuild
       (foldl (λ acc rprimId,
                 match GetRprim_GetMaterialId host (world acc) rprimId with
                 | Some materialId =>
                     if decide (materialId = id)
                     then RebuildAdapterOnIdle rprimId (RebuildFlagPrim host) acc
                     else acc
                 | None => acc
                 end) s l)).
Proof.
  revert s. induction l as [|r l IH]; intros s Hs; simpl; [done|].
  apply IH. repeat case_match; try done. by apply RebuildAdapterOnIdle_scheduled_mono.
Qed.

Lemma RebuildMaterialUsers_mono x bits id s :
  rebuild_scheduled x bits (_adaptersToRebuild s) →
  rebuild_scheduled x bits (_adaptersToRebuild (RebuildMaterialUsers host id s)).
Proof. apply RebuildMaterialUsers_fold_mono. Qed.


Lemma PreFrame_materialTag_mono x bits id s :
  rebuild_scheduled x bits (_adaptersToRebuild s) →
  rebuild_scheduled x bits (_adaptersToRebuild (PreFrame_materialTag host id s)).
Proof.
  intros Hs. unfold PreFrame_materialTag. destruct (_materialAdapters s !! id); [|done].
  destruct (UpdateMaterialTag host _) as [a changed]. destruct changed; [|done].
  by apply RebuildMaterialUsers_mono.
Qed.



Lemma PreFrame_materialTags_fold_mono x bits l s :
  rebuild_scheduled x bits (_adaptersToRebuild s) →
  rebuild_scheduled x bits
    (_adaptersToRebuild (foldl (λ acc id, PreFrame_materialTag host id acc) s l)).
Proof.
  revert s. induction l as [|id l IH]; intros s Hs; simpl; [done|].
  by apply IH, PreFrame_materialTag_mono.
Qed.


Lemma MaterialTagChanged_queued id s :
  id ∈ _materialTagsChanged (MaterialTagChanged id s)
  ∧ (NoDup (_materialTagsChanged s) → NoDup (_materialTagsChanged (MaterialTagChanged id s))).
Proof.
  unfold MaterialTagChanged. case_decide as Hin; [done|]. simpl. split.
  - apply elem_of_app. right. apply elem_of_cons. by left.
  - intros Hnd. apply NoDup_app. split; [done|]. split; [|apply NoDup_singleton].
    intros x Hx Hx'. apply list_elem_of_singleton in Hx'. by subst x.
Qed.



Lemma PreFrame_materialTags_mono x bits s :
  rebuild_scheduled x bits (_adaptersToRebuild s) →
  rebuild_scheduled x bits (_adaptersToRebuild (PreFrame_materialTags host s)).
Proof.
  intros Hs. unfold PreFrame_materialTags. destruct (_materialTagsChanged s); [done|].
  cbn [_adaptersToRebuild set_materialTagsChanged].
  destruct (IsHdSt host); [|done]. by apply PreFrame_materialTags_fold_mono.
Qed.


(** C5. With a queued light whose DAG path cannot be resolved, the pass
    returns before its recreate block: an identity queued both for
    recreation and for rebuild is still queued for both afterwards, the
    recreation has not been applied and neither queue is empty. *)
Theorem PreFrame_unresolved_light_leaves_recreate_and_rebuild_queued
    context s obj lightFn id (node : MObject) (flags : N) :
  (obj, lightFn) ∈ _lightsToAdd s →
  getAPathTo host obj = None →
  (id, node) ∈ _adaptersToRecreate s →
  (id, flags) ∈ _adaptersToRebuild s →
  _adaptersToRecreate (PreFrame host context s) = _adaptersToRecreate s
  ∧ (id, node) ∈ _adaptersToRecreate (PreFrame host context s)
  ∧ rebuild_scheduled id flags (_adaptersToRebuild (PreFrame host context s))
  ∧ _adaptersToRecreate (PreFrame host context s) ≠ []
  ∧ _adaptersToRebuild (PreFrame host context s) ≠ [].
Proof.
  intros Hin Hobj Hrec Hreb.
  pose proof (modifies_PreFrame_displayStyle context s) as H1.
  pose proof (modifies_PreFrame_materialTags (PreFrame_displayStyle host context s)) as H2.
  set (s3 := PreFrame_materialTags host (PreFrame_displayStyle host context s)) in *.
  assert (_lightsToAdd s3 = _lightsToAdd s) as Hl.
  { use_unchanged H1 FLightsToAdd. use_unchanged H2 FLightsToAdd. congruence. }
  destruct (PreFrame_after_materialTags_unresolved context s3 obj lightFn) as (s' & Hs' & H3);
    [by rewrite Hl|done|].
  assert (PreFrame host context s = s') as ->.
  { unfold PreFrame, PreFrame_flow. fold s3. by rewrite Hs'. }
  assert (_adaptersToRecreate s' = _adaptersToRecreate s) as Hr.
  { use_unchanged H1 FRecreate. use_unchanged H2 FRecreate. use_unchanged H3 FRecreate.
    congruence. }
  assert (rebuild_scheduled id flags (_adaptersToRebuild s')) as Hsched.
  { use_unchanged H3 FRebuild. rewrite Hu. subst s3. apply PreFrame_materialTags_mono.
    use_unchanged H1 FRebuild. rewrite Hu0. by apply rebuild_scheduled_here. }
  rewrite Hr. repeat split; try done.
  - intros Hnil. rewrite Hnil in Hrec. by apply elem_of_nil in Hrec.
  - destruct Hsched as (f' & Hf' & _). intros Hnil. rewrite Hnil in Hf'.
    by apply elem_of_nil in Hf'.
Qed.

(** ** The per-frame pass: light adapters *)

Lemma keeps_light_refl P a s : keeps_light host P a s s.
Proof. by split. Qed.

Lemma keeps_light_trans P a s1 s2 s3 :
  keeps_light host P a s1 s2 → keeps_light host P a s2 s3 → keeps_light host P a s1 s3.
Proof. intros [H1 H1'] [H2 H2']. split; auto. Qed.

Lemma modifies_keeps_light fs P a s s' :
  modifies fs s s' → FLights ∉ fs → keeps_light host P a s s'.
Proof.
  intros Hmod Hfs. specialize (Hmod FLights Hfs). simpl in Hmod.
  unfold keeps_light, lights_wf. by rewrite Hmod.
Qed.

Lemma keeps_light_foldl {X} P a
    (g : MayaHydraSceneDelegate → X → MayaHydraSceneDelegate) (l : list X) :
  (∀ s x, keeps_light host P a s (g s x)) → ∀ s, keeps_light host P a s (foldl g s l).
Proof.
  intros Hg. induction l as [|x l IH]; intros s; simpl; [apply keeps_light_refl|].
  eapply keeps_light_trans; [apply Hg|apply IH].
Qed.

Lemma keeps_light_map_fold {A} P a
    (g : SdfPath → A → MayaHydraSceneDelegate → MayaHydraSceneDelegate)
    (m : gmap string A) :
  (∀ s k x, keeps_light host P a s (g k x s)) → ∀ s, keeps_light host P a s (map_fold g s m).
Proof.
  intros Hg s. rewrite map_fold_foldr.
  induction (map_to_list m) as [|[k x] l IH]; simpl; [apply keeps_light_refl|].
  eapply keeps_light_trans; [apply IH|apply Hg].
Qed.

Lemma keeps_light_CreateLightAdapter P a dag s :
  light_creators_wf host → keeps_light host P a s (CreateLightAdapter host dag s).2.
Proof.
  intros Hcr. unfold CreateLightAdapter, _CreateAdapter.
  destruct (GetLightAdapterCreator host dag) as [creator|] eqn:Hc; [|apply keeps_light_refl].
  destruct (IsUfeItemFromMayaUsd host dag); [apply keeps_light_refl|].
  destruct (_lightAdapters s !! GetPrimPath host dag true) eqn:Hid; [apply keeps_light_refl|].
  destruct (creator dag) as [adapter|] eqn:Had; [|apply keeps_light_refl].
  destruct (light_IsSupported host adapter); [|apply keeps_light_refl].
  simpl. rewrite map_insert_new_fresh by done. split.
  - intros HP. simpl. rewrite lookup_insert_ne; [done|]. intros Heq. congruence.
  - intros Hwf id a'. simpl. rewrite lookup_insert. case_decide as Hk.
    + intros [= <-]. subst id. by rewrite (Hcr _ _ _ Hc Had).
    + apply Hwf.
Qed.

Lemma keeps_light_InsertDag P a dag s :
  light_creators_wf host → keeps_light host P a s (InsertDag host dag s).
Proof.
  intros Hcr. unfold InsertDag.
  destruct (dag_hasFn_kTransform host dag); [apply keeps_light_refl|].
  destruct (isIntermediateObject host dag); [apply keeps_light_refl|].
  destruct (IsUfeItemFromMayaUsd host dag); [apply keeps_light_refl|].
  assert (∃ light s1,
            (if GetLightsEnabled host then CreateLightAdapter host dag s else (None, s))
            = (light, s1) ∧ keeps_light host P a s s1) as (light & s1 & -> & H1).
  { destruct (GetLightsEnabled host).
    - pose proof (keeps_light_CreateLightAdapter P a dag s Hcr) as H.
      destruct (CreateLightAdapter host dag s) as [l s1]. eauto.
    - eexists _, _. split; [done|apply keeps_light_refl]. }
  destruct (bool_decide (is_Some light)); [done|].
  pose proof (modifies_CreateCameraAdapter dag s1) as H2.
  destruct (CreateCameraAdapter host dag s1) as [camera s2]. simpl in H2.
  apply (modifies_keeps_light _ P a) in H2; [|field_notin].
  assert (keeps_light host P a s s2) as H12 by (by eapply keeps_light_trans).
  destruct (bool_decide (is_Some camera)); [done|].
  destruct (dag_isInstanced host dag && bool_decide (0 < dag_instanceNumber host dag));
    [done|].
  pose proof (modifies_CreateShapeAdapter dag s2) as H3.
  destruct (CreateShapeAdapter host dag s2) as [adapter s3]. simpl in H3.
  apply (modifies_keeps_light _ P a) in H3; [|field_notin].
  assert (keeps_light host P a s s3) as H13 by (by eapply keeps_light_trans).
  destruct adapter as [adapter|]; [|done].
  case_decide; [done|]. case_match; [done|].
  eapply keeps_light_trans; [done|].
  eapply modifies_keeps_light; [apply modifies__CreateMaterial|field_notin].
Qed.

Lemma keeps_light_RecreateAdapter P a id obj s :
  light_creators_wf host → id ≠ P → keeps_light host P a s (RecreateAdapter host id obj s).
Proof.
  intros Hcr Hne. unfold RecreateAdapter. cbn [_RemoveAdapter].
  destruct (TfMapContains Lights id s).
  { assert (keeps_light host P a s
              (erase Lights id (RemoveCallbacks_RemovePrim host Lights id s))) as H1.
    { split; simpl.
      - intros HP. by rewrite lookup_delete_ne.
      - intros Hwf k a'. simpl. rewrite lookup_delete. case_decide; [done|]. apply Hwf. }
    case_match; [|done].
    eapply keeps_light_trans; [done|].
    eapply modifies_keeps_light; [apply modifies_OnDagNodeAdded|field_notin]. }
  assert (∀ m, m ≠ Lights →
            keeps_light host P a s (erase m id (RemoveCallbacks_RemovePrim host m id s)))
    as Herase.
  { intros m Hm. eapply (modifies_keeps_light [FRenderItems; FShapes; FCameras; FMaterials;
                                               FWorld]); [|field_notin].
    unfold RemoveCallbacks_RemovePrim, call. destruct m; try done; solve_modifies. }
  assert (∀ s0, keeps_light host P a s s0 →
            keeps_light host P a s
              (if MObjectHandle_isValid host obj
               then (_CreateMaterial host (GetMaterialPath host obj) obj
                       (MarkMaterialUsersDirty host id s0)).2
               else MarkMaterialUsersDirty host id s0)) as Hmat.
  { intros s0 H0.
    assert (keeps_light host P a s (MarkMaterialUsersDirty host id s0)) as H1.
    { eapply keeps_light_trans; [done|].
      eapply modifies_keeps_light; [apply modifies_MarkMaterialUsersDirty|field_notin]. }
    case_match; [|done]. eapply keeps_light_trans; [done|].
    eapply modifies_keeps_light; [apply modifies__CreateMaterial|field_notin]. }
  destruct (useMeshAdapter host).
  - destruct (TfMapContains Shapes id s).
    + repeat case_match; try (by apply Herase).
      eapply keeps_light_trans; [by apply (Herase Shapes)|by apply keeps_light_InsertDag].
    + destruct (TfMapContains Materials id s); [|apply keeps_light_refl].
      apply Hmat. by apply Herase.
  - destruct (TfMapContains Materials id s); [|apply keeps_light_refl].
    apply Hmat. by apply Herase.
Qed.

Lemma keeps_light_andThen P a s (x : @Flow World) k :
  keeps_light host P a s (leave x) → (∀ s', keeps_light host P a s' (leave (k s'))) →
  keeps_light host P a s (leave (andThen x k)).
Proof.
  intros Hx Hk. rewrite leave_andThen. destruct x as [s1|s1]; simpl in *; [|done].
  eapply keeps_light_trans; [done|apply Hk].
Qed.

Lemma keeps_light_PreFrame_lightsToAdd_loop P a q s :
  light_creators_wf host →
  keeps_light host P a s (leave (PreFrame_lightsToAdd_loop host q s)).
Proof.
  intros Hcr. revert s.
  induction q as [|lightToAdd q IH]; intros s; simpl; [apply keeps_light_refl|].
  destruct (getAPathTo host lightToAdd.1); [|apply keeps_light_refl].
  eapply keeps_light_trans; [by apply keeps_light_CreateLightAdapter|apply IH].
Qed.

Lemma keeps_light_PreFrame_lightsToAdd P a s :
  light_creators_wf host → keeps_light host P a s (leave (PreFrame_lightsToAdd host s)).
Proof.
  intros Hcr. unfold PreFrame_lightsToAdd.
  destruct (_lightsToAdd s) as [|x q]; [apply keeps_light_refl|].
  apply keeps_light_andThen; [by apply keeps_light_PreFrame_lightsToAdd_loop|].
  intros s'. simpl. eapply (modifies_keeps_light [FLightsToAdd]); [solve_modifies|field_notin].
Qed.

Lemma keeps_light_PreFrame_addedNodes_loop P a q s :
  light_creators_wf host →
  keeps_light host P a s (leave (PreFrame_addedNodes_loop host q s)).
Proof.
  intros Hcr. revert s. induction q as [|obj q IH]; intros s; simpl; [apply keeps_light_refl|].
  destruct (isNull obj); [apply IH|].
  destruct (getAPathTo host obj) as [dag|]; [|apply keeps_light_refl].
  eapply keeps_light_trans; [|apply IH].
  destruct (dag_hasFn_kTransform host dag).
  - eapply modifies_keeps_light; [apply modifies_PreFrame_addedNode_children|field_notin].
  - by apply keeps_light_InsertDag.
Qed.

Lemma keeps_light_PreFrame_addedNodes P a s :
  light_creators_wf host → keeps_light host P a s (leave (PreFrame_addedNodes host s)).
Proof.
  intros Hcr. unfold PreFrame_addedNodes.
  destruct (useMeshAdapter host); [|apply keeps_light_refl].
  destruct (_addedNodes s) as [|x q]; [apply keeps_light_refl|].
  apply keeps_light_andThen; [by apply keeps_light_PreFrame_addedNodes_loop|].
  intros s'. simpl. eapply (modifies_keeps_light [FAddedNodes]); [solve_modifies|field_notin].
Qed.

Lemma RecreateAdapterOnIdle_find_keys id obj q q' :
  RecreateAdapterOnIdle_find id obj q = Some q' → q'.*1 = q.*1.
Proof.
  revert q'. induction q as [|it q IH]; intros q'; simpl; [done|].
  destruct (decide (it.1 = id)).
  - by intros [= <-].
  - destruct (RecreateAdapterOnIdle_find id obj q) as [q0|]; simpl; [|done].
    intros [= <-]. rewrite !fmap_cons. by rewrite (IH q0).
Qed.

Lemma recreate_avoids_RecreateAdapterOnIdle P id obj s :
  id ≠ P → recreate_avoids P s → recreate_avoids P (RecreateAdapterOnIdle id obj s).
Proof.
  intros Hne Hs. unfold recreate_avoids, RecreateAdapterOnIdle in *.
  destruct (RecreateAdapterOnIdle_find id obj (_adaptersToRecreate s)) as [q'|] eqn:Hf; simpl.
  - by rewrite (RecreateAdapterOnIdle_find_keys _ _ _ _ Hf).
  - rewrite fmap_app. simpl. intros Hin. apply elem_of_app in Hin as [Hin|Hin]; [done|].
    apply list_elem_of_singleton in Hin. done.
Qed.

Lemma recreate_avoids_modifies fs P s s' :
  modifies fs s s' → FRecreate ∉ fs → recreate_avoids P s → recreate_avoids P s'.
Proof.
  intros Hmod Hfs. specialize (Hmod FRecreate Hfs). simpl in Hmod.
  unfold recreate_avoids. by rewrite Hmod.
Qed.

Lemma recreate_avoids_AddNewInstance P dag s :
  (∀ d, GetPrimPath host d false ≠ P) →
  recreate_avoids P s → recreate_avoids P (AddNewInstance host dag s).
Proof.
  intros Hrp Hs. unfold AddNewInstance. repeat case_match; try done.
  - by apply recreate_avoids_RecreateAdapterOnIdle.
  - eapply (recreate_avoids_modifies [FRebuild; FWorld]); [|field_notin|done].
    eapply modifies_step;
      [apply modifies_RebuildAdapterOnIdle|apply (modifies_call [FWorld]); field_in
      |field_sub|field_sub].
Qed.

Lemma recreate_avoids_PreFrame_addedNodes_loop P q s :
  (∀ d, GetPrimPath host d false ≠ P) →
  recreate_avoids P s → recreate_avoids P (leave (PreFrame_addedNodes_loop host q s)).
Proof.
  intros Hrp. revert s. induction q as [|obj q IH]; intros s Hs; simpl; [done|].
  destruct (isNull obj); [by apply IH|].
  destruct (getAPathTo host obj) as [dag|]; [|done].
  apply IH. destruct (dag_hasFn_kTransform host dag).
  - unfold PreFrame_addedNode_children.
    generalize (dag_children host dag) as l. intros l. revert s Hs.
    induction l as [|d l IHl]; intros s Hs; simpl; [done|].
    apply IHl. case_match; [by apply recreate_avoids_AddNewInstance|done].
  - eapply recreate_avoids_modifies; [apply modifies_InsertDag|field_notin|done].
Qed.

Lemma recreate_avoids_PreFrame_addedNodes P s :
  (useMeshAdapter host = true → ∀ d, GetPrimPath host d false ≠ P) →
  recreate_avoids P s → recreate_avoids P (leave (PreFrame_addedNodes host s)).
Proof.
  intros Hrp Hs. unfold PreFrame_addedNodes.
  destruct (useMeshAdapter host); [|done].
  destruct (_addedNodes s) as [|x q]; [done|].
  rewrite leave_andThen.
  pose proof (recreate_avoids_PreFrame_addedNodes_loop P (x :: q) s (Hrp eq_refl) Hs) as Hl.
  destruct (PreFrame_addedNodes_loop host (x :: q) s); simpl in *; done.
Qed.

Lemma keeps_light_recreate_fold P a (l : list (SdfPath * MObject)) s :
  light_creators_wf host → P ∉ l.*1 →
  keeps_light host P a s
    (foldl (λ acc it,
              set_adaptersToRebuild
                (erase_first it.1 (_adaptersToRebuild (RecreateAdapter host it.1 it.2 acc)))
                (RecreateAdapter host it.1 it.2 acc))
           s l).
Proof.
  intros Hcr. revert s.
  induction l as [|it l IH]; intros s Hl; simpl; [apply keeps_light_refl|].
  eapply keeps_light_trans; [|apply IH].
  - eapply keeps_light_trans.
    + apply keeps_light_RecreateAdapter; [done|]. intros Heq. apply Hl.
      rewrite fmap_cons. apply elem_of_cons. by left.
    + eapply (modifies_keeps_light [FRebuild]); [solve_modifies|field_notin].
  - intros Hin. apply Hl. rewrite fmap_cons. apply elem_of_cons. by right.
Qed.

Lemma keeps_light_PreFrame_adaptersToRecreate P a s :
  light_creators_wf host → recreate_avoids P s →
  keeps_light host P a s (PreFrame_adaptersToRecreate host s).
Proof.
  intros Hcr Hs. unfold PreFrame_adaptersToRecreate, recreate_avoids in *.
  destruct (_adaptersToRecreate s) as [|x q] eqn:Hq; [apply keeps_light_refl|].
  apply (keeps_light_trans P a s _ _ (keeps_light_recreate_fold P a (x :: q) s Hcr Hs)).
  eapply (modifies_keeps_light [FRecreate]); [solve_modifies|field_notin].
Qed.

Lemma PreFrame_addedNodes_loop_resolved q s :
  Forall (λ o : MObject, isNull o = true ∨ is_Some (getAPathTo host o)) q →
  PreFrame_addedNodes_loop host q s
  = Continue (leave (PreFrame_addedNodes_loop host q s)).
Proof.
  intros Hq. revert s. induction Hq as [|o q Ho _ IH]; intros s; simpl; [done|].
  destruct (isNull o) eqn:Hnull; [apply IH|].
  destruct Ho as [?|[dag Hdag]]; [done|]. rewrite Hdag. apply IH.
Qed.

Lemma PreFrame_lightsToAdd_resolved s :
  Forall (λ e : MObject * LightCreator, is_Some (getAPathTo host e.1)) (_lightsToAdd s) →
  PreFrame_lightsToAdd host s = Continue (leave (PreFrame_lightsToAdd host s)).
Proof.
  intros Hq. unfold PreFrame_lightsToAdd. destruct (_lightsToAdd s) as [|x q]; [done|].
  by rewrite PreFrame_lightsToAdd_loop_resolved.
Qed.

Lemma PreFrame_addedNodes_resolved s :
  Forall (λ o : MObject, isNull o = true ∨ is_Some (getAPathTo host o)) (_addedNodes s) →
  PreFrame_addedNodes host s = Continue (leave (PreFrame_addedNodes host s)).
Proof.
  intros Hq. unfold PreFrame_addedNodes. destruct (useMeshAdapter host); [|done].
  destruct (_addedNodes s) as [|x q]; [done|].
  by rewrite PreFrame_addedNodes_loop_resolved.
Qed.

(** A pass that no queued handle cuts short runs all its blocks. *)
Lemma PreFrame_complete context s :
  queued_handles_resolve host s →
  PreFrame host context s
  = let s7 :=
      PreFrame_adaptersToRebuild host
        (PreFrame_adaptersToRecreate host
           (leave (PreFrame_addedNodes host
              (leave (PreFrame_lightsToAdd host
                 (PreFrame_materialTags host (PreFrame_displayStyle host context s)))))))
    in if IsHdSt host then PreFrame_lights host context s7 else s7.
Proof.
  intros [Hl Ha]. unfold PreFrame, PreFrame_flow, PreFrame_after_materialTags.
  pose proof (modifies_PreFrame_displayStyle context s) as H1.
  pose proof (modifies_PreFrame_materialTags (PreFrame_displayStyle host context s)) as H2.
  set (s3 := PreFrame_materialTags host (PreFrame_displayStyle host context s)) in *.
  pose proof (modifies_PreFrame_lightsToAdd s3) as H3.
  rewrite PreFrame_lightsToAdd_resolved.
  2:{ use_unchanged H1 FLightsToAdd. use_unchanged H2 FLightsToAdd. by rewrite Hu0, Hu. }
  cbn [andThen]. rewrite PreFrame_addedNodes_resolved.
  2:{ use_unchanged H1 FAddedNodes. use_unchanged H2 FAddedNodes.
      use_unchanged H3 FAddedNodes. by rewrite Hu1, Hu0, Hu. }
  cbn [andThen]. by destruct (IsHdSt host).
Qed.

(** *** Recreation supersedes rebuild *)

Lemma erase_first_keys_subset id (q : list (SdfPath * N)) x :
  x ∈ (erase_first id q).*1 → x ∈ q.*1.
Proof.
  induction q as [|it q IH]; simpl; [done|]. case_decide.
  - intros Hx. rewrite ?fmap_cons. apply elem_of_cons. by right.
  - rewrite ?fmap_cons. intros Hx. apply elem_of_cons in Hx as [->|Hx].
    + apply elem_of_cons. by left.
    + apply elem_of_cons. right. by apply IH.
Qed.

Lemma erase_first_NoDup id (q : list (SdfPath * N)) :
  NoDup q.*1 → NoDup (erase_first id q).*1.
Proof.
  induction q as [|it q IH]; simpl; [done|]. rewrite ?fmap_cons.
  intros [Hit Hq]%NoDup_cons. case_decide; [done|].
  rewrite ?fmap_cons. apply NoDup_cons. split; [|by apply IH].
  intros Hin. by apply Hit, (erase_first_keys_subset id).
Qed.

Lemma erase_first_not_in id (q : list (SdfPath * N)) :
  NoDup q.*1 → id ∉ (erase_first id q).*1.
Proof.
  induction q as [|it q IH]; simpl; [intros _; apply not_elem_of_nil|]. rewrite ?fmap_cons.
  intros [Hit Hq]%NoDup_cons. case_decide as Hid.
  - by rewrite Hid.
  - rewrite ?fmap_cons. intros Hin. apply elem_of_cons in Hin as [Hin|Hin]; [done|].
    by apply IH.
Qed.

Lemma RebuildAdapterOnIdle_NoDup id flags s :
  NoDup (_adaptersToRebuild s).*1 →
  NoDup (_adaptersToRebuild (RebuildAdapterOnIdle id flags s)).*1.
Proof.
  intros Hnd. unfold RebuildAdapterOnIdle.
  destruct (RebuildAdapterOnIdle_find id flags (_adaptersToRebuild s)) as [q'|] eqn:Hf; simpl.
  - destruct (RebuildAdapterOnIdle_find_Some _ _ _ _ Hf) as (l1 & old & l2 & Hq & -> & _).
    rewrite Hq in Hnd. by rewrite fmap_app, fmap_cons in *.
  - apply RebuildAdapterOnIdle_find_None in Hf. rewrite fmap_app. simpl.
    apply NoDup_app. split; [done|]. split; [|apply NoDup_singleton].
    intros x Hx Hx'. apply list_elem_of_singleton in Hx'. subst x.
    apply list_elem_of_fmap in Hx as ([k f0] & -> & Hin). simpl in *.
    assert ((k, f0) ∈ pending_rebuilds k (_adaptersToRebuild s)) as Hp.
    { unfold pending_rebuilds. by apply list_elem_of_filter. }
    rewrite Hf in Hp. by apply elem_of_nil in Hp.
Qed.

Lemma recreate_fold_cancels_rebuild (l : list (SdfPath * MObject)) s id :
  NoDup (_adaptersToRebuild s).*1 →
  let s' := foldl (λ acc it,
                     set_adaptersToRebuild
                       (erase_first it.1
                          (_adaptersToRebuild (RecreateAdapter host it.1 it.2 acc)))
                       (RecreateAdapter host it.1 it.2 acc))
                  s l in
  NoDup (_adaptersToRebuild s').*1
  ∧ (id ∈ l.*1 ∨ id ∉ (_adaptersToRebuild s).*1 → id ∉ (_adaptersToRebuild s').*1).
Proof.
  revert s. induction l as [|it l IH]; intros s Hnd; simpl.
  { split; [done|]. intros [Hin|Hin]; [by apply elem_of_nil in Hin|done]. }
  pose proof (modifies_RecreateAdapter it.1 it.2 s) as Hmod. use_unchanged Hmod FRebuild.
  set (s1 := set_adaptersToRebuild _ (RecreateAdapter host it.1 it.2 s)).
  assert (_adaptersToRebuild s1 = erase_first it.1 (_adaptersToRebuild s)) as Hs1.
  { subst s1. simpl. by rewrite Hu. }
  destruct (IH s1) as [IH1 IH2]; [rewrite Hs1; by apply erase_first_NoDup|].
  split; [done|]. intros Hid. apply IH2.
  destruct (decide (id = it.1)) as [->|Hne].
  - right. rewrite Hs1. by apply erase_first_not_in.
  - destruct Hid as [Hid|Hid].
    + left. rewrite ?fmap_cons in Hid. apply elem_of_cons in Hid as [?|?]; done.
    + right. rewrite Hs1. intros Hin. by apply Hid, (erase_first_keys_subset it.1).
Qed.

(** In the recreate block, an identity queued for recreation loses its
    queued rebuild before the rebuild block runs; after the two blocks
    both queues are empty. *)
Lemma PreFrame_recreate_supersedes_rebuild s id (node : MObject) :
  (id, node) ∈ _adaptersToRecreate s →
  NoDup (_adaptersToRebuild s).*1 →
  (id ∉ (_adaptersToRebuild (PreFrame_adaptersToRecreate host s)).*1)
  ∧ _adaptersToRecreate (PreFrame_adaptersToRecreate host s) = []
  ∧ _adaptersToRecreate
      (PreFrame_adaptersToRebuild host (PreFrame_adaptersToRecreate host s)) = []
  ∧ _adaptersToRebuild
      (PreFrame_adaptersToRebuild host (PreFrame_adaptersToRecreate host s)) = [].
Proof.
  intros Hin Hnd.
  assert (_adaptersToRecreate (PreFrame_adaptersToRecreate host s) = []) as Hrec.
  { unfold PreFrame_adaptersToRecreate. by destruct (_adaptersToRecreate s) eqn:Hq. }
  split; [|split; [done|split]].
  - unfold PreFrame_adaptersToRecreate.
    destruct (_adaptersToRecreate s) as [|x q] eqn:Hq; [by apply elem_of_nil in Hin|].
    cbn [_adaptersToRebuild set_adaptersToRecreate].
    destruct (recreate_fold_cancels_rebuild (x :: q) s id Hnd) as [_ H]. apply H. left.
    apply list_elem_of_fmap. by exists (id, node).
  - pose proof (modifies_PreFrame_adaptersToRebuild (PreFrame_adaptersToRecreate host s))
      as Hmod.
    use_unchanged Hmod FRecreate. by rewrite Hu.
  - unfold PreFrame_adaptersToRebuild.
    by destruct (_adaptersToRebuild (PreFrame_adaptersToRecreate host s)) eqn:Hq.
Qed.


(** *** The light reconciliation block *)

Lemma _GetActiveLightPaths_fold (l : list (string * MayaHydraLightAdapter)) :
  let r := foldr (uncurry (λ (_ : string) (a : MayaHydraLightAdapter)
                             (activeLightPaths : gmap string string),
                             map_insert_new (la_GetDagPath a) (la_GetDagPath a)
                               activeLightPaths)) ∅ l in
  ∀ id a, (id, a) ∈ l → is_Some (r !! la_GetDagPath a).
Proof.
  induction l as [|[k x] l IH]; simpl; intros id a Hin; [by apply elem_of_nil in Hin|].
  rewrite map_insert_new_lookup.
  apply elem_of_cons in Hin as [[= -> ->]|Hin].
  - case_match; [eauto|]. rewrite decide_True by done. eauto.
  - destruct (IH id a Hin) as [v ->]. eauto.
Qed.

Lemma _GetActiveLightPaths_covers s id a :
  _lightAdapters s !! id = Some a →
  is_Some (_GetActiveLightPaths s !! la_GetDagPath a).
Proof.
  intros Ha. unfold _GetActiveLightPaths. rewrite map_fold_foldr.
  apply (_GetActiveLightPaths_fold _ id a). by apply elem_of_map_to_list.
Qed.

Lemma PreFrame_lightParameter_grows context st i n :
  is_Some (st.1 !! n) → is_Some ((PreFrame_lightParameter host context st i).1 !! n).
Proof.
  intros [v Hv]. unfold PreFrame_lightParameter.
  repeat case_match; cbn [fst]; try (by eauto);
    rewrite (map_insert_new_lookup_old _ _ _ v) by done; eauto.
Qed.

Lemma PreFrame_lightParameters_grow context l st n :
  is_Some (st.1 !! n) →
  is_Some ((foldl (PreFrame_lightParameter host context) st l).1 !! n).
Proof.
  revert st. induction l as [|i l IH]; intros st Hn; simpl; [done|].
  by apply IH, PreFrame_lightParameter_grows.
Qed.

Lemma PreFrame_sweep_fold (l : list (string * MayaHydraLightAdapter))
    (activeLightPaths : gmap string string) s0 :
  NoDup l.*1 →
  (∀ id a, (id, a) ∈ l → _lightAdapters s0 !! id = Some a) →
  (∀ id1 a1 id2 a2, (id1, a1) ∈ l → (id2, a2) ∈ l →
     la_GetDagPath a1 = la_GetDagPath a2 → id1 = id2) →
  (∀ id a, (id, a) ∈ l → is_Some (activeLightPaths !! la_GetDagPath a)) →
  let r :=
    foldr (uncurry (λ id a (st : gmap string string * MayaHydraSceneDelegate),
                      match st.1 !! la_GetDagPath a with
                      | Some _ =>
                          (delete (la_GetDagPath a) st.1,
                           SetLightingOn host true Lights id st.2)
                      | None => (st.1, SetLightingOn host false Lights id st.2)
                      end))
          (activeLightPaths, s0) l in
  (∀ id a, (id, a) ∈ l → _lightAdapters r.2 !! id = Some (with_lightingOn true a))
  ∧ (∀ id, id ∉ l.*1 → _lightAdapters r.2 !! id = _lightAdapters s0 !! id)
  ∧ (∀ n, (∀ id a, (id, a) ∈ l → la_GetDagPath a ≠ n) → r.1 !! n = activeLightPaths !! n).
Proof.
  induction l as [|[k x] l IH]; intros Hnd Hin Hinj Hact; simpl.
  { repeat split; try done. intros id a H. by apply elem_of_nil in H. }
  rewrite fmap_cons in Hnd. apply NoDup_cons in Hnd as [Hk Hnd].
  destruct IH as (IH1 & IH2 & IH3); [done| | | |].
  { intros id a H. apply Hin. apply elem_of_cons. by right. }
  { intros id1 a1 id2 a2 H1 H2 Heq.
    apply (Hinj id1 a1 id2 a2); [apply elem_of_cons; by right..|done]. }
  { intros id a H. apply (Hact id a). apply elem_of_cons. by right. }
  set (r := foldr _ (activeLightPaths, s0) l) in *.
  assert (is_Some (r.1 !! la_GetDagPath x)) as [v Hv].
  { rewrite IH3; [apply (Hact k x); apply elem_of_cons; by left|].
    intros id a H Heq. apply Hk. apply list_elem_of_fmap. exists (id, a). split; [|done].
    simpl. apply (Hinj k x id a); [apply elem_of_cons; by left|apply elem_of_cons; by right|].
    done. }
  rewrite Hv. cbn [fst snd]. repeat split.
  - intros id a H. simpl. apply elem_of_cons in H as [[= -> ->]|H].
    + rewrite lookup_alter_eq, IH2 by done.
      rewrite (Hin k x) by (apply elem_of_cons; by left). done.
    + rewrite lookup_alter_ne; [by apply IH1|].
      intros ->. apply Hk. apply list_elem_of_fmap. by exists (id, a).
  - intros id H. simpl.
    rewrite lookup_alter_ne; [apply IH2|]; intros Hx; apply H; apply elem_of_cons; eauto.
  - intros n H. rewrite lookup_delete_ne; [apply IH3|].
    + intros id a H'. apply (H id a). apply elem_of_cons. by right.
    + apply (H k x). apply elem_of_cons. by left.
Qed.

Lemma PreFrame_sweep_turns_on (activeLightPaths : gmap string string) s P a :
  lights_wf host s →
  (∀ id a, _lightAdapters s !! id = Some a →
           is_Some (activeLightPaths !! la_GetDagPath a)) →
  _lightAdapters s !! P = Some a →
  _lightAdapters (PreFrame_sweep host activeLightPaths s).2 !! P
  = Some (with_lightingOn true a)
  ∧ lights_wf host (PreFrame_sweep host activeLightPaths s).2.
Proof.
  intros Hwf Hact HP. unfold PreFrame_sweep. rewrite map_fold_foldr.
  destruct (PreFrame_sweep_fold (map_to_list (_lightAdapters s)) activeLightPaths s)
    as (H1 & H2 & _).
  - apply NoDup_fst_map_to_list.
  - intros id a0 H. by apply elem_of_map_to_list.
  - intros id1 a1 id2 a2 Hi1 Hi2 Heq.
    apply elem_of_map_to_list in Hi1. apply elem_of_map_to_list in Hi2.
    rewrite (Hwf _ _ Hi1), (Hwf _ _ Hi2), Heq. done.
  - intros id a0 H. apply (Hact id). by apply elem_of_map_to_list.
  - split.
    + apply H1. by apply elem_of_map_to_list.
    + intros id a' Ha'. destruct (_lightAdapters s !! id) as [a0|] eqn:Hid.
      * rewrite (H1 id a0) in Ha' by (by apply elem_of_map_to_list).
        injection Ha' as <-. simpl. by apply Hwf.
      * rewrite H2 in Ha'; [congruence|].
        intros Hin. apply list_elem_of_fmap in Hin as ([k x] & -> & Hin).
        apply elem_of_map_to_list in Hin. simpl in Hid. congruence.
Qed.

Lemma PreFrame_lights_turns_on context s P a :
  light_creators_wf host → lights_wf host s →
  _lightAdapters s !! P = Some a →
  _lightAdapters (PreFrame_lights host context s) !! P = Some (with_lightingOn true a)
  ∧ lights_wf host (PreFrame_lights host context s).
Proof.
  intros Hcr Hwf HP. unfold PreFrame_lights.
  destruct (_GetActiveLightPaths_covers s P a HP) as [v Hv].
  rewrite (bool_decide_eq_false_2 (size _ = 0)).
  2:{ intros Hsz. apply map_size_empty_iff in Hsz. rewrite Hsz in Hv.
      by rewrite lookup_empty in Hv. }
  rewrite andb_false_r.
  set (st := foldl _ (_GetActiveLightPaths s, s) _).
  pose proof (modifies_PreFrame_lightParameters context
                (seq 0 (numberOfActiveLights context)) (_GetActiveLightPaths s, s)) as Hmod.
  fold st in Hmod. use_unchanged Hmod FLights.
  destruct (PreFrame_sweep_turns_on st.1 st.2 P a) as [Hon Hwf'].
  - unfold lights_wf. by rewrite Hu.
  - intros id a0 H. rewrite Hu in H. subst st. apply PreFrame_lightParameters_grow.
    simpl. by eapply _GetActiveLightPaths_covers.
  - by rewrite Hu.
  - destruct (keeps_light_map_fold P (with_lightingOn true a)
                (λ (_ : string) (dag : string) acc, (CreateLightAdapter host dag acc).2)
                (PreFrame_sweep host st.1 st.2).1
                (λ s0 _ dag, keeps_light_CreateLightAdapter P _ dag s0 Hcr)
                (PreFrame_sweep host st.1 st.2).2) as [K1 K2].
    split; [by apply K1|by apply K2].
Qed.

(** C2. On Storm, in a pass that no queued handle cuts short, a light
    adapter that exists for [P] and is not queued for recreation ([P] being
    no rprim path when nodes are inserted in mesh-adapter mode) has its
    lighting-enabled state set to true by the pass, whether or not the draw
    context enumerates [P]: the snapshot of active lights starts from the
    DAG paths of all existing light adapters.  The adapter remains the only
    one for its DAG path. *)
Theorem PreFrame_turns_existing_light_on context s P a :
  IsHdSt host = true →
  light_creators_wf host →
  lights_wf host s →
  queued_handles_resolve host s →
  recreate_avoids P s →
  (useMeshAdapter host = true → ∀ dag, GetPrimPath host dag false ≠ P) →
  _lightAdapters s !! P = Some a →
  _lightAdapters (PreFrame host context s) !! P = Some (with_lightingOn true a)
  ∧ (∀ id' a', _lightAdapters (PreFrame host context s) !! id' = Some a' →
               la_GetDagPath a' = la_GetDagPath a → id' = P).
Proof.
  intros Hst Hcr Hwf Hres Hrec Hrp HP. rewrite PreFrame_complete by done.
  rewrite Hst. cbv zeta.
  set (s1 := PreFrame_displayStyle host context s).
  set (s3 := PreFrame_materialTags host s1).
  set (s4 := leave (PreFrame_lightsToAdd host s3)).
  set (s5 := leave (PreFrame_addedNodes host s4)).
  set (s6 := PreFrame_adaptersToRecreate host s5).
  set (s7 := PreFrame_adaptersToRebuild host s6).
  pose proof (modifies_PreFrame_displayStyle context s) as M1. fold s1 in M1.
  pose proof (modifies_PreFrame_materialTags s1) as M3. fold s3 in M3.
  pose proof (modifies_PreFrame_lightsToAdd s3) as M4. fold s4 in M4.
  pose proof (modifies_PreFrame_adaptersToRebuild s6) as M7. fold s7 in M7.
  assert (recreate_avoids P s5) as Hrec5.
  { apply recreate_avoids_PreFrame_addedNodes; [done|].
    eapply recreate_avoids_modifies; [exact M4|field_notin|].
    eapply recreate_avoids_modifies; [exact M3|field_notin|].
    eapply recreate_avoids_modifies; [exact M1|field_notin|done]. }
  assert (keeps_light host P a s s7) as [K Kwf].
  { eapply keeps_light_trans; [eapply modifies_keeps_light; [exact M1|field_notin]|].
    eapply keeps_light_trans; [eapply modifies_keeps_light; [exact M3|field_notin]|].
    eapply keeps_light_trans; [by apply keeps_light_PreFrame_lightsToAdd|]. fold s4.
    eapply keeps_light_trans; [by apply keeps_light_PreFrame_addedNodes|]. fold s5.
    eapply keeps_light_trans; [by apply keeps_light_PreFrame_adaptersToRecreate|]. fold s6.
    eapply modifies_keeps_light; [exact M7|field_notin]. }
  destruct (PreFrame_lights_turns_on context s7 P a Hcr (Kwf Hwf) (K HP)) as [Hon Hwf'].
  split; [done|].
  intros id' a' Ha' Hdag. rewrite (Hwf' _ _ Ha'), Hdag. symmetry. by apply Hwf.
Qed.

End DelegateFacts.

Section QueryFacts.

Context {World MMatrix : Type} (host : @Host World MMatrix).
Context {T : QueryTypes} (methods : @AdapterMethods T).

Implicit Types (s : @MayaHydraSceneDelegate World) (id : SdfPath).

Lemma TfMapLookupPtr_None m id s :
  TfMapContains m id s = false → TfMapLookupPtr m id s = None.
Proof.
  destruct m; simpl; intros Hc; apply bool_decide_eq_false in Hc;
    match goal with |- _ <$> ?o = None => destruct o; [exfalso; eauto|done] end.
Qed.

Lemma _GetValue_in_no_table {R} `{ValueInit R} id (f : MayaHydraAdapter → R) ms s :
  in_no_table id s → _GetValue id f ms s = value_init.
Proof.
  intros Hid. induction ms as [|m0 ms IH]; simpl; [done|].
  by rewrite TfMapLookupPtr_None.
Qed.

Lemma GfMatrix4d_scalar_1 : GfMatrix4d_scalar (double_1 T) = GfMatrix4d_identity (T:=T).
Proof. done. Qed.

Lemma GetMaterialId_in_no_table id s :
  in_no_table id s →
  GetMaterialId host id s
  = (if _useDefaultMaterial s then _mayaDefaultMaterialPath else _fallbackMaterial, s).
Proof.
  intros Hid. unfold GetMaterialId.
  destruct (_useDefaultMaterial s); [done|].
  pose proof (Hid RenderItems) as Hr. pose proof (Hid Shapes) as Hs. simpl in Hr, Hs.
  apply bool_decide_eq_false in Hr. apply bool_decide_eq_false in Hs.
  destruct (_renderItemsAdapters s !! id); [exfalso; eauto|].
  destruct (_shapeAdapters s !! id); [exfalso; eauto|].
  by destruct (useMeshAdapter host).
Qed.

(** C7. For an identity path that is a key of no adapter table,
    [GetVisible] returns [false], [GetInstancerTransform] the identity
    matrix, and the twelve other queries that look the path itself up
    return the value-initialised result of their type.  So do [Get] and
    [GetPrimvarDescriptors], unless the path is a property path in
    mesh-adapter mode: the queries that look up the prim path of the
    identity ([GetInstanceIndices] and [GetRenderTag] always, [Get],
    [GetPrimvarDescriptors] and [SamplePrimvar] for a property path in
    mesh-adapter mode) return the value-initialised result when the prim
    path has no adapter in the tables they probe.  The other queries do not
    answer with a default: outside mesh-adapter mode [SamplePrimvar] is the
    base class's over [Get]; [GetMaterialId] answers the fallback material,
    or the default material when it is forced; [GetMaterialResource]
    answers the preview resource (the default material for the
    default-material path); [GetInstancerPrototypes] answers the prim path
    of the identity, [GetScenePrimPath] the identity itself and
    [GetShadingStyle] what the base class answers. *)
Theorem queries_of_unknown_identity_return_defaults id s :
  in_no_table id s →
  (GetVisible methods id s = false
   ∧ GetInstancerTransform (T:=T) id s = GfMatrix4d_identity
   ∧ GetMeshTopology methods id s = HdMeshTopology_init T
   ∧ GetBasisCurvesTopology methods id s = HdBasisCurvesTopology_init T
   ∧ GetSubdivTags methods id s = PxOsdSubdivTags_init T
   ∧ GetExtent methods id s = GfRange3d_init T
   ∧ GetTransform methods id s = GfMatrix4d_scalar (double_0 T)
   ∧ GetDoubleSided methods id s = false
   ∧ GetCullStyle methods id s = HdCullStyle_init T
   ∧ GetDisplayStyle methods id s = HdDisplayStyle_init T
   ∧ GetInstancerId host methods id s = SdfPath_EmptyPath
   ∧ (∀ maxSampleCount, SampleTransform methods id maxSampleCount s = (0, []))
   ∧ (∀ paramName, GetLightParamValue methods id paramName s = VtValue_init T)
   ∧ (∀ paramName, GetCameraParamValue methods id paramName s = VtValue_init T))
  ∧ (useMeshAdapter host = false ∨ IsPropertyPath host id = false
     ∨ _shapeAdapters s !! SdfPath_GetPrimPath host id = None →
     (∀ key, Get host methods id key s = VtValue_init T)
     ∧ (∀ interpolation,
          GetPrimvarDescriptors host methods id interpolation s
          = HdPrimvarDescriptorVector_init T))
  ∧ (_shapeAdapters s !! SdfPath_GetPrimPath host id = None →
     (∀ prototypeId, GetInstanceIndices host methods id prototypeId s = VtIntArray_init T)
     ∧ (_renderItemsAdapters s !! SdfPath_GetPrimPath host id = None →
        GetRenderTag host methods id s = ""))
  ∧ (useMeshAdapter host = true →
     IsPropertyPath host id = false
     ∨ _shapeAdapters s !! SdfPath_GetPrimPath host id = None →
     ∀ key maxSampleCount,
       SamplePrimvar host methods id key maxSampleCount s
       = if bool_decide (maxSampleCount < 1) then (0, [])
         else if IsPropertyPath host id then (1, [(double_0 T, VtValue_init T)])
         else (0, []))
  ∧ (useMeshAdapter host = false →
     ∀ key maxSampleCount,
       SamplePrimvar host methods id key maxSampleCount s
       = HdSceneDelegate_SamplePrimvar methods (λ id key, Get host methods id key s)
           id key maxSampleCount)
  ∧ GetMaterialId host id s
    = (if _useDefaultMaterial s then _mayaDefaultMaterialPath else _fallbackMaterial, s)
  ∧ GetMaterialResource methods id s
    = (if decide (id = _mayaDefaultMaterialPath) then _mayaDefaultMaterial methods
       else if decide (id = _fallbackMaterial) then GetPreviewMaterialResource methods id
       else if VtValue_IsEmpty methods (VtValue_init T)
            then GetPreviewMaterialResource methods id
            else VtValue_init T)
  ∧ GetInstancerPrototypes host id s = [SdfPath_GetPrimPath host id]
  ∧ (∀ instanceIndex, GetScenePrimPath id instanceIndex s = id)
  ∧ (∀ (VtValue_TfToken : TfToken → VtValue T) MayaHydraDelegateCtx_GetShadingStyle,
       GetShadingStyle VtValue_TfToken MayaHydraDelegateCtx_GetShadingStyle id s
       = MayaHydraDelegateCtx_GetShadingStyle id).
Proof.
  intros Hid.
  assert (∀ (R : Type) (H : ValueInit R) (f : MayaHydraAdapter → R),
            _shapeAdapters s !! SdfPath_GetPrimPath host id = None →
            _GetValue (SdfPath_GetPrimPath host id) f [Shapes] s = value_init) as Hshape.
  { intros R H f Hnone. simpl. by rewrite Hnone. }
  split; [|split; [|split; [|split; [|split; [|split; [|split; [|split; [|split]]]]]]]].
  - unfold GetVisible, GetInstancerTransform, GetMeshTopology, GetBasisCurvesTopology,
      GetSubdivTags, GetExtent, GetTransform, GetDoubleSided, GetCullStyle, GetDisplayStyle,
      GetInstancerId, SampleTransform, GetLightParamValue, GetCameraParamValue.
    repeat split; intros; rewrite ?_GetValue_in_no_table by done; try done.
    by destruct (IsPropertyPath host id).
  - intros Hcase. unfold Get, GetPrimvarDescriptors.
    destruct (useMeshAdapter host && IsPropertyPath host id) eqn:Hmode.
    + apply andb_true_iff in Hmode as [Hm Hp].
      destruct Hcase as [Hc|[Hc|Hc]]; [congruence|congruence|].
      split; intros; by apply Hshape.
    + split; intros; by rewrite _GetValue_in_no_table.
  - intros Hnone. unfold GetInstanceIndices, GetRenderTag. split.
    + intros. by apply Hshape.
    + intros Hri. simpl. by rewrite Hnone, Hri.
  - intros Hmesh Hcase key maxSampleCount. unfold SamplePrimvar. rewrite Hmesh.
    cbn [negb]. case_bool_decide; [done|].
    destruct (IsPropertyPath host id).
    + destruct Hcase as [?|Hnone]; [done|]. by rewrite Hshape.
    + by rewrite _GetValue_in_no_table.
  - intros Hmesh key maxSampleCount. unfold SamplePrimvar. by rewrite Hmesh.
  - by apply GetMaterialId_in_no_table.
  - unfold GetMaterialResource. repeat case_decide; try done.
    by rewrite _GetValue_in_no_table.
  - done.
  - done.
  - intros tok base. unfold GetShadingStyle.
    pose proof (Hid RenderItems) as Hr. simpl in Hr. apply bool_decide_eq_false in Hr.
    destruct (_renderItemsAdapters s !! id); [exfalso; eauto|done].
Qed.

End QueryFacts.

(** * The operations at work on the small scene *)

(** C1 at a concrete input: one render item is registered, then removed
    through [RemoveAdapter] by its path. *)
Lemma RemoveAdapter_leaves_fast_entry_witness :
  _renderItemsAdapters
    (RemoveAdapter (ex_host false true) (ria_GetID ex_ria) ex_one_render_item)
    !! ria_GetID ex_ria = None
  ∧ _renderItemsAdaptersFast
      (RemoveAdapter (ex_host false true) (ria_GetID ex_ria) ex_one_render_item)
      !! ria_GetFastID ex_ria = Some ex_ria
  ∧ ¬ renderItems_in_sync
        (RemoveAdapter (ex_host false true) (ria_GetID ex_ria) ex_one_render_item).
Proof.
  apply (RemoveAdapter_leaves_fast_entry (ex_host false true) ex_ria ex_one_render_item).
  - vm_compute. reflexivity.
  - vm_compute. reflexivity.
Defined.

(** C4 at a concrete input: flags 2 and then 4 for an identity with
    nothing pending. *)
Lemma RebuildAdapterOnIdle_twice_coalesces_witness :
  pending_rebuilds "/Rprims|cubeShape"
    (_adaptersToRebuild
       (RebuildAdapterOnIdle "/Rprims|cubeShape" 4
          (RebuildAdapterOnIdle "/Rprims|cubeShape" 2 (ex_empty ex_world0))))
  = [("/Rprims|cubeShape", 6%N)].
Proof.
  apply (proj1 (RebuildAdapterOnIdle_twice_coalesces "/Rprims|cubeShape" 2 4
                  (ex_empty ex_world0))).
  reflexivity.
Defined.

(** C10 at a concrete input: the light node 1 is announced and removed
    while nothing else is pending. *)
Lemma OnDagNode_handlers_only_touch_queues_witness :
  OnDagNodeRemoved (ex_host false true) 1
    (OnDagNodeAdded (ex_host false true) 1 (ex_empty ex_world0))
  = ex_empty ex_world0
  ∧ _lightsToAdd (OnDagNodeAdded (ex_host false true) 1 (ex_empty ex_world0))
    = [(1, ex_light)].
Proof.
  split; [|reflexivity].
  apply (OnDagNode_handlers_only_touch_queues (ex_host false true) 1 (ex_empty ex_world0)).
  - repeat split; simpl; auto.
  - simpl. apply not_elem_of_nil.
  - simpl. apply not_elem_of_nil.
Defined.

(** C9 at a concrete input: the shape with two instance paths, whose master
    adapter is marked instanced, gains an instance. *)
Lemma AddNewInstance_recreates_or_rebuilds_witness :
  _adaptersToRecreate (AddNewInstance (ex_host true true) "|b|inst" ex_one_instanced_shape)
  = []
  ∧ _adaptersToRebuild (AddNewInstance (ex_host true true) "|b|inst" ex_one_instanced_shape)
    = [("/Rprims|a|inst", 4%N)]
  ∧ ex_calls (world (AddNewInstance (ex_host true true) "|b|inst" ex_one_instanced_shape))
    = [(Shapes, "/Rprims|a|inst", MarkDirty 196672)].
Proof.
  destruct (AddNewInstance_recreates_or_rebuilds (ex_host true true)
              "|b|inst" "|a|inst" ["|b|inst"] ex_instanced ex_one_instanced_shape)
    as [_ H].
  - reflexivity.
  - vm_compute. reflexivity.
  - destruct H as (H1 & H2 & _ & H4 & _); [discriminate|reflexivity|].
    rewrite H1, H2, H4. vm_compute. repeat split.
Defined.

(** C3 at a concrete input: the unresolvable light 2 is queued in front of
    the resolvable light 1.  The pass changes nothing: light 1 gets no
    adapter and every queue keeps its entries. *)
Lemma PreFrame_unresolved_light_ends_pass_witness :
  PreFrame (ex_host false true) ex_context0 ex_unresolved_light = ex_unresolved_light
  ∧ _lightAdapters (PreFrame (ex_host false true) ex_context0 ex_unresolved_light) = ∅
  ∧ _lightsToAdd (PreFrame (ex_host false true) ex_context0 ex_unresolved_light)
    = [(2, ex_light); (1, ex_light)].
Proof.
  destruct (PreFrame_unresolved_light_ends_pass (ex_host false true) ex_context0
              ex_unresolved_light 2 ex_light [] [(1, ex_light)])
    as (_ & H & _).
  - reflexivity.
  - constructor.
  - reflexivity.
  - rewrite H. vm_compute. repeat split.
Defined.

(** C5 at a concrete input: with the unresolvable light queued, the shape
    queued for recreation and for rebuild is still queued for both after
    the pass. *)
Lemma PreFrame_unresolved_light_leaves_recreate_and_rebuild_queued_witness :
  _adaptersToRecreate (PreFrame (ex_host false true) ex_context0 ex_unresolved_light)
  = [("/Rprims|cubeShape", 3)]
  ∧ _adaptersToRebuild (PreFrame (ex_host false true) ex_context0 ex_unresolved_light)
    ≠ [].
Proof.
  destruct (PreFrame_unresolved_light_leaves_recreate_and_rebuild_queued
              (ex_host false true) ex_context0 ex_unresolved_light 2 ex_light
              "/Rprims|cubeShape" 3 4%N)
    as (H1 & _ & _ & _ & H5).
  - apply elem_of_cons. by left.
  - reflexivity.
  - apply elem_of_cons. by left.
  - apply elem_of_cons. by left.
  - split; [exact H1|exact H5].
Defined.

(** C2, as stated, fails: the light adapter of [|light1] exists with
    lighting off, the draw context enumerates no light at all, and after
    the pass its lighting-enabled state is true, not false. *)
Lemma PreFrame_unlisted_light_counterexample :
  _lightAdapters ex_one_light !! "/Lights|light1" = Some (ex_light1 false)
  ∧ ¬ enumerates_light (ex_host false true) ex_context0 "/Lights|light1"
  ∧ la_lightingOn
      <$> _lightAdapters (PreFrame (ex_host false true) ex_context0 ex_one_light)
          !! "/Lights|light1"
    = Some true.
Proof.
  split; [vm_compute; reflexivity|]. split; [|vm_compute; reflexivity].
  intros (i & lightParam & Hi & _). simpl in Hi. lia.
Qed.

Lemma ex_light_creators_wf mesh hdSt : light_creators_wf (ex_host mesh hdSt).
Proof.
  intros dag creator a Hc Ha. simpl in Hc. case_decide; [|done].
  injection Hc as <-. by injection Ha as <-.
Defined.

(** C2 at a concrete input: the same adapter and draw context. *)
Lemma PreFrame_turns_existing_light_on_witness :
  _lightAdapters (PreFrame (ex_host false true) ex_context0 ex_one_light)
    !! "/Lights|light1"
  = Some (ex_light1 true).
Proof.
  apply (PreFrame_turns_existing_light_on (ex_host false true) ex_context0 ex_one_light
           "/Lights|light1" (ex_light1 false)).
  - reflexivity.
  - apply ex_light_creators_wf.
  - intros id a Hl. simpl in Hl. apply lookup_singleton_Some in Hl as [<- <-]. reflexivity.
  - split; constructor.
  - apply not_elem_of_nil.
  - discriminate.
  - vm_compute. reflexivity.
Defined.

(** C6, as stated, fails in mesh-adapter mode: the shape adapter's material
    is not registered, its adapter is created on the spot, and the
    material's path is returned where the stated order gives the
    fallback. *)
Lemma GetMaterialId_lazy_creation_counterexample :
  _useDefaultMaterial ex_one_shape = false
  ∧ is_line_render_item "/Rprims|cubeShape" ex_one_shape = false
  ∧ _materialAdapters ex_one_shape !! "/Materials/sg" = None
  ∧ (GetMaterialId (ex_host true true) "/Rprims|cubeShape" ex_one_shape).1 = "/Materials/sg"
  ∧ GetMaterialId_as_specified (ex_host true true) "/Rprims|cubeShape" ex_one_shape
    = _fallbackMaterial
  ∧ (GetMaterialId (ex_host true true) "/Rprims|cubeShape" ex_one_shape).1
    ≠ GetMaterialId_as_specified (ex_host true true) "/Rprims|cubeShape" ex_one_shape.
Proof. vm_compute. repeat split. discriminate. Qed.

(** C6 at a concrete input: the same shape; the material adapter is
    created and registered by the query. *)
Lemma GetMaterialId_resolution_order_witness :
  (GetMaterialId (ex_host true true) "/Rprims|cubeShape" ex_one_shape).1 = "/Materials/sg"
  ∧ _materialAdapters (GetMaterialId (ex_host true true) "/Rprims|cubeShape" ex_one_shape).2
      !! "/Materials/sg"
    = Some ex_sg.
Proof.
  destruct (GetMaterialId_resolution_order (ex_host true true) "/Rprims|cubeShape"
              ex_one_shape) as [_ H].
  destruct (H eq_refl) as [_ H1].
  destruct (H1 (or_introl eq_refl)) as [_ H2].
  destruct (H2 eq_refl) as [_ H3].
  destruct (H3 ex_cubeShape) as [_ H4]; [vm_compute; reflexivity|].
  destruct H4 as [_ H5]; [discriminate|].
  rewrite H5; [|vm_compute; reflexivity]. vm_compute. split; reflexivity.
Defined.

(** C7, as stated, fails.  In mesh-adapter mode the property path of an
    instancer is a key of no adapter table, and [Get] answers with the
    instance primvar of the shape adapter of its prim path.  For a path
    that no table of the empty delegate knows, [GetMaterialResource]
    answers the preview resource, [GetInstancerPrototypes] a vector that
    holds the path, [GetScenePrimPath] the path itself, and, when the
    default material is forced, [GetMaterialId] the default material. *)
Lemma queries_of_unknown_identity_counterexample :
  (in_no_table "/Rprims|a|inst.instancer" ex_one_instanced_shape
   ∧ Get (ex_host true true) ex_methods "/Rprims|a|inst.instancer" "instanceTransform"
       ex_one_instanced_shape
     = Some 2
   ∧ Get (ex_host true true) ex_methods "/Rprims|a|inst.instancer" "instanceTransform"
       ex_one_instanced_shape
     ≠ VtValue_init ex_types)
  ∧ (in_no_table "/Rprims|nowhere" (ex_empty ex_world0)
     ∧ GetMaterialResource ex_methods "/Rprims|nowhere" (ex_empty ex_world0) = Some 6
     ∧ GetMaterialResource ex_methods "/Rprims|nowhere" (ex_empty ex_world0)
       ≠ VtValue_init ex_types
     ∧ GetInstancerPrototypes (ex_host false true) "/Rprims|nowhere"
         (ex_empty ex_world0)
       = ["/Rprims|nowhere"]
     ∧ GetScenePrimPath "/Rprims|nowhere" 0 (ex_empty ex_world0)
       = "/Rprims|nowhere")
  ∧ (in_no_table "/Rprims|nowhere" (set_useDefaultMaterial true (ex_empty ex_world0))
     ∧ (GetMaterialId (ex_host false true) "/Rprims|nowhere"
          (set_useDefaultMaterial true (ex_empty ex_world0))).1
       = "/__maya_default_material__").
Proof.
  split; [|split].
  - split; [intros m; destruct m; vm_compute; reflexivity|].
    split; [vm_compute; reflexivity|]. vm_compute. discriminate.
  - split; [intros m; destruct m; reflexivity|].
    split; [vm_compute; reflexivity|]. split; [vm_compute; discriminate|].
    split; vm_compute; reflexivity.
  - split; [intros m; destruct m; reflexivity|]. reflexivity.
Qed.

(** C7 at a concrete input: a path unknown to the empty delegate. *)
Lemma queries_of_unknown_identity_return_defaults_witness :
  GetVisible ex_methods "/Rprims|nowhere" (ex_empty ex_world0) = false
  ∧ GetInstancerTransform (T:=ex_types) "/Rprims|nowhere" (ex_empty ex_world0)
    = GfMatrix4d_identity
  ∧ GetRenderTag (ex_host true true) ex_methods "/Rprims|nowhere" (ex_empty ex_world0) = ""
  ∧ GetMaterialId (ex_host true true) "/Rprims|nowhere" (ex_empty ex_world0)
    = ("", ex_empty ex_world0).
Proof.
  destruct (queries_of_unknown_identity_return_defaults (ex_host true true) ex_methods
              "/Rprims|nowhere" (ex_empty ex_world0))
    as ((H1 & H2 & _) & _ & H3 & _ & _ & H4 & _).
  - intros m. destruct m; reflexivity.
  - split; [exact H1|]. split; [exact H2|]. split; [|exact H4].
    apply H3; reflexivity.
Defined.

(** A pass that nothing cuts short: the queued light 1 gets its adapter,
    populated and switched on, and its queue is cleared. *)
Example PreFrame_creates_queued_light :
  let s := PreFrame (ex_host false true) ex_context0
             (set_lightsToAdd [(1, ex_light)] (ex_empty ex_world0)) in
  _lightAdapters s = {[ "/Lights|light1" := ex_light1 true ]}
  ∧ _lightsToAdd s = []
  ∧ ex_calls (world s)
    = [(Lights, "/Lights|light1", Populate);
       (Lights, "/Lights|light1", CreateCallbacks);
       (Lights, "/Lights|light1", CallSetLightingOn true)].
Proof. vm_compute. repeat split. Qed.

(** A pass that nothing cuts short, in mesh-adapter mode, with a shape
    queued both for recreation and for a prim rebuild: the shape adapter is
    removed and inserted again, with its material; no rebuild follows and
    both queues end up empty. *)
Example PreFrame_recreates_without_rebuilding :
  let s := PreFrame (ex_host true true) ex_context0
             (set_adaptersToRecreate [("/Rprims|cubeShape", 3)]
                (set_adaptersToRebuild [("/Rprims|cubeShape", 2%N)] ex_one_shape)) in
  _adaptersToRecreate s = []
  ∧ _adaptersToRebuild s = []
  ∧ _shapeAdapters s = {[ "/Rprims|cubeShape" := ex_cubeShape ]}
  ∧ ex_calls (world s)
    = [(Shapes, "/Rprims|cubeShape", RemoveCallbacks);
       (Shapes, "/Rprims|cubeShape", RemovePrim);
       (Shapes, "/Rprims|cubeShape", Populate);
       (Shapes, "/Rprims|cubeShape", CreateCallbacks);
       (Materials, "/Materials/sg", Populate);
       (Materials, "/Materials/sg", CreateCallbacks)].
Proof. vm_compute. repeat split. Qed.

(** The same rebuild without a queued recreation is applied: the prim is
    removed and populated again. *)
Example PreFrame_applies_rebuild :
  let s := PreFrame (ex_host true true) ex_context0
             (set_adaptersToRebuild [("/Rprims|cubeShape", 2%N)] ex_one_shape) in
  _adaptersToRebuild s = []
  ∧ ex_calls (world s)
    = [(Shapes, "/Rprims|cubeShape", RemovePrim);
       (Shapes, "/Rprims|cubeShape", Populate)].
Proof. vm_compute. repeat split. Qed.

(** The default-material override wins for every identity. *)
Example GetMaterialId_default_material :
  (GetMaterialId (ex_host true true) "/Rprims|cubeShape"
     (set_useDefaultMaterial true ex_one_shape)).1
  = "/__maya_default_material__".
Proof. reflexivity. Qed.

(** A render item that draws lines resolves to the fallback material. *)
Example GetMaterialId_line_render_item :
  (GetMaterialId (ex_host false true) "/Rprims|curve/wire_9"
     (_AddRenderItem
        {| ria_GetID := "/Rprims|curve/wire_9"; ria_GetFastID := 9;
           ria_GetPrimitive := kLines; ria_GetMaterial := "/Materials/sg" |}
        (ex_empty ex_world0))).1
  = "".
Proof. vm_compute. reflexivity. Qed.

(** * Further properties of the delegate *)

Ltac field_in :=
  solve [repeat first [apply list_elem_of_here | apply list_elem_of_further]].

Ltac field_sub :=
  let x := fresh "x" in
  let Hx := fresh "Hx" in
  intros x Hx;
  repeat (apply elem_of_cons in Hx as [->|Hx]; [field_in|]);
  by apply elem_of_nil in Hx.

Ltac solve_modifies :=
  let f := fresh "f" in
  let Hf := fresh "Hf" in
  intros f Hf; destruct f; simpl; try done; exfalso; apply Hf; field_in.

Ltac field_notin :=
  let Hx := fresh "Hx" in
  intros Hx;
  repeat (apply elem_of_cons in Hx as [Hx|Hx]; [discriminate|]);
  by apply elem_of_nil in Hx.

Ltac use_unchanged H F :=
  let Hu := fresh "Hu" in
  assert (Hu := H F ltac:(field_notin)); simpl in Hu.


(** ** Material tags and the rebuild of render prims *)

Section RebuildFacts.

Context {World MMatrix : Type} (host : @Host World MMatrix).

Implicit Types (s : @MayaHydraSceneDelegate World) (id P : SdfPath) (obj : MObject).

(** *** The material-tag queue on a backend other than Storm *)






(** *** What the material-tag block queues on Storm *)


(** *** The queued rebuild when the pass returns *)







End RebuildFacts.

(** *** The calls a pass makes *)

Section CallFacts.

Context {World MMatrix : Type} (host : @Host World MMatrix).
Variable calls : World → list (Table * SdfPath * @AdapterCall MMatrix).

Implicit Types (s : @MayaHydraSceneDelegate World) (id P : SdfPath) (obj : MObject).
































End CallFacts.

(** *** The shape adapter and the queued rebuild up to the rebuild block *)

Section ShapeFacts.

Context {World MMatrix : Type} (host : @Host World MMatrix).

Implicit Types (s : @MayaHydraSceneDelegate World) (id P : SdfPath) (obj : MObject).













End ShapeFacts.

(** *** The rebuild block applies the queued rebuild *)

Section RebuildApplied.

Context {World MMatrix : Type} (host : @Host World MMatrix).
Variable calls : World → list (Table * SdfPath * @AdapterCall MMatrix).

Implicit Types (s : @MayaHydraSceneDelegate World) (id P : SdfPath) (obj : MObject).







End RebuildApplied.

Section MaterialTagFacts.

Context {World MMatrix : Type} (host : @Host World MMatrix).

Implicit Types (s : @MayaHydraSceneDelegate World) (id : SdfPath).


End MaterialTagFacts.




Section MoreDelegateFacts.

Context {World MMatrix : Type} (host : @Host World MMatrix).

Implicit Types (s : @MayaHydraSceneDelegate World) (id : SdfPath) (obj : MObject).

(** ** Render-item tables *)

(** X1. Registering a render-item adapter whose fast key and path are both
    free enters it under both keys, so the lookup by fast key finds it, and
    removing it again gives back the delegate as it was.  Both operations
    keep the two tables paired: every entry keeps its twin in the other
    table, and a removed adapter is gone from both. *)
Theorem _AddRenderItem_lookup_remove ria s :
  _renderItemsAdaptersFast s !! ria_GetFastID ria = None →
  _renderItemsAdapters s !! ria_GetID ria = None →
  _GetRenderItem (ria_GetFastID ria) (_AddRenderItem ria s) = Some ria
  ∧ _renderItemsAdapters (_AddRenderItem ria s) !! ria_GetID ria = Some ria
  ∧ _RemoveRenderItem ria (_AddRenderItem ria s) = s
  ∧ (renderItems_wf s → renderItems_wf (_AddRenderItem ria s))
  ∧ (renderItems_wf s →
     ∀ r, _renderItemsAdaptersFast s !! ria_GetFastID r = Some r →
          renderItems_wf (_RemoveRenderItem r s)
          ∧ _GetRenderItem (ria_GetFastID r) (_RemoveRenderItem r s) = None
          ∧ _renderItemsAdapters (_RemoveRenderItem r s) !! ria_GetID r = None).
Proof.
  intros Hf Hp. split; [|split; [|split; [|split]]].
  - unfold _GetRenderItem, _AddRenderItem. simpl.
    rewrite (map_insert_new_fresh (ria_GetFastID ria)) by done. apply lookup_insert_eq.
  - unfold _AddRenderItem. simpl.
    rewrite (map_insert_new_fresh (ria_GetID ria)) by done. apply lookup_insert_eq.
  - unfold _AddRenderItem, _RemoveRenderItem. simpl.
    rewrite !map_insert_new_fresh by done. rewrite !delete_insert_id by done.
    by destruct s.
  - intros Hwf. by apply _AddRenderItem_wf.
  - intros Hwf r Hin. split; [by apply _RemoveRenderItem_wf|].
    unfold _GetRenderItem, _RemoveRenderItem. simpl. split; apply lookup_delete_eq.
Qed.

(** X2. [_AddRenderItem] inserts without replacing: when the path of the
    new adapter is already taken by another adapter, the path table keeps
    the old adapter while the fast table takes the new one, and the two
    tables are no longer paired. *)
Theorem _AddRenderItem_keeps_existing_path ria old s :
  _renderItemsAdapters s !! ria_GetID ria = Some old →
  _renderItemsAdaptersFast s !! ria_GetFastID ria = None →
  old ≠ ria →
  _renderItemsAdapters (_AddRenderItem ria s) = _renderItemsAdapters s
  ∧ _GetRenderItem (ria_GetFastID ria) (_AddRenderItem ria s) = Some ria
  ∧ ¬ renderItems_in_sync (_AddRenderItem ria s).
Proof.
  intros Hp Hf Hne. unfold _GetRenderItem, _AddRenderItem. simpl.
  rewrite (map_insert_new_fresh (ria_GetFastID ria)) by done. rewrite lookup_insert_eq.
  assert (map_insert_new (ria_GetID ria) ria (_renderItemsAdapters s)
          = _renderItemsAdapters s) as Hkeep.
  { unfold map_insert_new. by rewrite Hp. }
  rewrite Hkeep. split; [done|]. split; [done|].
  intros Hsync. specialize (Hsync ria). simpl in Hsync.
  rewrite lookup_insert_eq, Hp in Hsync.
  destruct Hsync as [Hsync _]. specialize (Hsync eq_refl). congruence.
Qed.

(** ** Removal by identity *)

Lemma _RemoveAdapter_absent id f ms s :
  Forall (λ m, TfMapContains m id s = false) ms → _RemoveAdapter id f ms s = (false, s).
Proof.
  induction 1 as [|m ms Hm _ IH]; simpl; [done|]. by rewrite Hm.
Qed.

Lemma _RemoveAdapter_first id f pre m post s :
  Forall (λ m, TfMapContains m id s = false) pre → TfMapContains m id s = true →
  _RemoveAdapter id f (pre ++ m :: post) s = (true, erase m id (f m id s)).
Proof.
  induction 1 as [|m0 pre Hm0 _ IH]; simpl; intros Hm; [by rewrite Hm|].
  rewrite Hm0. by apply IH.
Qed.

Lemma TfMapContains_erase_RemoveCallbacks_RemovePrim m m' id s :
  TfMapContains m' id (erase m id (RemoveCallbacks_RemovePrim host m id s))
  = if decide (m' = m) then false else TfMapContains m' id s.
Proof.
  case_decide as Hm.
  - subst m'. destruct m; simpl; rewrite lookup_delete_eq;
      apply bool_decide_eq_false; by intros [? ?].
  - destruct m, m'; try done.
Qed.

(** X3. [RemoveAdapter] probes the render-item, shape, light and material
    tables in this order and erases the identity from the first table that
    holds it, and from that one only: a later table that also holds the
    identity keeps its entry.  The camera table, the fast render-item table
    and the queues are never changed, and an identity found in none of the
    four tables leaves the delegate as it is. *)
Theorem RemoveAdapter_first_table_only id s :
  modifies [FRenderItems; FShapes; FLights; FMaterials; FWorld] s (RemoveAdapter host id s)
  ∧ (Forall (λ m, TfMapContains m id s = false) [RenderItems; Shapes; Lights; Materials] →
     RemoveAdapter host id s = s)
  ∧ (∀ pre m post,
       [RenderItems; Shapes; Lights; Materials] = pre ++ m :: post →
       Forall (λ m, TfMapContains m id s = false) pre →
       TfMapContains m id s = true →
       TfMapContains m id (RemoveAdapter host id s) = false
       ∧ ∀ m', m' ≠ m →
           TfMapContains m' id (RemoveAdapter host id s) = TfMapContains m' id s).
Proof.
  unfold RemoveAdapter. split; [|split].
  - cbn [_RemoveAdapter]. unfold RemoveCallbacks_RemovePrim, call.
    repeat case_match; simpl; solve_modifies.
  - intros Hno. by rewrite _RemoveAdapter_absent.
  - intros pre m post -> Hpre Hm.
    rewrite (_RemoveAdapter_first _ _ _ _ _ _ Hpre Hm). simpl.
    split.
    + rewrite TfMapContains_erase_RemoveCallbacks_RemovePrim. by rewrite decide_True.
    + intros m' Hne. rewrite TfMapContains_erase_RemoveCallbacks_RemovePrim.
      by rewrite decide_False.
Qed.


(** ** Pending-work queues *)

Lemma RecreateAdapterOnIdle_find_split id obj q q' :
  RecreateAdapterOnIdle_find id obj q = Some q' →
  ∃ l1 old l2, q = l1 ++ (id, old) :: l2 ∧ q' = l1 ++ (id, obj) :: l2 ∧ id ∉ l1.*1.
Proof.
  revert q'. induction q as [|it q IH]; intros q'; simpl; [done|].
  destruct (decide (it.1 = id)) as [Heq|Hne].
  - intros [= <-]. exists [], it.2, q. destruct it as [k v]. simpl in *. subst.
    repeat split. apply not_elem_of_nil.
  - destruct (RecreateAdapterOnIdle_find id obj q) as [q0|] eqn:Hq; simpl; [|done].
    intros [= <-]. destruct (IH _ eq_refl) as (l1 & old & l2 & -> & -> & Hl1).
    exists (it :: l1), old, l2. repeat split. rewrite ?fmap_cons.
    intros Hin. apply elem_of_cons in Hin as [Hin|Hin]; [by apply Hne|done].
Qed.

Lemma RecreateAdapterOnIdle_find_None id obj q :
  RecreateAdapterOnIdle_find id obj q = None → id ∉ q.*1.
Proof.
  induction q as [|it q IH]; simpl; [intros _; apply not_elem_of_nil|].
  destruct (decide (it.1 = id)) as [Heq|Hne]; [done|].
  destruct (RecreateAdapterOnIdle_find id obj q); simpl; [done|]. intros _.
  rewrite ?fmap_cons. intros Hin. apply elem_of_cons in Hin as [Hin|Hin]; [by apply Hne|].
  by apply IH.
Qed.

Lemma pending_recreates_notin id (q : list (SdfPath * MObject)) :
  id ∉ q.*1 → pending_recreates id q = [].
Proof.
  unfold pending_recreates. induction q as [|it q IH]; [done|]. rewrite fmap_cons.
  intros Hin. rewrite filter_cons_False.
  - apply IH. intros H. apply Hin. apply elem_of_cons. by right.
  - intros Heq. apply Hin. apply elem_of_cons. by left.
Qed.

Lemma pending_recreates_app id (q1 q2 : list (SdfPath * MObject)) :
  pending_recreates id (q1 ++ q2) = pending_recreates id q1 ++ pending_recreates id q2.
Proof. apply filter_app. Qed.

(** X4. The recreate queue is last-write-wins: when no identity is queued
    twice, [RecreateAdapterOnIdle] leaves exactly one entry for the
    identity, carrying the node of this call, leaves the entries of every
    other identity as they were and keeps the identities of the queue
    distinct.  Nothing but the recreate queue changes. *)
Theorem RecreateAdapterOnIdle_last_write_wins id obj s :
  NoDup (_adaptersToRecreate s).*1 →
  NoDup (_adaptersToRecreate (RecreateAdapterOnIdle id obj s)).*1
  ∧ pending_recreates id (_adaptersToRecreate (RecreateAdapterOnIdle id obj s)) = [(id, obj)]
  ∧ (∀ id', id' ≠ id →
       pending_recreates id' (_adaptersToRecreate (RecreateAdapterOnIdle id obj s))
       = pending_recreates id' (_adaptersToRecreate s))
  ∧ modifies [FRecreate] s (RecreateAdapterOnIdle id obj s).
Proof.
  intros Hnd. split; [|split; [|split]]; [| | |apply modifies_RecreateAdapterOnIdle];
    unfold RecreateAdapterOnIdle;
    destruct (RecreateAdapterOnIdle_find id obj (_adaptersToRecreate s)) as [q'|] eqn:Hf;
    simpl.
  - by rewrite (RecreateAdapterOnIdle_find_keys _ _ _ _ Hf).
  - apply RecreateAdapterOnIdle_find_None in Hf. rewrite fmap_app. simpl.
    apply NoDup_app. split; [done|]. split; [|apply NoDup_singleton].
    intros x Hx Hx'. apply list_elem_of_singleton in Hx'. by subst x.
  - destruct (RecreateAdapterOnIdle_find_split _ _ _ _ Hf) as (l1 & old & l2 & Hq & -> & Hl1).
    rewrite Hq, fmap_app, fmap_cons in Hnd. apply NoDup_app in Hnd as (_ & _ & Hnd).
    apply NoDup_cons in Hnd as [Hl2 _]. simpl in Hl2.
    rewrite pending_recreates_app, (pending_recreates_notin id l1) by done.
    unfold pending_recreates at 1. rewrite filter_cons_True by done.
    fold (pending_recreates id l2). by rewrite pending_recreates_notin.
  - apply RecreateAdapterOnIdle_find_None in Hf.
    rewrite pending_recreates_app, pending_recreates_notin by done.
    unfold pending_recreates. by rewrite filter_cons_True.
  - intros id' Hne.
    destruct (RecreateAdapterOnIdle_find_split _ _ _ _ Hf) as (l1 & old & l2 & -> & -> & _).
    rewrite !pending_recreates_app. f_equal. unfold pending_recreates.
    rewrite !filter_cons_False; [done|simpl; congruence|simpl; congruence].
  - intros id' Hne. rewrite pending_recreates_app. unfold pending_recreates at 2.
    rewrite filter_cons_False by (simpl; congruence). by rewrite app_nil_r.
Qed.

(** X5. [MaterialTagChanged] queues a material at most once: the queue
    holds the identity afterwards, holds nothing else new, stays free of
    duplicates, and a second call changes nothing. *)
Theorem MaterialTagChanged_queues_once id s :
  NoDup (_materialTagsChanged s) →
  NoDup (_materialTagsChanged (MaterialTagChanged id s))
  ∧ (∀ id', id' ∈ _materialTagsChanged (MaterialTagChanged id s)
            ↔ id' = id ∨ id' ∈ _materialTagsChanged s)
  ∧ MaterialTagChanged id (MaterialTagChanged id s) = MaterialTagChanged id s
  ∧ modifies [FMaterialTags] s (MaterialTagChanged id s).
Proof.
  intros Hnd. destruct (decide (id ∈ _materialTagsChanged s)) as [Hin|Hout].
  - assert (MaterialTagChanged id s = s) as Hs.
    { unfold MaterialTagChanged. by rewrite decide_True. }
    rewrite !Hs. split; [done|]. split; [|split; [done|apply modifies_refl]].
    intros id'. split; [auto|]. by intros [->|?].
  - assert (MaterialTagChanged id s
            = set_materialTagsChanged (_materialTagsChanged s ++ [id]) s) as Hs.
    { unfold MaterialTagChanged. by rewrite decide_False. }
    rewrite !Hs. simpl. split; [|split; [|split; [|solve_modifies]]].
    + apply NoDup_app. split; [done|]. split; [|apply NoDup_singleton].
      intros x Hx Hx'. apply list_elem_of_singleton in Hx'. by subst x.
    + intros id'. rewrite elem_of_app, list_elem_of_singleton. tauto.
    + unfold MaterialTagChanged. simpl. rewrite decide_True; [done|].
      apply elem_of_app. right. by apply list_elem_of_singleton.
Qed.

(** ** Adapter creation *)

Lemma CreateLightAdapter_None dag s :
  (CreateLightAdapter host dag s).1 = None → (CreateLightAdapter host dag s).2 = s.
Proof. unfold CreateLightAdapter, _CreateAdapter. by repeat case_match. Qed.

Lemma CreateCameraAdapter_None dag s :
  (CreateCameraAdapter host dag s).1 = None → (CreateCameraAdapter host dag s).2 = s.
Proof. unfold CreateCameraAdapter, _CreateAdapter. by repeat case_match. Qed.

Lemma CreateShapeAdapter_None dag s :
  (CreateShapeAdapter host dag s).1 = None → (CreateShapeAdapter host dag s).2 = s.
Proof. unfold CreateShapeAdapter, _CreateAdapter. by repeat case_match. Qed.

Lemma CreateLightAdapter_Some dag a s :
  (CreateLightAdapter host dag s).1 = Some a →
  adapter_entered host Lights _lightAdapters (GetPrimPath host dag true) a s
    (CreateLightAdapter host dag s).2.
Proof.
  unfold CreateLightAdapter, _CreateAdapter, adapter_entered.
  repeat case_match; simpl; try done. intros [= ->].
  by rewrite map_insert_new_fresh.
Qed.

Lemma CreateCameraAdapter_Some dag a s :
  (CreateCameraAdapter host dag s).1 = Some a →
  adapter_entered host Cameras _cameraAdapters (GetPrimPath host dag true) a s
    (CreateCameraAdapter host dag s).2.
Proof.
  unfold CreateCameraAdapter, _CreateAdapter, adapter_entered.
  repeat case_match; simpl; try done. intros [= ->].
  by rewrite map_insert_new_fresh.
Qed.

Lemma CreateShapeAdapter_Some dag a s :
  (CreateShapeAdapter host dag s).1 = Some a →
  adapter_entered host Shapes _shapeAdapters (GetPrimPath host dag false) a s
    (CreateShapeAdapter host dag s).2.
Proof.
  unfold CreateShapeAdapter, _CreateAdapter, adapter_entered.
  repeat case_match; simpl; try done. intros [= ->].
  by rewrite map_insert_new_fresh.
Qed.

Lemma CreateLightAdapter_twice dag s :
  is_Some (CreateLightAdapter host dag s).1 →
  CreateLightAdapter host dag (CreateLightAdapter host dag s).2
  = (None, (CreateLightAdapter host dag s).2).
Proof.
  intros [a Ha]. destruct (CreateLightAdapter_Some dag a s Ha) as (_ & Hin & _).
  unfold CreateLightAdapter at 1. unfold _CreateAdapter.
  rewrite Hin, lookup_insert_eq. by repeat case_match.
Qed.

Lemma CreateCameraAdapter_twice dag s :
  is_Some (CreateCameraAdapter host dag s).1 →
  CreateCameraAdapter host dag (CreateCameraAdapter host dag s).2
  = (None, (CreateCameraAdapter host dag s).2).
Proof.
  intros [a Ha]. destruct (CreateCameraAdapter_Some dag a s Ha) as (_ & Hin & _).
  unfold CreateCameraAdapter at 1. unfold _CreateAdapter.
  rewrite Hin, lookup_insert_eq. by repeat case_match.
Qed.

Lemma CreateShapeAdapter_twice dag s :
  is_Some (CreateShapeAdapter host dag s).1 →
  CreateShapeAdapter host dag (CreateShapeAdapter host dag s).2
  = (None, (CreateShapeAdapter host dag s).2).
Proof.
  intros [a Ha]. destruct (CreateShapeAdapter_Some dag a s Ha) as (_ & Hin & _).
  unfold CreateShapeAdapter at 1. unfold _CreateAdapter.
  rewrite Hin, lookup_insert_eq. by repeat case_match.
Qed.

(** X6. The three instances of [_CreateAdapter] either enter a new adapter
    or do nothing at all: a creation that returns no adapter leaves the
    delegate untouched (no prim is populated, no callback registered), and
    one that returns an adapter found its identity free, entered the
    adapter under it and populated it before registering its callbacks.
    Lights and cameras are keyed by their sprim path, shapes by their rprim
    path.  There is at most one adapter per identity in a table: creating
    for the same DAG path again returns no adapter and changes nothing. *)
Theorem CreateAdapter_enters_or_does_nothing dag s :
  (match (CreateLightAdapter host dag s).1 with
   | Some a => adapter_entered host Lights _lightAdapters (GetPrimPath host dag true) a s
                 (CreateLightAdapter host dag s).2
               ∧ CreateLightAdapter host dag (CreateLightAdapter host dag s).2
                 = (None, (CreateLightAdapter host dag s).2)
   | None => (CreateLightAdapter host dag s).2 = s
   end)
  ∧ (match (CreateCameraAdapter host dag s).1 with
     | Some a => adapter_entered host Cameras _cameraAdapters (GetPrimPath host dag true) a s
                   (CreateCameraAdapter host dag s).2
                 ∧ CreateCameraAdapter host dag (CreateCameraAdapter host dag s).2
                   = (None, (CreateCameraAdapter host dag s).2)
     | None => (CreateCameraAdapter host dag s).2 = s
     end)
  ∧ (match (CreateShapeAdapter host dag s).1 with
     | Some a => adapter_entered host Shapes _shapeAdapters (GetPrimPath host dag false) a s
                   (CreateShapeAdapter host dag s).2
                 ∧ CreateShapeAdapter host dag (CreateShapeAdapter host dag s).2
                   = (None, (CreateShapeAdapter host dag s).2)
     | None => (CreateShapeAdapter host dag s).2 = s
     end).
Proof.
  split; [|split].
  - pose proof (CreateLightAdapter_twice dag s) as Htwice.
    destruct (CreateLightAdapter host dag s).1 eqn:H;
      [split; [by apply CreateLightAdapter_Some|apply Htwice; eauto]
      |by apply CreateLightAdapter_None].
  - pose proof (CreateCameraAdapter_twice dag s) as Htwice.
    destruct (CreateCameraAdapter host dag s).1 eqn:H;
      [split; [by apply CreateCameraAdapter_Some|apply Htwice; eauto]
      |by apply CreateCameraAdapter_None].
  - pose proof (CreateShapeAdapter_twice dag s) as Htwice.
    destruct (CreateShapeAdapter host dag s).1 eqn:H;
      [split; [by apply CreateShapeAdapter_Some|apply Htwice; eauto]
      |by apply CreateShapeAdapter_None].
Qed.

Lemma _CreateMaterial_false id obj s :
  (_CreateMaterial host id obj s).1 = false → (_CreateMaterial host id obj s).2 = s.
Proof. unfold _CreateMaterial. by repeat case_match. Qed.

Lemma _CreateMaterial_true id obj s :
  (_CreateMaterial host id obj s).1 = true →
  is_Some (_materialAdapters (_CreateMaterial host id obj s).2 !! id).
Proof.
  unfold _CreateMaterial. repeat case_match; simpl; try done; intros _; simplify_eq;
    simpl; rewrite map_insert_new_lookup; case_match; eauto; rewrite decide_True by done;
    eauto.
Qed.

Lemma _CreateMaterial_lookup id obj s id' :
  _materialAdapters (_CreateMaterial host id obj s).2 !! id'
  = match _materialAdapters s !! id' with
    | Some a => Some a
    | None => if decide (id = id') then _materialAdapters (_CreateMaterial host id obj s).2 !! id
              else None
    end.
Proof.
  unfold _CreateMaterial. repeat case_match; simplify_eq; simpl;
    rewrite ?map_insert_new_lookup; repeat case_match; simplify_eq; try done.
Qed.

(** X7. [_CreateMaterial] reports success only with a registered
    material: when it returns [true] the material table holds an adapter
    under the identity, when it returns [false] the delegate is untouched.
    It inserts without replacing, so an adapter already registered under
    the identity stays, and no other identity is affected.  Only the
    material table and the world change. *)
Theorem _CreateMaterial_registers_or_does_nothing id obj s :
  ((_CreateMaterial host id obj s).1 = true →
   is_Some (GetMaterialAdapter id (_CreateMaterial host id obj s).2))
  ∧ ((_CreateMaterial host id obj s).1 = false → (_CreateMaterial host id obj s).2 = s)
  ∧ (∀ a, GetMaterialAdapter id s = Some a →
          GetMaterialAdapter id (_CreateMaterial host id obj s).2 = Some a)
  ∧ (∀ id', id' ≠ id →
       GetMaterialAdapter id' (_CreateMaterial host id obj s).2 = GetMaterialAdapter id' s)
  ∧ modifies [FMaterials; FWorld] s (_CreateMaterial host id obj s).2.
Proof.
  unfold GetMaterialAdapter.
  split; [apply _CreateMaterial_true|]. split; [apply _CreateMaterial_false|].
  split; [|split; [|apply modifies__CreateMaterial]].
  - intros a Ha. by rewrite _CreateMaterial_lookup, Ha.
  - intros id' Hne. rewrite _CreateMaterial_lookup. case_match; [done|].
    by rewrite decide_False.
Qed.


(** ** Insertion of a DAG node *)

Lemma InsertDag_cases dag s :
  InsertDag host dag s = s
  ∨ (is_Some (CreateLightAdapter host dag s).1
     ∧ InsertDag host dag s = (CreateLightAdapter host dag s).2)
  ∨ (is_Some (CreateCameraAdapter host dag s).1
     ∧ InsertDag host dag s = (CreateCameraAdapter host dag s).2)
  ∨ (dag_isInstanced host dag && bool_decide (0 < dag_instanceNumber host dag) = false
     ∧ ∃ a, (CreateShapeAdapter host dag s).1 = Some a
            ∧ (InsertDag host dag s = (CreateShapeAdapter host dag s).2
               ∨ InsertDag host dag s
                 = (_CreateMaterial host (GetMaterialPath host (sa_GetMaterial a))
                      (sa_GetMaterial a) (CreateShapeAdapter host dag s).2).2)).
Proof.
  assert (is_Some (CreateLightAdapter host dag s).1
          ∨ CreateLightAdapter host dag s = (None, s)) as Hlight.
  { pose proof (CreateLightAdapter_None dag s) as Hn.
    destruct (CreateLightAdapter host dag s) as [[l|] s1]; simpl in *; [left; eauto|].
    right. by rewrite Hn. }
  assert (is_Some (CreateCameraAdapter host dag s).1
          ∨ CreateCameraAdapter host dag s = (None, s)) as Hcamera.
  { pose proof (CreateCameraAdapter_None dag s) as Hn.
    destruct (CreateCameraAdapter host dag s) as [[l|] s1]; simpl in *; [left; eauto|].
    right. by rewrite Hn. }
  assert ((∃ a, CreateShapeAdapter host dag s = (Some a, (CreateShapeAdapter host dag s).2))
          ∨ CreateShapeAdapter host dag s = (None, s)) as Hshape.
  { pose proof (CreateShapeAdapter_None dag s) as Hn.
    destruct (CreateShapeAdapter host dag s) as [[l|] s1]; simpl in *; [left; eauto|].
    right. by rewrite Hn. }
  unfold InsertDag.
  destruct (dag_hasFn_kTransform host dag); [by left|].
  destruct (isIntermediateObject host dag); [by left|].
  destruct (IsUfeItemFromMayaUsd host dag); [by left|].
  destruct (GetLightsEnabled host).
  { destruct Hlight as [[l Hlight]|Hlight].
    - right. left. split; [eauto|].
      destruct (CreateLightAdapter host dag s) as [l' s1]. simpl in *. subst l'.
      by rewrite bool_decide_eq_true_2 by eauto.
    - rewrite Hlight. cbv beta iota. rewrite bool_decide_eq_false_2 by (by intros [? ?]).
      destruct Hcamera as [[c Hcamera]|Hcamera].
      + right. right. left. split; [eauto|].
        destruct (CreateCameraAdapter host dag s) as [c' s1]. simpl in *. subst c'.
        by rewrite bool_decide_eq_true_2 by eauto.
      + rewrite Hcamera. cbv beta iota.
        rewrite bool_decide_eq_false_2 by (by intros [? ?]).
        destruct (dag_isInstanced host dag && bool_decide (0 < dag_instanceNumber host dag));
          [by left|].
        destruct Hshape as [[a Hshape]|Hshape].
        * right. right. right. split; [done|]. exists a. rewrite Hshape. simpl.
          split; [done|]. case_decide; [by left|]. case_match; [by left|by right].
        * rewrite Hshape. by left. }
  cbv beta iota. rewrite bool_decide_eq_false_2 by (by intros [? ?]).
  destruct Hcamera as [[c Hcamera]|Hcamera].
  - right. right. left. split; [eauto|].
    destruct (CreateCameraAdapter host dag s) as [c' s1]. simpl in *. subst c'.
    by rewrite bool_decide_eq_true_2 by eauto.
  - rewrite Hcamera. cbv beta iota.
    rewrite bool_decide_eq_false_2 by (by intros [? ?]).
    destruct (dag_isInstanced host dag && bool_decide (0 < dag_instanceNumber host dag));
      [by left|].
    destruct Hshape as [[a Hshape]|Hshape].
    + right. right. right. split; [done|]. exists a. rewrite Hshape. simpl.
      split; [done|]. case_decide; [by left|]. case_match; [by left|by right].
    + rewrite Hshape. by left.
Qed.

(** X8. [InsertDag] leaves transforms, intermediate objects and nodes that
    belong to maya-usd alone, never gives a shape adapter or a material to
    an instanced copy (an instanced path whose instance number is not
    zero), and never changes the render-item tables, the queues or the
    display-style flags. *)
Theorem InsertDag_skips dag s :
  modifies [FLights; FCameras; FShapes; FMaterials; FWorld] s (InsertDag host dag s)
  ∧ (dag_hasFn_kTransform host dag = true ∨ isIntermediateObject host dag = true
     ∨ IsUfeItemFromMayaUsd host dag = true →
     InsertDag host dag s = s)
  ∧ (dag_isInstanced host dag = true → 0 < dag_instanceNumber host dag →
     _shapeAdapters (InsertDag host dag s) = _shapeAdapters s
     ∧ _materialAdapters (InsertDag host dag s) = _materialAdapters s).
Proof.
  split; [apply modifies_InsertDag|]. split.
  - unfold InsertDag. intros [->|[->| ->]]; [done| |].
    + by destruct (dag_hasFn_kTransform host dag).
    + by destruct (dag_hasFn_kTransform host dag), (isIntermediateObject host dag).
  - intros Hi Hn.
    destruct (InsertDag_cases dag s) as [->|[[_ ->]|[[_ ->]|[Hno _]]]]; [done| | |].
    + pose proof (modifies_CreateLightAdapter host dag s) as Hm.
      use_unchanged Hm FShapes. use_unchanged Hm FMaterials. done.
    + pose proof (modifies_CreateCameraAdapter host dag s) as Hm.
      use_unchanged Hm FShapes. use_unchanged Hm FMaterials. done.
    + rewrite Hi, bool_decide_eq_true_2 in Hno by done. done.
Qed.

(** X9. [InsertDag] classifies a node as a light, then as a camera, then
    as a shape, and stops at the first adapter it creates: when the light
    table changed, the camera, shape and material tables did not, and when
    the camera table changed, the shape and material tables did not. *)
Theorem InsertDag_creates_one_kind dag s :
  (_lightAdapters (InsertDag host dag s) ≠ _lightAdapters s →
   _cameraAdapters (InsertDag host dag s) = _cameraAdapters s
   ∧ _shapeAdapters (InsertDag host dag s) = _shapeAdapters s
   ∧ _materialAdapters (InsertDag host dag s) = _materialAdapters s)
  ∧ (_cameraAdapters (InsertDag host dag s) ≠ _cameraAdapters s →
     _shapeAdapters (InsertDag host dag s) = _shapeAdapters s
     ∧ _materialAdapters (InsertDag host dag s) = _materialAdapters s).
Proof.
  pose proof (modifies_CreateLightAdapter host dag s) as Hl.
  pose proof (modifies_CreateCameraAdapter host dag s) as Hc.
  pose proof (modifies_CreateShapeAdapter host dag s) as Hs.
  use_unchanged Hl FCameras. use_unchanged Hl FShapes. use_unchanged Hl FMaterials.
  use_unchanged Hc FLights. use_unchanged Hc FShapes. use_unchanged Hc FMaterials.
  use_unchanged Hs FLights. use_unchanged Hs FCameras.
  destruct (InsertDag_cases dag s) as [->|[[_ ->]|[[_ ->]|(_ & a & _ & [->| ->])]]].
  - split; intros H; by destruct H.
  - split; [done|]. intros H. by destruct H.
  - split; [intros H; by destruct H|done].
  - split; intros H; by destruct H.
  - pose proof (modifies__CreateMaterial host (GetMaterialPath host (sa_GetMaterial a))
                  (sa_GetMaterial a) (CreateShapeAdapter host dag s).2) as Hm.
    use_unchanged Hm FLights. use_unchanged Hm FCameras.
    split; intros H; destruct H; congruence.
Qed.

(** ** Recreation *)

Lemma TfMapContains_false_lookup id s :
  (TfMapContains Lights id s = false ↔ _lightAdapters s !! id = None)
  ∧ (TfMapContains Shapes id s = false ↔ _shapeAdapters s !! id = None)
  ∧ (TfMapContains Materials id s = false ↔ _materialAdapters s !! id = None)
  ∧ (TfMapContains RenderItems id s = false ↔ _renderItemsAdapters s !! id = None)
  ∧ (TfMapContains Cameras id s = false ↔ _cameraAdapters s !! id = None).
Proof.
  unfold TfMapContains. repeat split; intros H;
    try (apply bool_decide_eq_false in H; by apply eq_None_not_Some);
    apply bool_decide_eq_false; by apply eq_None_not_Some.
Qed.

(** X10. [RecreateAdapter] acts on lights, on shapes in mesh-adapter mode
    only, and on materials: an identity that is none of these (a render
    item, a camera, or a shape outside mesh-adapter mode) leaves the
    delegate as it is, and outside mesh-adapter mode the shape table is
    never changed.  The render-item tables and the recreate and rebuild
    queues are never changed. *)
Theorem RecreateAdapter_unknown_identity id obj s :
  modifies [FLights; FShapes; FCameras; FMaterials; FWorld; FLightsToAdd; FAddedNodes]
           s (RecreateAdapter host id obj s)
  ∧ (_lightAdapters s !! id = None →
     (useMeshAdapter host = true → _shapeAdapters s !! id = None) →
     _materialAdapters s !! id = None →
     RecreateAdapter host id obj s = s)
  ∧ (useMeshAdapter host = false →
     _shapeAdapters (RecreateAdapter host id obj s) = _shapeAdapters s).
Proof.
  split; [apply modifies_RecreateAdapter|].
  destruct (TfMapContains_false_lookup id s) as (HL & HS & HM & _).
  split.
  - intros Hl Hs Hm. unfold RecreateAdapter. cbn [_RemoveAdapter].
    rewrite (proj2 HL Hl), (proj2 HM Hm).
    destruct (useMeshAdapter host); [|done]. by rewrite (proj2 HS (Hs eq_refl)).
  - intros Hmesh. unfold RecreateAdapter. cbn [_RemoveAdapter]. rewrite Hmesh.
    destruct (TfMapContains Lights id s).
    + case_match; [|done].
      pose proof (modifies_OnDagNodeAdded host obj
                    (erase Lights id (RemoveCallbacks_RemovePrim host Lights id s))) as Hm.
      use_unchanged Hm FShapes. done.
    + destruct (TfMapContains Materials id s); [|done].
      pose proof (modifies_MarkMaterialUsersDirty host id
                    (erase Materials id (RemoveCallbacks_RemovePrim host Materials id s)))
        as Hm.
      use_unchanged Hm FShapes. case_match; [|done].
      pose proof (modifies__CreateMaterial host (GetMaterialPath host obj) obj
                    (MarkMaterialUsersDirty host id
                       (erase Materials id
                          (RemoveCallbacks_RemovePrim host Materials id s)))) as Hm'.
      use_unchanged Hm' FShapes. exact (eq_trans Hu0 Hu).
Qed.

(** X11. Recreating a light removes its adapter and defers the rest: no
    light adapter is created by [RecreateAdapter], the other tables are
    untouched even when they hold the same identity, and the node, when its
    handle is still valid and the registry has a light creator for it, is
    queued again at the end of the light queue, to be created by a later
    pass.  With an invalid handle nothing is queued. *)
Theorem RecreateAdapter_requeues_light id obj a s :
  _lightAdapters s !! id = Some a →
  _lightAdapters (RecreateAdapter host id obj s) = delete id (_lightAdapters s)
  ∧ _shapeAdapters (RecreateAdapter host id obj s) = _shapeAdapters s
  ∧ _cameraAdapters (RecreateAdapter host id obj s) = _cameraAdapters s
  ∧ _materialAdapters (RecreateAdapter host id obj s) = _materialAdapters s
  ∧ (∀ fn, MObjectHandle_isValid host obj = true → isNull obj = false →
           IsUfeItemFromMayaUsd_obj host obj = false →
           GetLightAdapterCreator_obj host obj = Some fn →
           _lightsToAdd (RecreateAdapter host id obj s) = _lightsToAdd s ++ [(obj, fn)])
  ∧ (MObjectHandle_isValid host obj = false →
     _lightsToAdd (RecreateAdapter host id obj s) = _lightsToAdd s
     ∧ _addedNodes (RecreateAdapter host id obj s) = _addedNodes s).
Proof.
  intros Ha. unfold RecreateAdapter. cbn [_RemoveAdapter].
  assert (TfMapContains Lights id s = true) as ->.
  { simpl. apply bool_decide_eq_true. eauto. }
  set (s1 := erase Lights id (RemoveCallbacks_RemovePrim host Lights id s)).
  pose proof (modifies_OnDagNodeAdded host obj s1) as Hm.
  use_unchanged Hm FLights. use_unchanged Hm FShapes. use_unchanged Hm FCameras.
  use_unchanged Hm FMaterials.
  destruct (MObjectHandle_isValid host obj); repeat split; try done.
  intros fn _ Hnull Hufe Hfn. unfold OnDagNodeAdded. by rewrite Hnull, Hufe, Hfn.
Qed.

(** ** Material resolution *)

Lemma GetMaterialId_cases id s :
  (GetMaterialId host id s).2 = s
  ∨ ∃ shape,
      _useDefaultMaterial s = false ∧ useMeshAdapter host = true
      ∧ _shapeAdapters s !! id = Some shape
      ∧ sa_GetMaterial shape ≠ kNullObj
      ∧ _materialAdapters s !! GetMaterialPath host (sa_GetMaterial shape) = None
      ∧ (_CreateMaterial host (GetMaterialPath host (sa_GetMaterial shape))
           (sa_GetMaterial shape) s).1 = true
      ∧ GetMaterialId host id s
        = (GetMaterialPath host (sa_GetMaterial shape),
           (_CreateMaterial host (GetMaterialPath host (sa_GetMaterial shape))
              (sa_GetMaterial shape) s).2).
Proof.
  unfold GetMaterialId.
  destruct (_useDefaultMaterial s); [by left|].
  match goal with |- context [match ?o with Some r => (r, s) | None => _ end] =>
    destruct o as [r|]; [by left|] end.
  destruct (useMeshAdapter host); [|by left].
  destruct (_shapeAdapters s !! id) as [shape|] eqn:Hshape; [|by left].
  case_decide as Hnull; [by left|].
  destruct (_materialAdapters s !! GetMaterialPath host (sa_GetMaterial shape)) eqn:Hmat;
    [by left|].
  pose proof (_CreateMaterial_false (GetMaterialPath host (sa_GetMaterial shape))
                (sa_GetMaterial shape) s) as Hfalse.
  destruct (_CreateMaterial host (GetMaterialPath host (sa_GetMaterial shape))
              (sa_GetMaterial shape) s) as [[|] s'] eqn:Hcreate; simpl in *.
  - right. exists shape. by rewrite Hcreate.
  - left. by apply Hfalse.
Qed.

Lemma GetMaterialId_result id s :
  (GetMaterialId host id s).1 = _mayaDefaultMaterialPath
  ∨ (GetMaterialId host id s).1 = _fallbackMaterial
  ∨ is_Some (_materialAdapters (GetMaterialId host id s).2 !! (GetMaterialId host id s).1).
Proof.
  unfold GetMaterialId.
  destruct (_useDefaultMaterial s); [by left|].
  destruct (_renderItemsAdapters s !! id) as [r|].
  { destruct (bool_decide (kLines = ria_GetPrimitive r)
              || bool_decide (kLineStrip = ria_GetPrimitive r)); [right; by left|].
    case_decide; [right; by left|].
    destruct (_materialAdapters s !! ria_GetMaterial r) eqn:Hm; [right; right; simpl; eauto|].
    destruct (useMeshAdapter host); [|right; by left].
    destruct (_shapeAdapters s !! id) as [shape|]; [|right; by left].
    case_decide; [right; by left|].
    destruct (_materialAdapters s !! GetMaterialPath host (sa_GetMaterial shape)) eqn:Hm';
      [right; right; simpl; eauto|].
    pose proof (_CreateMaterial_false (GetMaterialPath host (sa_GetMaterial shape))
                  (sa_GetMaterial shape) s) as Hfalse.
    pose proof (_CreateMaterial_true (GetMaterialPath host (sa_GetMaterial shape))
                  (sa_GetMaterial shape) s) as Htrue.
    destruct (_CreateMaterial host (GetMaterialPath host (sa_GetMaterial shape))
                (sa_GetMaterial shape) s) as [[|] s']; simpl in *;
      [right; right; by apply Htrue|right; by left]. }
  destruct (useMeshAdapter host); [|right; by left].
  destruct (_shapeAdapters s !! id) as [shape|]; [|right; by left].
  case_decide; [right; by left|].
  destruct (_materialAdapters s !! GetMaterialPath host (sa_GetMaterial shape)) eqn:Hm';
    [right; right; simpl; eauto|].
  pose proof (_CreateMaterial_true (GetMaterialPath host (sa_GetMaterial shape))
                (sa_GetMaterial shape) s) as Htrue.
  destruct (_CreateMaterial host (GetMaterialPath host (sa_GetMaterial shape))
              (sa_GetMaterial shape) s) as [[|] s']; simpl in *;
    [right; right; by apply Htrue|right; by left].
Qed.

(** X12. [GetMaterialId] never hands out a dangling material: its answer is
    the default material, the fallback material, or the identity of a
    material that is registered when the call returns.  The call changes
    the material table and the world at most, and outside mesh-adapter mode
    it changes nothing. *)
Theorem GetMaterialId_answer_is_registered id s :
  ((GetMaterialId host id s).1 = _mayaDefaultMaterialPath
   ∨ (GetMaterialId host id s).1 = _fallbackMaterial
   ∨ is_Some (GetMaterialAdapter (GetMaterialId host id s).1 (GetMaterialId host id s).2))
  ∧ modifies [FMaterials; FWorld] s (GetMaterialId host id s).2
  ∧ (useMeshAdapter host = false → (GetMaterialId host id s).2 = s).
Proof.
  split; [apply GetMaterialId_result|].
  destruct (GetMaterialId_cases id s) as [->|(shape & _ & Hmesh & _ & _ & _ & _ & ->)].
  - split; [apply modifies_refl|done].
  - split; [apply modifies__CreateMaterial|]. congruence.
Qed.

(** X13. Asking [GetMaterialId] again gives the same answer and changes
    nothing more: a material created on demand by the first call is found
    registered by the second. *)
Theorem GetMaterialId_twice id s :
  GetMaterialId host id (GetMaterialId host id s).2
  = ((GetMaterialId host id s).1, (GetMaterialId host id s).2).
Proof.
  destruct (GetMaterialId_cases id s)
    as [Hsame|(shape & Hdef & Hmesh & Hshape & Hnull & Hmat & Htrue & Heq)].
  { destruct (GetMaterialId host id s) as [r s0] eqn:E. simpl in *. subst s0. exact E. }
  rewrite Heq. simpl.
  set (materialId := GetMaterialPath host (sa_GetMaterial shape)) in *.
  set (s' := (_CreateMaterial host materialId (sa_GetMaterial shape) s).2).
  pose proof (modifies__CreateMaterial host materialId (sa_GetMaterial shape) s) as Hm.
  fold s' in Hm.
  use_unchanged Hm FUseDefaultMaterial. use_unchanged Hm FRenderItems.
  use_unchanged Hm FShapes.
  destruct (_CreateMaterial_true materialId (sa_GetMaterial shape) s Htrue) as [m Hreg].
  fold s' in Hreg.
  assert (∀ r : option SdfPath,
            match r with
            | Some r => r = materialId
            | None => True
            end →
            match r with
            | Some r0 => (r0, s')
            | None =>
                if useMeshAdapter host then
                  match _shapeAdapters s' !! id with
                  | Some shapeAdapter =>
                      if decide (sa_GetMaterial shapeAdapter = kNullObj)
                      then (_fallbackMaterial, s')
                      else
                        match _materialAdapters s'
                              !! GetMaterialPath host (sa_GetMaterial shapeAdapter) with
                        | Some _ => (GetMaterialPath host (sa_GetMaterial shapeAdapter), s')
                        | None =>
                            let '(created, s0) :=
                              _CreateMaterial host
                                (GetMaterialPath host (sa_GetMaterial shapeAdapter))
                                (sa_GetMaterial shapeAdapter) s' in
                            (if created
                             then GetMaterialPath host (sa_GetMaterial shapeAdapter)
                             else _fallbackMaterial, s0)
                        end
                  | None => (_fallbackMaterial, s')
                  end
                else (_fallbackMaterial, s')
            end = (materialId, s')) as Hrest.
  { intros [r|] Hr; [by subst r|].
    rewrite Hmesh, Hu1, Hshape. rewrite decide_False by done.
    fold materialId. by rewrite Hreg. }
  unfold GetMaterialId. rewrite Hu, Hdef, Hu0. apply Hrest.
  assert (GetMaterialId host id s = (materialId, s')) as Hagain by done.
  unfold GetMaterialId in Hagain. rewrite Hdef in Hagain.
  destruct (_renderItemsAdapters s !! id) as [r|]; [|done].
  destruct (bool_decide (kLines = ria_GetPrimitive r)
            || bool_decide (kLineStrip = ria_GetPrimitive r)).
  { injection Hagain as _ Hs. exfalso.
    rewrite Hs in Hmat. fold materialId in Hmat. congruence. }
  case_decide.
  { injection Hagain as _ Hs. exfalso.
    rewrite Hs in Hmat. fold materialId in Hmat. congruence. }
  destruct (_materialAdapters s !! ria_GetMaterial r) eqn:Hr.
  { injection Hagain as _ Hs. exfalso.
    rewrite Hs in Hmat. fold materialId in Hmat. congruence. }
  subst s'. rewrite _CreateMaterial_lookup, Hr. case_decide; [|done].
  subst materialId. by rewrite Hreg.
Qed.


(** ** The per-frame pass *)

Lemma modifies_PreFrame context s :
  modifies [FLights; FCameras; FShapes; FMaterials; FWorld; FLightsToAdd; FAddedNodes;
            FRecreate; FRebuild; FMaterialTags; FUseDefaultMaterial; FXRay]
           s (PreFrame host context s).
Proof.
  unfold PreFrame, PreFrame_flow.
  apply (modifies_step
           [FUseDefaultMaterial; FXRay; FMaterials; FWorld; FRebuild; FMaterialTags]
           [FLights; FCameras; FShapes; FMaterials; FWorld; FLightsToAdd; FAddedNodes;
            FRecreate; FRebuild] _ s
           (PreFrame_materialTags host (PreFrame_displayStyle host context s)));
    [|apply (modifies_PreFrame_after_materialTags host)|field_sub|field_sub].
  eapply modifies_step;
    [apply (modifies_PreFrame_displayStyle host context s)
    |apply (modifies_PreFrame_materialTags host)|field_sub|field_sub].
Qed.

(** X14. The per-frame pass never touches the render-item tables: whatever
    the queues hold and however the pass ends, both tables are the same
    afterwards, so every render item is still found under its fast key. *)
Theorem PreFrame_keeps_render_items context s :
  _renderItemsAdaptersFast (PreFrame host context s) = _renderItemsAdaptersFast s
  ∧ _renderItemsAdapters (PreFrame host context s) = _renderItemsAdapters s
  ∧ ∀ fastId, _GetRenderItem fastId (PreFrame host context s) = _GetRenderItem fastId s.
Proof.
  pose proof (modifies_PreFrame context s) as Hm.
  use_unchanged Hm FRenderItemsFast. use_unchanged Hm FRenderItems.
  split; [done|]. split; [done|]. intros fastId. unfold _GetRenderItem. by rewrite Hu.
Qed.

Lemma PreFrame_displayStyle_flags context s :
  _useDefaultMaterial (PreFrame_displayStyle host context s)
  = getDisplayStyle_kDefaultMaterial context
  ∧ _xRayEnabled (PreFrame_displayStyle host context s) = getDisplayStyle_kXray context.
Proof.
  unfold PreFrame_displayStyle.
  set (s1 := if decide (getDisplayStyle_kDefaultMaterial context ≠ _useDefaultMaterial s)
             then _ else s).
  assert (_useDefaultMaterial s1 = getDisplayStyle_kDefaultMaterial context) as H1.
  { subst s1. case_decide as Hd.
    - destruct (useMeshAdapter host); [|done].
      pose proof (modifies_for_each [FWorld] Shapes
                    (λ id acc, call host Shapes id (MarkDirty (DirtyMaterialId host)) acc)
                    (set_useDefaultMaterial (getDisplayStyle_kDefaultMaterial context) s))
        as Hm.
      assert (∀ id0 s0,
                modifies [FWorld] s0
                  (call host Shapes id0 (MarkDirty (DirtyMaterialId host)) s0)) as Hstep.
      { intros id0 s0. unfold call. solve_modifies. }
      specialize (Hm Hstep). use_unchanged Hm FUseDefaultMaterial. done.
    - by destruct (decide (getDisplayStyle_kDefaultMaterial context = _useDefaultMaterial s)). }
  case_decide as Hx.
  - pose proof (modifies_for_each [FMaterials; FWorld] Materials
                  (λ id acc,
                     call host Materials id (CallEnableXRayShadingMode (_xRayEnabled acc))
                       (set_materialAdapters
                          (alter (EnableXRayShadingMode (_xRayEnabled acc)) id
                             (_materialAdapters acc)) acc))
                  (set_xRayEnabled (getDisplayStyle_kXray context) s1)) as Hm.
    assert (∀ id0 s0,
              modifies [FMaterials; FWorld] s0
                (call host Materials id0 (CallEnableXRayShadingMode (_xRayEnabled s0))
                   (set_materialAdapters
                      (alter (EnableXRayShadingMode (_xRayEnabled s0)) id0
                         (_materialAdapters s0)) s0))) as Hstep.
    { intros id0 s0. unfold call. solve_modifies. }
    specialize (Hm Hstep).
    use_unchanged Hm FUseDefaultMaterial. use_unchanged Hm FXRay.
    split; [exact (eq_trans Hu H1)|exact Hu0].
  - split; [done|].
    by destruct (decide (getDisplayStyle_kXray context = _xRayEnabled s1)).
Qed.

(** X15. The pass adopts the display style of the draw context first, and
    keeps it whatever happens in the later blocks, an early return
    included: afterwards the default-material and x-ray flags of the
    delegate are those of the context, so with the default material
    requested [GetMaterialId] answers the default material for every
    identity. *)
Theorem PreFrame_adopts_display_style context s :
  _useDefaultMaterial (PreFrame host context s) = getDisplayStyle_kDefaultMaterial context
  ∧ _xRayEnabled (PreFrame host context s) = getDisplayStyle_kXray context
  ∧ (getDisplayStyle_kDefaultMaterial context = true →
     ∀ id, GetMaterialId host id (PreFrame host context s)
           = (_mayaDefaultMaterialPath, PreFrame host context s)).
Proof.
  destruct (PreFrame_displayStyle_flags context s) as [Hd Hx].
  pose proof (modifies_PreFrame_materialTags host (PreFrame_displayStyle host context s))
    as H2.
  pose proof (modifies_PreFrame_after_materialTags host context
                (PreFrame_materialTags host (PreFrame_displayStyle host context s))) as H3.
  use_unchanged H2 FUseDefaultMaterial. use_unchanged H2 FXRay.
  use_unchanged H3 FUseDefaultMaterial. use_unchanged H3 FXRay.
  assert (_useDefaultMaterial (PreFrame host context s)
          = getDisplayStyle_kDefaultMaterial context) as Hdef.
  { unfold PreFrame, PreFrame_flow. congruence. }
  split; [done|]. split; [unfold PreFrame, PreFrame_flow; congruence|].
  intros Hon id. unfold GetMaterialId. by rewrite Hdef, Hon.
Qed.

Lemma set_adaptersToRebuild_nil s : _adaptersToRebuild s = [] → set_adaptersToRebuild [] s = s.
Proof. destruct s. simpl. by intros ->. Qed.

Lemma _FindAdapter_absent id f ms s :
  Forall (λ m, TfMapContains m id s = false) ms → _FindAdapter id f ms s = (false, s).
Proof.
  induction 1 as [|m ms Hm _ IH]; simpl; [done|]. by rewrite Hm.
Qed.

(** X16. A frame with nothing to do changes nothing: when the display style
    is the one the delegate already has and the five queues are empty,
    [PreFrame] returns the delegate as it was, on a backend other than Storm
    and also on Storm when there is no light adapter and the draw context
    reports no active light. *)
Theorem PreFrame_idle_frame context s :
  getDisplayStyle_kDefaultMaterial context = _useDefaultMaterial s →
  getDisplayStyle_kXray context = _xRayEnabled s →
  queues_empty s →
  IsHdSt host = false
  ∨ (_lightAdapters s = ∅
     ∧ (numberOfActiveLights_status context = false ∨ numberOfActiveLights context = 0)) →
  PreFrame host context s = s.
Proof.
  intros Hd Hx (Hl & Ha & Hrec & Hreb & Hmt) Hlights.
  assert (PreFrame_displayStyle host context s = s) as Hds.
  { unfold PreFrame_displayStyle.
    rewrite (decide_False (P := getDisplayStyle_kDefaultMaterial context
                                ≠ _useDefaultMaterial s))
      by (rewrite Hd; intros Hn; by apply Hn).
    rewrite decide_False; [done|]. rewrite Hx. intros Hn. by apply Hn. }
  unfold PreFrame, PreFrame_flow. rewrite Hds.
  unfold PreFrame_materialTags. rewrite Hmt.
  unfold PreFrame_after_materialTags, PreFrame_lightsToAdd. rewrite Hl. cbn [andThen].
  unfold PreFrame_addedNodes. rewrite Ha.
  assert ((if useMeshAdapter host then Continue s else Continue s) = Continue s) as ->
    by (by destruct (useMeshAdapter host)).
  cbn [andThen]. unfold PreFrame_adaptersToRecreate. rewrite Hrec.
  unfold PreFrame_adaptersToRebuild. rewrite Hreb.
  destruct Hlights as [->|[Hnone Hnum]]; [done|].
  destruct (IsHdSt host); [|done]. simpl.
  unfold PreFrame_lights, _GetActiveLightPaths. rewrite Hnone, map_fold_empty.
  rewrite map_size_empty.
  assert (negb (numberOfActiveLights_status context)
          || bool_decide (numberOfActiveLights context = 0) = true) as ->.
  { destruct Hnum as [->| ->]; [done|]. apply orb_true_r. }
  simpl. by rewrite Hnone, map_fold_empty.
Qed.

(** X17. The rebuild block looks for the queued identity among shapes,
    lights and materials only: a rebuild queued for an identity that is in
    none of these tables, a render item for instance, is dropped without
    any call on an adapter; the block only empties the queue. *)
Theorem PreFrame_rebuild_of_unknown_identity_is_dropped s :
  Forall (λ it : SdfPath * N,
            Forall (λ m, TfMapContains m it.1 s = false) [Shapes; Lights; Materials])
         (_adaptersToRebuild s) →
  PreFrame_adaptersToRebuild host s = set_adaptersToRebuild [] s
  ∧ world (PreFrame_adaptersToRebuild host s) = world s.
Proof.
  intros Hq. unfold PreFrame_adaptersToRebuild.
  destruct (_adaptersToRebuild s) as [|it q] eqn:Hqs.
  { by rewrite set_adaptersToRebuild_nil. }
  assert (foldl (λ acc (it0 : SdfPath * N),
                   (_FindAdapter it0.1 (ApplyRebuild host it0.2) [Shapes; Lights; Materials]
                      acc).2) s (it :: q) = s) as ->; [|done].
  clear Hqs. induction Hq as [|it0 q0 Hit _ IH]; [done|].
  cbn [foldl]. by rewrite _FindAdapter_absent.
Qed.

Lemma CreateLightAdapter_keeps_entries P dag s :
  is_Some (_lightAdapters s !! P) →
  is_Some (_lightAdapters (CreateLightAdapter host dag s).2 !! P).
Proof.
  intros [a Ha]. unfold CreateLightAdapter, _CreateAdapter.
  repeat case_match; simpl; eauto.
  rewrite (map_insert_new_lookup_old _ _ _ a) by done. eauto.
Qed.

Lemma CreateLightAdapter_creates dag creator a s :
  GetLightAdapterCreator host dag = Some creator →
  IsUfeItemFromMayaUsd host dag = false →
  creator dag = Some a →
  light_IsSupported host a = true →
  is_Some (_lightAdapters (CreateLightAdapter host dag s).2 !! GetPrimPath host dag true).
Proof.
  intros Hc Hufe Ha Hsup. unfold CreateLightAdapter, _CreateAdapter.
  rewrite Hc, Hufe. destruct (_lightAdapters s !! GetPrimPath host dag true) eqn:Hid.
  { simpl. rewrite Hid. eauto. }
  rewrite Ha, Hsup. simpl. rewrite map_insert_new_fresh by done.
  rewrite lookup_insert_eq. eauto.
Qed.

Lemma PreFrame_lightsToAdd_loop_keeps_entries P q s :
  is_Some (_lightAdapters s !! P) →
  is_Some (_lightAdapters (leave (PreFrame_lightsToAdd_loop host q s)) !! P).
Proof.
  revert s. induction q as [|e q IH]; intros s Hs; simpl; [done|].
  destruct (getAPathTo host e.1); [|done]. by apply IH, CreateLightAdapter_keeps_entries.
Qed.

Lemma PreFrame_lightsToAdd_loop_creates q s obj fn dag creator a :
  Forall (λ e : MObject * LightCreator, is_Some (getAPathTo host e.1)) q →
  (obj, fn) ∈ q →
  getAPathTo host obj = Some dag →
  GetLightAdapterCreator host dag = Some creator →
  IsUfeItemFromMayaUsd host dag = false →
  creator dag = Some a →
  light_IsSupported host a = true →
  is_Some (_lightAdapters (leave (PreFrame_lightsToAdd_loop host q s))
             !! GetPrimPath host dag true).
Proof.
  intros Hq Hin Hdag Hc Hufe Ha Hsup. revert s.
  induction Hq as [|e q [d He] _ IH]; intros s; [by apply elem_of_nil in Hin|].
  simpl. rewrite He. apply elem_of_cons in Hin as [<-|Hin].
  - simpl in He. rewrite Hdag in He. injection He as <-.
    apply PreFrame_lightsToAdd_loop_keeps_entries. by eapply CreateLightAdapter_creates.
  - by apply IH.
Qed.

(** X18. Deferred creation of lights: in a pass that no unresolvable handle
    cuts short, a queued light node whose DAG path has a light creator in
    the registry, building a supported adapter, has a light adapter under
    its sprim path when the pass returns (provided that path is not queued
    for recreation in the same pass, and is no rprim path when nodes are
    inserted in mesh-adapter mode); on Storm that adapter has its lighting
    switched on. *)
Theorem PreFrame_creates_queued_lights context s obj fn dag creator a :
  light_creators_wf host →
  lights_wf host s →
  queued_handles_resolve host s →
  (obj, fn) ∈ _lightsToAdd s →
  getAPathTo host obj = Some dag →
  GetLightAdapterCreator host dag = Some creator →
  IsUfeItemFromMayaUsd host dag = false →
  creator dag = Some a →
  light_IsSupported host a = true →
  recreate_avoids (GetPrimPath host dag true) s →
  (useMeshAdapter host = true → ∀ d, GetPrimPath host d false ≠ GetPrimPath host dag true) →
  is_Some (GetLightAdapter (GetPrimPath host dag true) (PreFrame host context s))
  ∧ (IsHdSt host = true →
     la_lightingOn <$> GetLightAdapter (GetPrimPath host dag true) (PreFrame host context s)
     = Some true).
Proof.
  intros Hcr Hwf Hres Hin Hdag Hc Hufe Ha Hsup Hrec Hrp.
  unfold GetLightAdapter. rewrite PreFrame_complete by done. cbv zeta.
  set (P := GetPrimPath host dag true) in *.
  set (s1 := PreFrame_displayStyle host context s).
  set (s3 := PreFrame_materialTags host s1).
  set (s4 := leave (PreFrame_lightsToAdd host s3)).
  set (s5 := leave (PreFrame_addedNodes host s4)).
  set (s6 := PreFrame_adaptersToRecreate host s5).
  set (s7 := PreFrame_adaptersToRebuild host s6).
  pose proof (modifies_PreFrame_displayStyle host context s) as M1. fold s1 in M1.
  pose proof (modifies_PreFrame_materialTags host s1) as M3. fold s3 in M3.
  pose proof (modifies_PreFrame_lightsToAdd host s3) as M4. fold s4 in M4.
  pose proof (modifies_PreFrame_adaptersToRebuild host s6) as M7. fold s7 in M7.
  assert (_lightsToAdd s3 = _lightsToAdd s) as Hq3.
  { use_unchanged M1 FLightsToAdd. use_unchanged M3 FLightsToAdd. congruence. }
  assert (lights_wf host s4) as Hwf4.
  { eapply (keeps_light_PreFrame_lightsToAdd host P a s3 Hcr).
    eapply (modifies_keeps_light host _ P a s1 s3 M3); [field_notin|].
    by eapply (modifies_keeps_light host _ P a s s1 M1); [field_notin|]. }
  assert (∃ a', _lightAdapters s4 !! P = Some a') as [a' Ha'].
  { subst s4. unfold PreFrame_lightsToAdd. destruct Hres as [Hres _].
    rewrite <- Hq3 in Hres, Hin.
    destruct (_lightsToAdd s3) as [|e q] eqn:Hq; [by apply elem_of_nil in Hin|].
    rewrite PreFrame_lightsToAdd_loop_resolved by done. cbn [andThen leave].
    cbn [_lightAdapters set_lightsToAdd].
    by eapply (PreFrame_lightsToAdd_loop_creates (e :: q)). }
  assert (recreate_avoids P s5) as Hrec5.
  { apply recreate_avoids_PreFrame_addedNodes; [done|].
    eapply recreate_avoids_modifies; [exact M4|field_notin|].
    eapply recreate_avoids_modifies; [exact M3|field_notin|].
    eapply recreate_avoids_modifies; [exact M1|field_notin|done]. }
  assert (keeps_light host P a' s4 s7) as [K Kwf].
  { eapply keeps_light_trans; [by apply keeps_light_PreFrame_addedNodes|]. fold s5.
    eapply keeps_light_trans; [by apply keeps_light_PreFrame_adaptersToRecreate|]. fold s6.
    eapply modifies_keeps_light; [exact M7|field_notin]. }
  destruct (IsHdSt host).
  - destruct (PreFrame_lights_turns_on host context s7 P a' Hcr (Kwf Hwf4) (K Ha'))
      as [Hon _].
    rewrite Hon. split; [eauto|done].
  - rewrite (K Ha'). split; [eauto|done].
Qed.

End MoreDelegateFacts.

Section MoreQueryFacts.

Context {World MMatrix : Type} (host : @Host World MMatrix).
Context {T : QueryTypes} (methods : @AdapterMethods T).
Variable VtValue_TfToken : TfToken → VtValue T.
Variable MayaHydraDelegateCtx_GetShadingStyle : SdfPath → VtValue T.

Implicit Types (s : @MayaHydraSceneDelegate World) (id : SdfPath).

(** X19. The queries probe the shape table first: an identity that has a
    shape adapter is answered by it, whatever the other tables hold.  An
    identity that has only a render-item adapter is answered by that
    adapter for topology, transform, visibility and the display
    attributes, while the queries that probe shapes only ([GetSubdivTags]
    and [GetExtent]) give it the value-initialised result. *)
Theorem queries_answer_from_first_table id s :
  (∀ a, _shapeAdapters s !! id = Some a →
        GetMeshTopology methods id s = a_GetMeshTopology methods (AsShape a)
        ∧ GetBasisCurvesTopology methods id s = a_GetBasisCurvesTopology methods (AsShape a)
        ∧ GetSubdivTags methods id s = a_GetSubdivTags methods (AsShape a)
        ∧ GetExtent methods id s = a_GetExtent methods (AsShape a)
        ∧ GetTransform methods id s = a_GetTransform methods (AsShape a)
        ∧ GetVisible methods id s = a_GetVisible methods (AsShape a)
        ∧ GetDoubleSided methods id s = a_GetDoubleSided methods (AsShape a)
        ∧ GetCullStyle methods id s = a_GetCullStyle methods (AsShape a)
        ∧ GetDisplayStyle methods id s = a_GetDisplayStyle methods (AsShape a))
  ∧ (∀ r, _shapeAdapters s !! id = None → _renderItemsAdapters s !! id = Some r →
          GetMeshTopology methods id s = a_GetMeshTopology methods (AsRenderItem r)
          ∧ GetBasisCurvesTopology methods id s
            = a_GetBasisCurvesTopology methods (AsRenderItem r)
          ∧ GetTransform methods id s = a_GetTransform methods (AsRenderItem r)
          ∧ GetVisible methods id s = a_GetVisible methods (AsRenderItem r)
          ∧ GetDoubleSided methods id s = a_GetDoubleSided methods (AsRenderItem r)
          ∧ GetCullStyle methods id s = a_GetCullStyle methods (AsRenderItem r)
          ∧ GetDisplayStyle methods id s = a_GetDisplayStyle methods (AsRenderItem r)
          ∧ GetSubdivTags methods id s = PxOsdSubdivTags_init T
          ∧ GetExtent methods id s = GfRange3d_init T).
Proof.
  unfold GetMeshTopology, GetBasisCurvesTopology, GetSubdivTags, GetExtent, GetTransform,
    GetVisible, GetDoubleSided, GetCullStyle, GetDisplayStyle.
  split.
  - intros a Ha. simpl. rewrite Ha. simpl. repeat split.
  - intros r Hs Hr. simpl. rewrite Hs, Hr. simpl. repeat split.
Qed.

(** X20. [GetMaterialResource] never answers with an empty value, as long
    as the default material and the preview resource are not empty: a
    material without adapter, or whose adapter has an empty resource, gets
    the preview resource (the value-initialised value being empty).  The
    default-material path is answered with the default material and the
    fallback path with the preview resource, whatever the material table
    holds. *)
Theorem GetMaterialResource_never_empty id s :
  VtValue_IsEmpty methods (_mayaDefaultMaterial methods) = false →
  (∀ p, VtValue_IsEmpty methods (GetPreviewMaterialResource methods p) = false) →
  VtValue_IsEmpty methods (GetMaterialResource methods id s) = false
  ∧ GetMaterialResource methods _mayaDefaultMaterialPath s = _mayaDefaultMaterial methods
  ∧ GetMaterialResource methods _fallbackMaterial s
    = GetPreviewMaterialResource methods _fallbackMaterial
  ∧ (VtValue_IsEmpty methods (VtValue_init T) = true →
     id ≠ _mayaDefaultMaterialPath → _materialAdapters s !! id = None →
     GetMaterialResource methods id s = GetPreviewMaterialResource methods id).
Proof.
  intros Hdef Hprev. unfold GetMaterialResource. repeat split.
  - case_decide; [done|]. case_decide; [done|].
    destruct (VtValue_IsEmpty methods (_GetValue id (a_GetMaterialResource methods)
                                         [Materials] s)) eqn:He; done.
  - intros Hinit Hne Hnone. rewrite decide_False by done. case_decide; [done|].
    simpl. rewrite Hnone. simpl. unfold _GetDefaultValue, value_init, VtValue_ValueInit.
    by rewrite Hinit.
Qed.

(** X21. A render item that draws lines or a line strip is shaded with
    constant lighting, and, unless the default material is forced, is given
    the fallback material by [GetMaterialId]; the delegate is not changed.
    Every other identity gets the shading style of the base class. *)
Theorem line_render_items_are_constant_shaded id s :
  (∀ r, _renderItemsAdapters s !! id = Some r →
        ria_GetPrimitive r = kLines ∨ ria_GetPrimitive r = kLineStrip →
        GetShadingStyle VtValue_TfToken MayaHydraDelegateCtx_GetShadingStyle id s
        = VtValue_TfToken "constantLighting"
        ∧ (_useDefaultMaterial s = false →
           GetMaterialId host id s = (_fallbackMaterial, s)))
  ∧ ((∀ r, _renderItemsAdapters s !! id = Some r →
           ria_GetPrimitive r ≠ kLines ∧ ria_GetPrimitive r ≠ kLineStrip) →
     GetShadingStyle VtValue_TfToken MayaHydraDelegateCtx_GetShadingStyle id s
     = MayaHydraDelegateCtx_GetShadingStyle id).
Proof.
  unfold GetShadingStyle, GetMaterialId. split.
  - intros r Hr Hline. rewrite Hr.
    assert (bool_decide (kLines = ria_GetPrimitive r)
            || bool_decide (kLineStrip = ria_GetPrimitive r) = true) as ->.
    { destruct Hline as [-> | ->]; [done|]. apply orb_true_r. }
    split; [done|]. by intros ->.
  - intros Hno. destruct (_renderItemsAdapters s !! id) as [r|]; [|done].
    destruct (Hno r eq_refl) as [H1 H2].
    rewrite !bool_decide_eq_false_2 by done. done.
Qed.

End MoreQueryFacts.

Section ViewportFacts.

Context {World MMatrix MColor DisplayStatus GfVec4d GfVec3d : Type}.
Context (host : @Host World MMatrix).
Context (viewport : @Viewport World MColor DisplayStatus GfVec4d).

Implicit Types (s : @MayaHydraSceneDelegate World) (id : SdfPath) (obj : MObject).

(** X22. [SetCameraViewport] finds the camera that [CreateCameraAdapter]
    entered: it answers with the sprim path of the camera and changes the
    world only.  For a DAG path without camera adapter it answers the
    empty path and does nothing. *)
Theorem SetCameraViewport_finds_created_camera (camPath : MDagPath) (vp : GfVec4d) s :
  (is_Some (CreateCameraAdapter host camPath s).1 →
   (SetCameraViewport host viewport camPath vp (CreateCameraAdapter host camPath s).2).1
   = GetPrimPath host camPath true)
  ∧ (_cameraAdapters s !! GetPrimPath host camPath true = None →
     SetCameraViewport host viewport camPath vp s = (SdfPath_EmptyPath, s))
  ∧ modifies [FWorld] s (SetCameraViewport host viewport camPath vp s).2.
Proof.
  split; [|split].
  - intros [a Ha]. destruct (CreateCameraAdapter_Some host camPath a s Ha) as (_ & Hin & _).
    unfold SetCameraViewport. by rewrite Hin, lookup_insert_eq.
  - intros Hnone. unfold SetCameraViewport. by rewrite Hnone.
  - unfold SetCameraViewport. case_match; simpl; solve_modifies.
Qed.


(** ** The render-item batch *)

Ltac modifies_after lem :=
  eapply modifies_trans; [|eapply modifies_weaken; [|apply lem]; field_sub].

Lemma modifies_ria_call fastId c s : modifies [FWorld] s (ria_call viewport fastId c s).
Proof. unfold ria_call. case_match; solve_modifies. Qed.

Lemma modifies_SetMaterial fastId material s :
  modifies [FRenderItemsFast; FRenderItems; FWorld] s (SetMaterial viewport fastId material s).
Proof. unfold SetMaterial, ria_call. repeat case_match; solve_modifies. Qed.

Lemma modifies_HandleItem_adapter ri s s' :
  HandleItem_adapter viewport ri s = Some s' →
  modifies [FRenderItemsFast; FRenderItems; FWorld] s s'.
Proof.
  unfold HandleItem_adapter, _AddRenderItem. repeat case_match; intros [= <-]; solve_modifies.
Qed.

Lemma modifies_HandleItem_update ri flags s :
  modifies [FRenderItemsFast; FRenderItems; FMaterials; FWorld] s
           (HandleItem_update host viewport ri flags s).
Proof.
  unfold HandleItem_update.
  destruct (_GetRenderItemMaterial host viewport ri SdfPath_EmptyPath kNullObj s)
    as [[found material] node].
  destruct found, (ri_sourceDagPath_isValid ri); repeat case_decide;
    repeat first [modifies_after modifies_ria_call
                 |modifies_after modifies_SetMaterial
                 |modifies_after (modifies__CreateMaterial host)];
    apply modifies_refl.
Qed.

Lemma modifies_HandleItem s item :
  modifies [FRenderItemsFast; FRenderItems; FMaterials; FWorld] s
           (HandleItem host viewport s item).
Proof.
  unfold HandleItem. destruct item as [ri flags].
  case_decide; [apply modifies_refl|].
  destruct (filterMesh host ri); [apply modifies_refl|].
  destruct (HandleItem_adapter viewport ri s) as [s1|] eqn:Had; [|apply modifies_refl].
  apply modifies_HandleItem_adapter in Had.
  eapply modifies_step; [exact Had|apply modifies_HandleItem_update|field_sub|field_sub].
Qed.

Lemma modifies_HandleRemovals removals s s' :
  HandleRemovals viewport removals s = Some s' →
  modifies [FRenderItemsFast; FRenderItems] s s'.
Proof.
  revert s. induction removals as [|k l IH]; intros s; simpl.
  { intros [= <-]. apply modifies_refl. }
  case_decide; [apply IH|].
  destruct (_GetRenderItem k s) as [ria|].
  - intros Hrest. apply IH in Hrest. eapply modifies_trans; [|exact Hrest].
    unfold _RemoveRenderItem. solve_modifies.
  - destruct (NDEBUG viewport); [apply IH|done].
Qed.

Lemma modifies_playback s :
  modifies [FWorld] s
    (map_fold (λ (_ : string) ria acc,
                 set_world (renderItemCall viewport ria SetPlaybackChanged (world acc)) acc)
              s (_renderItemsAdapters s)).
Proof. apply modifies_map_fold. intros s0 k x. solve_modifies. Qed.

Lemma HandleRemovals_sentinels removals s :
  Forall (λ k, k = kInvalidId) removals → HandleRemovals viewport removals s = Some s.
Proof.
  induction 1 as [|k l Hk _ IH]; simpl; [done|]. by rewrite decide_True.
Qed.

Lemma HandleItem_not_handled s item : ¬ handled host item → HandleItem host viewport s item = s.
Proof.
  unfold handled, HandleItem. destruct item as [ri flags]. simpl. intros Hno.
  case_decide; [done|]. destruct (filterMesh host ri) eqn:Hf; [done|]. by destruct Hno.
Qed.

(** X23. Handling a render-item batch changes the two render-item tables,
    the material table and the world, and nothing else: shapes, lights,
    cameras, the queues and the display-style flags stay as they are.  The
    playback flag kept by the delegate becomes the one Maya reports.  A
    batch whose removals are all the sentinel id and whose items are all
    unchanged or filtered out, handled while the playback state is the
    same, leaves the delegate as it is. *)
Theorem HandleCompleteViewportScene_footprint scene (playing : bool) s r :
  HandleCompleteViewportScene host viewport scene playing s = Some r →
  r.1 = MAnimControl_isPlaying viewport
  ∧ modifies [FRenderItemsFast; FRenderItems; FMaterials; FWorld] s r.2
  ∧ (playing = MAnimControl_isPlaying viewport →
     Forall (λ k, k = kInvalidId) (mRemovals scene) →
     Forall (λ item, ¬ handled host item) (mItems scene) →
     r.2 = s).
Proof.
  unfold HandleCompleteViewportScene.
  set (s0 := if decide (playing ≠ MAnimControl_isPlaying viewport) then _ else s).
  assert (modifies [FWorld] s s0) as H0.
  { subst s0. case_decide; [apply modifies_playback|apply modifies_refl]. }
  destruct (HandleRemovals viewport (mRemovals scene) s0) as [s1|] eqn:Hrem; [|done].
  intros [= <-]. simpl. split; [done|]. split.
  - apply modifies_HandleRemovals in Hrem.
    apply (modifies_trans _ s s1).
    + eapply modifies_step; [exact H0|exact Hrem|field_sub|field_sub].
    + apply modifies_foldl. intros. apply modifies_HandleItem.
  - intros Hplay Hsent Hitems. subst s0. rewrite decide_False in Hrem by tauto.
    rewrite HandleRemovals_sentinels in Hrem by done. injection Hrem as <-.
    induction Hitems as [|item l Hitem _ IH]; [done|].
    simpl. by rewrite HandleItem_not_handled.
Qed.

Lemma HandleRemovals_unknown removals s k :
  NDEBUG viewport = false → k ∈ removals → k ≠ kInvalidId → _GetRenderItem k s = None →
  HandleRemovals viewport removals s = None.
Proof.
  intros Hdebug Hin Hk. revert s. induction removals as [|k0 l IH]; intros s Hnone.
  { by apply elem_of_nil in Hin. }
  simpl. apply elem_of_cons in Hin as [<-|Hin].
  - rewrite decide_False by done. by rewrite Hnone, Hdebug.
  - case_decide; [by apply IH|].
    destruct (_GetRenderItem k0 s) as [ria|] eqn:Hria; [|by rewrite Hdebug].
    apply IH; [done|]. unfold _GetRenderItem, _RemoveRenderItem in *. simpl.
    rewrite lookup_delete. by case_decide.
Qed.

Lemma HandleRemovals_NDEBUG removals s :
  NDEBUG viewport = true → is_Some (HandleRemovals viewport removals s).
Proof.
  intros Hrelease. revert s. induction removals as [|k l IH]; intros s; simpl; [eauto|].
  case_decide; [apply IH|]. destruct (_GetRenderItem k s); [apply IH|].
  rewrite Hrelease. apply IH.
Qed.

(** X24. The removal loop asserts that every removal id other than the
    sentinel has an adapter.  With assertions compiled out the batch is
    always handled to the end, an unknown id being skipped; with assertions
    on, a removal id that has no adapter when the batch arrives stops the
    program. *)
Theorem HandleCompleteViewportScene_asserts_known_removals scene (playing : bool) s :
  (NDEBUG viewport = true →
   is_Some (HandleCompleteViewportScene host viewport scene playing s))
  ∧ (NDEBUG viewport = false →
     ∀ fastId, fastId ∈ mRemovals scene → fastId ≠ kInvalidId →
               _GetRenderItem fastId s = None →
               HandleCompleteViewportScene host viewport scene playing s = None).
Proof.
  unfold HandleCompleteViewportScene.
  set (s0 := if decide (playing ≠ MAnimControl_isPlaying viewport) then _ else s).
  assert (modifies [FWorld] s s0) as H0.
  { subst s0. case_decide; [apply modifies_playback|apply modifies_refl]. }
  use_unchanged H0 FRenderItemsFast.
  split.
  - intros Hrelease. destruct (HandleRemovals_NDEBUG (mRemovals scene) s0 Hrelease) as [s1 ->].
    eauto.
  - intros Hdebug fastId Hin Hk Hnone.
    rewrite (HandleRemovals_unknown (mRemovals scene) s0 fastId); try done.
    unfold _GetRenderItem in *. by rewrite Hu.
Qed.


(** *** Which fast keys have an adapter *)

Lemma same_fast_keys_refl s : same_fast_keys s s.
Proof. by intros k. Qed.

Lemma same_fast_keys_trans s1 s2 s3 :
  same_fast_keys s1 s2 → same_fast_keys s2 s3 → same_fast_keys s1 s3.
Proof. intros H12 H23 k. etrans; [apply H23|apply H12]. Qed.

Lemma same_fast_keys_modifies fs s s' :
  modifies fs s s' → FRenderItemsFast ∉ fs → same_fast_keys s s'.
Proof. intros Hm Hfs k. specialize (Hm _ Hfs). simpl in Hm. by rewrite Hm. Qed.

Lemma same_fast_keys_SetMaterial fastId material s :
  same_fast_keys s (SetMaterial viewport fastId material s).
Proof.
  unfold SetMaterial, ria_call.
  destruct (_renderItemsAdaptersFast s !! fastId) as [ria|] eqn:Hf;
    [|apply same_fast_keys_refl].
  intros k. case_decide; simpl; rewrite lookup_insert; case_decide; subst;
    rewrite ?Hf; split; eauto.
Qed.

Lemma same_fast_keys_HandleItem_update ri flags s :
  same_fast_keys s (HandleItem_update host viewport ri flags s).
Proof.
  unfold HandleItem_update.
  destruct (_GetRenderItemMaterial host viewport ri SdfPath_EmptyPath kNullObj s)
    as [[found material] node].
  destruct found, (ri_sourceDagPath_isValid ri); repeat case_decide;
    repeat first
      [eapply same_fast_keys_trans;
         [|eapply (same_fast_keys_modifies [FWorld]); [apply modifies_ria_call|field_notin]]
      |eapply same_fast_keys_trans; [|apply same_fast_keys_SetMaterial]
      |eapply same_fast_keys_trans;
         [|eapply (same_fast_keys_modifies [FMaterials; FWorld]);
             [apply (modifies__CreateMaterial host)|field_notin]]];
    apply same_fast_keys_refl.
Qed.

Lemma HandleItem_fast_keys s item k :
  is_Some (_renderItemsAdaptersFast (HandleItem host viewport s item) !! k)
  ↔ is_Some (_renderItemsAdaptersFast s !! k)
    ∨ (handled host item ∧ k = ri_InternalObjectId item.1
       ∧ GetRenderItemPrimPath viewport item.1 ≠ SdfPath_EmptyPath).
Proof.
  unfold HandleItem, handled. destruct item as [ri flags]. simpl.
  case_decide as Hflags; [tauto|].
  destruct (filterMesh host ri) eqn:Hfilter; [intuition congruence|].
  unfold HandleItem_adapter, _GetRenderItem.
  destruct (_renderItemsAdaptersFast s !! ri_InternalObjectId ri) as [r|] eqn:Hfound.
  - rewrite (same_fast_keys_HandleItem_update ri flags s k). split; [tauto|].
    intros [?|(_ & -> & _)]; [done|]. rewrite Hfound. eauto.
  - case_decide as Hpath.
    + split; [tauto|]. intros [?|(_ & _ & ?)]; done.
    + rewrite (same_fast_keys_HandleItem_update ri flags _ k).
      unfold _AddRenderItem. simpl. rewrite map_insert_new_fresh by done.
      rewrite lookup_insert. case_decide as Hk.
      * subst k. split; [|eauto]. intros _. right. done.
      * split; [tauto|]. intros [?|(_ & ? & _)]; [done|]. by subst k.
Qed.

Lemma foldl_HandleItem_fast_keys (items : list (MRenderItem * N)) s k :
  is_Some (_renderItemsAdaptersFast (foldl (HandleItem host viewport) s items) !! k)
  ↔ is_Some (_renderItemsAdaptersFast s !! k)
    ∨ ∃ item, item ∈ items ∧ handled host item ∧ k = ri_InternalObjectId item.1
              ∧ GetRenderItemPrimPath viewport item.1 ≠ SdfPath_EmptyPath.
Proof.
  revert s. induction items as [|item items IH]; intros s; simpl.
  { split; [tauto|]. intros [?|(item & Hin & _)]; [done|]. by apply elem_of_nil in Hin. }
  rewrite IH, HandleItem_fast_keys. split.
  - intros [[?|?]|(item' & Hin & ?)]; [tauto| |].
    + right. exists item. split; [apply elem_of_cons; by left|done].
    + right. exists item'. split; [apply elem_of_cons; by right|done].
  - intros [?|(item' & Hin & ?)]; [tauto|].
    apply elem_of_cons in Hin as [->|Hin]; [tauto|]. right. eauto.
Qed.

(** X25. After a batch has been handled, every item of the batch that was
    not skipped (non-zero flags, not filtered out, a prim path that can be
    derived) has an adapter under its fast key, whether it had one before or
    not, and whatever the later items of the batch do. *)
Theorem HandleCompleteViewportScene_items_have_adapters scene (playing : bool) s r item :
  HandleCompleteViewportScene host viewport scene playing s = Some r →
  item ∈ mItems scene →
  handled host item →
  GetRenderItemPrimPath viewport item.1 ≠ SdfPath_EmptyPath →
  is_Some (_GetRenderItem (ri_InternalObjectId item.1) r.2).
Proof.
  unfold HandleCompleteViewportScene. intros Hr Hin Hh Hpath.
  destruct (HandleRemovals viewport (mRemovals scene) _) as [s1|]; [|done].
  injection Hr as <-. simpl. unfold _GetRenderItem.
  apply foldl_HandleItem_fast_keys. right. eauto.
Qed.


(** *** Removal and pairing *)

Lemma HandleRemovals_spec removals s s' :
  renderItems_wf s →
  HandleRemovals viewport removals s = Some s' →
  renderItems_wf s'
  ∧ (∀ k, _renderItemsAdaptersFast s' !! k
          = if decide (k ∈ removals ∧ k ≠ kInvalidId) then None
            else _renderItemsAdaptersFast s !! k)
  ∧ (∀ p r, _renderItemsAdapters s' !! p = Some r →
            _renderItemsAdapters s !! p = Some r
            ∧ ¬ (ria_GetFastID r ∈ removals ∧ ria_GetFastID r ≠ kInvalidId)).
Proof.
  revert s. induction removals as [|k0 l IH]; intros s Hwf; cbn [HandleRemovals].
  { intros [= <-]. split; [done|]. split.
    - intros k. rewrite decide_False; [done|]. intros [Hin _]. by apply elem_of_nil in Hin.
    - intros p r Hr. split; [done|]. intros [Hin _]. by apply elem_of_nil in Hin. }
  assert (∀ s0, renderItems_wf s0 →
            (k0 ≠ kInvalidId
             ∧ _renderItemsAdaptersFast s0 = delete k0 (_renderItemsAdaptersFast s))
            ∨ (_renderItemsAdaptersFast s0 = _renderItemsAdaptersFast s
               ∧ (k0 = kInvalidId ∨ _renderItemsAdaptersFast s !! k0 = None)) →
            (∀ p r, _renderItemsAdapters s0 !! p = Some r →
                    _renderItemsAdapters s !! p = Some r
                    ∧ (k0 = kInvalidId ∨ ria_GetFastID r ≠ k0)) →
            HandleRemovals viewport l s0 = Some s' →
            renderItems_wf s'
            ∧ (∀ k, _renderItemsAdaptersFast s' !! k
                    = if decide (k ∈ k0 :: l ∧ k ≠ kInvalidId) then None
                      else _renderItemsAdaptersFast s !! k)
            ∧ (∀ p r, _renderItemsAdapters s' !! p = Some r →
                      _renderItemsAdapters s !! p = Some r
                      ∧ ¬ (ria_GetFastID r ∈ k0 :: l ∧ ria_GetFastID r ≠ kInvalidId)))
    as Hstep.
  { intros s0 Hwf0 Hfast Hpath Hrest.
    destruct (IH s0 Hwf0 Hrest) as (Hwf' & Hf' & Hp'). split; [done|]. split.
    - intros k. rewrite Hf'. destruct (decide (k ∈ l ∧ k ≠ kInvalidId)) as [[Hin Hk]|Hno].
      + rewrite decide_True; [done|]. split; [apply elem_of_cons; by right|done].
      + destruct (decide (k ∈ k0 :: l ∧ k ≠ kInvalidId)) as [[Hin Hk]|Hno'].
        * apply elem_of_cons in Hin as [->|Hin]; [|tauto].
          destruct Hfast as [[_ ->]|[-> [?|Hnone]]]; [apply lookup_delete_eq|done|done].
        * destruct Hfast as [[Hz ->]|[-> _]]; [|done]. rewrite lookup_delete_ne; [done|].
          intros <-. apply Hno'. split; [apply elem_of_cons; by left|done].
    - intros p r Hr. destruct (Hp' p r Hr) as [Hr0 Hno].
      destruct (Hpath p r Hr0) as [Hrs Hk0]. split; [done|].
      intros [Hin Hk]. apply elem_of_cons in Hin as [Heq|Hin]; [|tauto].
      destruct Hk0 as [Hz|Hne]; congruence. }
  case_decide as Hk0.
  { apply Hstep; [done|right; split; [done|by left]|]. intros p r Hr. split; [done|by left]. }
  unfold _GetRenderItem. destruct (_renderItemsAdaptersFast s !! k0) as [ria|] eqn:Hria.
  - destruct Hwf as [Hwf1 Hwf2]. destruct (Hwf1 _ _ Hria) as [Hkey Hpath].
    apply Hstep.
    + apply _RemoveRenderItem_wf; [by split|]. by rewrite Hkey.
    + left. split; [done|]. unfold _RemoveRenderItem. simpl. by rewrite Hkey.
    + intros p r. unfold _RemoveRenderItem. simpl. rewrite lookup_delete. case_decide; [done|].
      intros Hr. split; [done|]. right. intros Heq.
      destruct (Hwf2 _ _ Hr) as [Hp Hf]. rewrite Heq, Hria in Hf. injection Hf as ->. done.
  - destruct (NDEBUG viewport); [|done].
    apply Hstep; [done|right; split; [done|by right]|].
    intros p r Hr. split; [done|]. right. intros Heq.
    destruct Hwf as [_ Hwf2]. destruct (Hwf2 _ _ Hr) as [_ Hf]. congruence.
Qed.


(** X26. A fast key reported in the removals of a batch, other than the
    sentinel, has no adapter once the batch has been handled, unless an
    item of the same batch re-creates it: the removal loop runs before the
    items are looked at.  (The tables are assumed paired when the batch
    arrives.) *)
Theorem HandleCompleteViewportScene_removes scene (playing : bool) s r fastId :
  renderItems_wf s →
  HandleCompleteViewportScene host viewport scene playing s = Some r →
  fastId ∈ mRemovals scene →
  fastId ≠ kInvalidId →
  (∀ item, item ∈ mItems scene → handled host item →
           GetRenderItemPrimPath viewport item.1 ≠ SdfPath_EmptyPath →
           ri_InternalObjectId item.1 ≠ fastId) →
  _GetRenderItem fastId r.2 = None.
Proof.
  unfold HandleCompleteViewportScene. intros Hwf Hr Hin Hk Hitems.
  set (s0 := if decide (playing ≠ MAnimControl_isPlaying viewport) then _ else s) in Hr.
  assert (modifies [FWorld] s s0) as H0.
  { subst s0. case_decide; [apply modifies_playback|apply modifies_refl]. }
  use_unchanged H0 FRenderItemsFast. use_unchanged H0 FRenderItems.
  assert (renderItems_wf s0) as Hwf0.
  { unfold renderItems_wf. by rewrite Hu, Hu0. }
  destruct (HandleRemovals viewport (mRemovals scene) s0) as [s1|] eqn:Hrem; [|done].
  injection Hr as <-. simpl.
  destruct (HandleRemovals_spec _ _ _ Hwf0 Hrem) as (_ & Hfast & _).
  unfold _GetRenderItem. apply eq_None_not_Some. intros Hsome.
  apply foldl_HandleItem_fast_keys in Hsome as [Hsome|(item & Hi & Hh & Hid & Hp)].
  - rewrite Hfast, decide_True in Hsome by done. by destruct Hsome.
  - by apply (Hitems item).
Qed.

Lemma batch_invariant_tables items s s' :
  _renderItemsAdaptersFast s' = _renderItemsAdaptersFast s →
  _renderItemsAdapters s' = _renderItemsAdapters s →
  batch_invariant viewport items s → batch_invariant viewport items s'.
Proof. unfold batch_invariant, renderItems_wf. by intros -> ->. Qed.

Lemma batch_invariant_modifies fs items s s' :
  modifies fs s s' → FRenderItemsFast ∉ fs → FRenderItems ∉ fs →
  batch_invariant viewport items s → batch_invariant viewport items s'.
Proof.
  intros Hm H1 H2. apply batch_invariant_tables; [apply (Hm _ H1)|apply (Hm _ H2)].
Qed.

Lemma batch_invariant_SetMaterial items fastId material s :
  batch_invariant viewport items s →
  batch_invariant viewport items (SetMaterial viewport fastId material s).
Proof.
  intros Hs. pose proof Hs as [[Hwf1 Hwf2] Hkeys]. unfold SetMaterial, ria_call.
  destruct (_renderItemsAdaptersFast s !! fastId) as [ria|] eqn:Hf; rewrite ?Hf;
    [|exact Hs].
  destruct (Hwf1 _ _ Hf) as [Hkey Hpath]. simpl.
  rewrite decide_True by done. simpl.
  set (ria' := {| ria_GetID := ria_GetID ria; ria_GetFastID := ria_GetFastID ria;
                  ria_GetPrimitive := ria_GetPrimitive ria; ria_GetMaterial := material |}).
  split; [split|].
  - intros k r. simpl. rewrite lookup_insert. case_decide as Hk.
    + intros [= <-]. simpl. split; [congruence|]. by rewrite lookup_insert_eq.
    + intros Hr. destruct (Hwf1 _ _ Hr) as [Hrk Hrp]. split; [done|].
      rewrite lookup_insert_ne; [done|]. intros Heq. rewrite Heq in Hpath.
      assert (ria = r) as -> by congruence. congruence.
  - intros p r. simpl. rewrite lookup_insert. case_decide as Hp.
    + intros [= <-]. simpl. split; [done|]. rewrite Hkey. by rewrite lookup_insert_eq.
    + intros Hr. destruct (Hwf2 _ _ Hr) as [Hrp Hrk]. split; [done|].
      rewrite lookup_insert_ne; [done|]. intros Heq. rewrite <- Heq in Hrk.
      assert (ria = r) as -> by congruence. congruence.
  - intros item r Hitem. simpl. rewrite lookup_insert. case_decide as Hp.
    + intros [= <-]. simpl. intros Hpath'. by apply (Hkeys item ria).
    + intros Hr. by apply Hkeys.
Qed.

Lemma batch_invariant_HandleItem_update items ri flags s :
  batch_invariant viewport items s →
  batch_invariant viewport items (HandleItem_update host viewport ri flags s).
Proof.
  intros Hs. unfold HandleItem_update.
  destruct (_GetRenderItemMaterial host viewport ri SdfPath_EmptyPath kNullObj s)
    as [[found material] node].
  destruct found, (ri_sourceDagPath_isValid ri); repeat case_decide;
    repeat first
      [eapply (batch_invariant_modifies [FWorld]);
         [apply modifies_ria_call|field_notin|field_notin|]
      |apply batch_invariant_SetMaterial
      |eapply (batch_invariant_modifies [FMaterials; FWorld]);
         [apply (modifies__CreateMaterial host)|field_notin|field_notin|]];
    exact Hs.
Qed.

Lemma batch_invariant_HandleItem items s item :
  (∀ item', item' ∈ items →
     GetRenderItemPrimPath viewport item.1 = GetRenderItemPrimPath viewport item'.1 →
     ri_InternalObjectId item.1 = ri_InternalObjectId item'.1) →
  item ∈ items →
  batch_invariant viewport items s →
  batch_invariant viewport items (HandleItem host viewport s item).
Proof.
  intros Hsame Hin Hs. unfold HandleItem. destruct item as [ri flags]. simpl in *.
  case_decide; [done|]. destruct (filterMesh host ri); [done|].
  unfold HandleItem_adapter, _GetRenderItem.
  destruct (_renderItemsAdaptersFast s !! ri_InternalObjectId ri) as [r0|] eqn:Hfound.
  { by apply batch_invariant_HandleItem_update. }
  case_decide as Hpath; [done|].
  apply batch_invariant_HandleItem_update.
  destruct Hs as [Hwf Hkeys].
  set (ria := MayaHydraRenderItemAdapter_new viewport (ri_sourceDagPath ri)
                (GetRenderItemPrimPath viewport ri) (ri_InternalObjectId ri) ri).
  set (s1 := set_world _ s).
  assert (renderItems_wf s1) as Hwf1 by done.
  assert (_renderItemsAdapters s !! GetRenderItemPrimPath viewport ri = None) as Hfree.
  { apply eq_None_not_Some. intros [r1 Hr1].
    destruct Hwf as [_ Hwf2]. destruct (Hwf2 _ _ Hr1) as [Hid Hfast].
    rewrite <- Hid in Hr1.
    pose proof (Hkeys (ri, flags) r1 Hin Hr1 (eq_sym Hid)) as Hk. simpl in Hk.
    rewrite <- Hk, Hfound in Hfast. done. }
  split.
  - by apply _AddRenderItem_wf.
  - intros item' r Hitem'. unfold _AddRenderItem. simpl.
    rewrite (map_insert_new_fresh (GetRenderItemPrimPath viewport ri)) by done.
    rewrite lookup_insert. case_decide as Hp.
    + intros [= <-]. simpl. intros Hpath'. symmetry. by apply Hsame.
    + intros Hr. by apply Hkeys.
Qed.

Lemma batch_invariant_foldl items (l : list (MRenderItem * N)) s :
  (∀ item item', item ∈ items → item' ∈ items →
     GetRenderItemPrimPath viewport item.1 = GetRenderItemPrimPath viewport item'.1 →
     ri_InternalObjectId item.1 = ri_InternalObjectId item'.1) →
  Forall (λ item, item ∈ items) l →
  batch_invariant viewport items s →
  batch_invariant viewport items (foldl (HandleItem host viewport) s l).
Proof.
  intros Hsame Hl. revert s. induction Hl as [|item l Hitem _ IH]; intros s Hs; [done|].
  simpl. apply IH. apply batch_invariant_HandleItem; [|done|done].
  intros item' Hitem'. by apply Hsame.
Qed.

(** X27. Handling a batch keeps the two render-item tables paired, provided
    the derived path of a render item determines its fast key (among the
    items of the batch, and between an item and a registered adapter that
    the batch does not remove): every adapter is then still held under its
    own fast key and its own path, in both tables.  In particular a batch
    that removes an adapter and brings an item with another fast key but
    the same derived path ends with the new adapter, and only it, under
    that path. *)
Theorem HandleCompleteViewportScene_keeps_tables_paired scene (playing : bool) s r :
  renderItems_wf s →
  paths_follow_keys viewport scene s →
  HandleCompleteViewportScene host viewport scene playing s = Some r →
  renderItems_wf r.2
  ∧ ∀ item a, item ∈ mItems scene →
      _renderItemsAdapters r.2 !! GetRenderItemPrimPath viewport item.1 = Some a →
      ria_GetFastID a = ri_InternalObjectId item.1.
Proof.
  unfold HandleCompleteViewportScene. intros Hwf [Hsame Hkeys] Hr.
  set (s0 := if decide (playing ≠ MAnimControl_isPlaying viewport) then _ else s) in Hr.
  assert (modifies [FWorld] s s0) as H0.
  { subst s0. case_decide; [apply modifies_playback|apply modifies_refl]. }
  use_unchanged H0 FRenderItemsFast. use_unchanged H0 FRenderItems.
  assert (renderItems_wf s0) as Hwf0.
  { unfold renderItems_wf. by rewrite Hu, Hu0. }
  destruct (HandleRemovals viewport (mRemovals scene) s0) as [s1|] eqn:Hrem; [|done].
  injection Hr as <-. simpl.
  destruct (HandleRemovals_spec _ _ _ Hwf0 Hrem) as (Hwf1 & _ & Hpath).
  assert (batch_invariant viewport (mItems scene) s1) as Hinv.
  { split; [done|]. intros item r0 Hitem Hr0 Hp.
    destruct (Hpath _ _ Hr0) as [Hr0' Hkept]. rewrite Hu0 in Hr0'.
    destruct (Hkeys item r0 Hitem Hr0' Hp) as [?|?]; [done|tauto]. }
  destruct (batch_invariant_foldl (mItems scene) (mItems scene) s1 Hsame) as [Hwf' Hkeys'];
    [by apply Forall_forall|done|].
  split; [done|]. intros item a Hitem Ha.
  destruct Hwf' as [_ Hwf2]. destruct (Hwf2 _ _ Ha) as [Hid _].
  rewrite <- Hid in Ha. symmetry. by apply (Hkeys' item a).
Qed.

Lemma ria_call_fast fastId c s :
  _renderItemsAdaptersFast (ria_call viewport fastId c s) = _renderItemsAdaptersFast s.
Proof. unfold ria_call. by case_match. Qed.

Lemma SetMaterial_fast_lookup fastId material s a0 :
  _renderItemsAdaptersFast s !! fastId = Some a0 →
  _renderItemsAdaptersFast (SetMaterial viewport fastId material s) !! fastId
  = Some (with_material material a0).
Proof.
  intros H. unfold SetMaterial, ria_call. rewrite H. simpl.
  case_decide; simpl; apply lookup_insert_eq.
Qed.

Lemma HandleItem_update_fast_lookup ri flags s a0 :
  _renderItemsAdaptersFast s !! ri_InternalObjectId ri = Some a0 →
  _renderItemsAdaptersFast (HandleItem_update host viewport ri flags s)
    !! ri_InternalObjectId ri
  = Some (if decide (N.land flags (MVS_changedEffect viewport) ≠ 0%N)
          then with_material
                 (_GetRenderItemMaterial host viewport ri SdfPath_EmptyPath kNullObj s).1.2 a0
          else a0).
Proof.
  intros Ha0. unfold HandleItem_update.
  destruct (_GetRenderItemMaterial host viewport ri SdfPath_EmptyPath kNullObj s)
    as [[found material] node]. simpl.
  set (s2 := if found then s else _).
  assert (_renderItemsAdaptersFast s2 = _renderItemsAdaptersFast s) as H2.
  { subst s2. destruct found; [done|]. case_decide; [|done].
    pose proof (modifies__CreateMaterial host material node s) as Hm.
    by use_unchanged Hm FRenderItemsFast. }
  rewrite <- H2 in Ha0.
  destruct (ri_sourceDagPath_isValid ri);
    repeat case_decide; rewrite ?ria_call_fast; try done;
    by apply SetMaterial_fast_lookup.
Qed.

(** X28. Once a batch item is worked on, its adapter carries the binding
    the item asks for.  When the change flags include the effect change,
    the adapter under the item's fast key ends with the fallback material
    for an item that draws lines or a line strip, with the material path of
    the item's shading engine when one is connected, and with the empty
    path otherwise.  When the flags do not include it, an adapter that was
    already there keeps the material it had. *)
Theorem HandleItem_pushes_material_binding s ri flags :
  handled host (ri, flags) →
  is_Some (_GetRenderItem (ri_InternalObjectId ri) s)
  ∨ GetRenderItemPrimPath viewport ri ≠ SdfPath_EmptyPath →
  ∃ a, _GetRenderItem (ri_InternalObjectId ri) (HandleItem host viewport s (ri, flags)) = Some a
    ∧ (N.land flags (MVS_changedEffect viewport) ≠ 0%N →
       (ri_primitive ri = kLines ∨ ri_primitive ri = kLineStrip →
        ria_GetMaterial a = _fallbackMaterial)
       ∧ (ri_primitive ri ≠ kLines → ri_primitive ri ≠ kLineStrip →
          ria_GetMaterial a
          = match GetShadingEngineNode viewport ri with
            | Some shadingEngineNode => GetMaterialPath host shadingEngineNode
            | None => SdfPath_EmptyPath
            end))
    ∧ (N.land flags (MVS_changedEffect viewport) = 0%N →
       ∀ a0, _GetRenderItem (ri_InternalObjectId ri) s = Some a0 →
             ria_GetMaterial a = ria_GetMaterial a0).
Proof.
  intros [Hflags Hfilter] Hthere. simpl in Hflags, Hfilter.
  unfold HandleItem. rewrite decide_False by done. rewrite Hfilter.
  assert (∃ s1 a1, HandleItem_adapter viewport ri s = Some s1
                   ∧ _renderItemsAdaptersFast s1 !! ri_InternalObjectId ri = Some a1
                   ∧ (∀ a0, _GetRenderItem (ri_InternalObjectId ri) s = Some a0 → a1 = a0)
                   ∧ _materialAdapters s1 = _materialAdapters s)
    as (s1 & a1 & Had & Ha1 & Hold & Hmat).
  { unfold HandleItem_adapter, _GetRenderItem in *.
    destruct (_renderItemsAdaptersFast s !! ri_InternalObjectId ri) as [a0|] eqn:Hfound.
    - exists s, a0. repeat split; [done|]. by intros ? [= <-].
    - destruct Hthere as [[? [=]]|Hpath]. rewrite decide_False by done.
      eexists _, _. split; [done|]. split; [|done].
      unfold _AddRenderItem. simpl. rewrite (map_insert_new_fresh (ri_InternalObjectId ri)) by done.
      apply lookup_insert_eq. }
  rewrite Had. unfold _GetRenderItem at 1.
  rewrite (HandleItem_update_fast_lookup ri flags s1 a1 Ha1).
  eexists. split; [done|]. split.
  - intros Heffect. rewrite decide_True by done. simpl.
    unfold _GetRenderItemMaterial. split.
    + intros [Hp|Hp]; rewrite Hp; by repeat case_bool_decide.
    + intros Hl Hs. rewrite !bool_decide_eq_false_2 by done. simpl.
      destruct (GetShadingEngineNode viewport ri); [|done]. by case_match.
  - intros Heffect. rewrite decide_False by (by intros ?).
    intros a0 H0. by rewrite (Hold a0 H0).
Qed.

(** ** Population *)

Lemma modifies_register kind (st : list nat * MayaHydraSceneDelegate) :
  modifies [FWorld] st.2 (register viewport kind st).2.
Proof.
  unfold register. destruct (addCallback viewport kind (world st.2)) as [[i status] w].
  simpl. solve_modifies.
Qed.

Lemma register_callbacks kind (st : list nat * MayaHydraSceneDelegate) :
  ∃ ids, (register viewport kind st).1 = st.1 ++ ids ∧ length ids ≤ 1.
Proof.
  unfold register. destruct (addCallback viewport kind (world st.2)) as [[i status] w].
  destruct status; simpl.
  - exists [i]. split; [done|simpl; lia].
  - exists []. split; [by rewrite app_nil_r|simpl; lia].
Qed.

(** A node that [OnDagNodeAdded] queues as a light. *)
Lemma OnDagNodeAdded_lightsToAdd obj s x :
  x ∈ _lightsToAdd (OnDagNodeAdded host obj s)
  ↔ x ∈ _lightsToAdd s
    ∨ (x.1 = obj ∧ isNull obj = false ∧ IsUfeItemFromMayaUsd_obj host obj = false
       ∧ GetLightAdapterCreator_obj host obj = Some x.2).
Proof.
  unfold OnDagNodeAdded.
  destruct (isNull obj) eqn:Hnull; [naive_solver|].
  destruct (IsUfeItemFromMayaUsd_obj host obj) eqn:Hufe; [naive_solver|].
  destruct (GetLightAdapterCreator_obj host obj) as [lightFn|] eqn:Hfn.
  - simpl. rewrite elem_of_app, list_elem_of_singleton. destruct x as [o f]. simpl.
    split; [intros [?|[= -> ->]]; [by left|by right]|].
    intros [?|(-> & _ & _ & [= ->])]; [by left|by right].
  - destruct (useMeshAdapter host); simpl; naive_solver.
Qed.

Lemma Populate_walk_lightsToAdd (l : list (MDagPath * option MObject)) s x :
  x ∈ _lightsToAdd (foldl (λ acc e, match e.2 with
                                      | Some node => OnDagNodeAdded host node acc
                                      | None => acc
                                      end) s l)
  ↔ x ∈ _lightsToAdd s
    ∨ ∃ path, (path, Some x.1) ∈ l ∧ isNull x.1 = false
              ∧ IsUfeItemFromMayaUsd_obj host x.1 = false
              ∧ GetLightAdapterCreator_obj host x.1 = Some x.2.
Proof.
  revert s. induction l as [|[path node] l IH]; intros s; simpl.
  { split; [by left|]. intros [?|(? & Hin & _)]; [done|]. by apply elem_of_nil in Hin. }
  rewrite IH. destruct node as [node|].
  - rewrite OnDagNodeAdded_lightsToAdd. split.
    + intros [[?|(<- & ? & ? & ?)]|(p & Hin & ?)]; [by left| |].
      * right. exists path. split; [apply list_elem_of_here|done].
      * right. exists p. split; [by apply list_elem_of_further|done].
    + intros [?|(p & Hin & Hn & Hu & Hf)]; [by left; left|].
      apply elem_of_cons in Hin as [[= -> Hx]|Hin].
      * left. right. by rewrite <- Hx.
      * right. by exists p.
  - split.
    + intros [?|(p & Hin & ?)]; [by left|]. right. exists p.
      split; [by apply list_elem_of_further|done].
    + intros [?|(p & Hin & ?)]; [by left|].
      apply elem_of_cons in Hin as [[=]|Hin]. right. by exists p.
Qed.

(** X29. [Populate] walks the DAG in one of two ways.  With the mesh
    adapter it inserts every path, which touches the light, camera, shape
    and material tables and the world only, and queues nothing.  Without it
    no adapter is created at all: the walk only queues, after the entries
    already waiting, the nodes that are not null, do not belong to maya-usd
    and have a light creator, each with that creator; they get their
    adapters from the next [PreFrame].  In both modes at most three
    callback ids are appended to the ones the delegate holds. *)
Theorem Populate_walks_the_scene (callbacks : list nat) s :
  let r := MayaHydraSceneDelegate_Populate host viewport callbacks s in
  (useMeshAdapter host = true →
   modifies [FLights; FCameras; FShapes; FMaterials; FWorld] s r.2)
  ∧ (useMeshAdapter host = false →
     modifies [FLightsToAdd; FWorld] s r.2
     ∧ ∀ x, x ∈ _lightsToAdd r.2
            ↔ x ∈ _lightsToAdd s
              ∨ ∃ path, (path, Some x.1) ∈ MItDag viewport ∧ isNull x.1 = false
                        ∧ IsUfeItemFromMayaUsd_obj host x.1 = false
                        ∧ GetLightAdapterCreator_obj host x.1 = Some x.2)
  ∧ ∃ ids, r.1 = callbacks ++ ids ∧ length ids ≤ 3.
Proof.
  intros r. subst r. unfold MayaHydraSceneDelegate_Populate.
  set (s0 := if useMeshAdapter host then _ else _).
  set (st1 := register viewport NodeAddedCallback (callbacks, s0)).
  set (st2 := register viewport NodeRemovedCallback st1).
  set (st3 := register viewport ConnectionCallback st2).
  assert (modifies [FWorld] s0 st3.2) as Hreg.
  { eapply modifies_trans; [|apply modifies_register].
    eapply modifies_trans; [|apply modifies_register].
    apply (modifies_register NodeAddedCallback (callbacks, s0)). }
  set (r := if IsSprimTypeSupported_material viewport (world st3.2) then _ else st3).
  assert (modifies [FWorld] s0 r.2) as Hr.
  { subst r. case_match; [|done]. simpl.
    eapply modifies_trans; [exact Hreg|]. solve_modifies. }
  assert (r.1 = st3.1) as Hids by (subst r; by case_match).
  split; [|split].
  - intros Hmesh. eapply modifies_step; [|exact Hr| |field_sub].
    + subst s0. rewrite Hmesh. apply modifies_foldl. intros s1 e.
      apply (modifies_InsertDag host).
    + field_sub.
  - intros Hmesh.
    assert (modifies [FLightsToAdd] s s0) as H0.
    { subst s0. rewrite Hmesh. apply modifies_foldl. intros s1 [p [node|]]; simpl.
      - pose proof (modifies_OnDagNodeAdded host node s1) as Hm.
        intros f Hf. specialize (Hm f).
        assert (f ≠ FAddedNodes → f ∉ [FLightsToAdd; FAddedNodes]) as Hnot.
        { intros Hne Hin. apply Hf. set_solver. }
        destruct (decide (f = FAddedNodes)) as [->|Hne]; [|by apply Hm, Hnot].
        simpl. unfold OnDagNodeAdded. rewrite Hmesh. by repeat case_match.
      - apply modifies_refl. }
    split.
    + eapply modifies_step; [exact H0|exact Hr|field_sub|field_sub].
    + intros x. use_unchanged Hr FLightsToAdd. rewrite Hu.
      subst s0. rewrite Hmesh. apply Populate_walk_lightsToAdd.
  - rewrite Hids.
    destruct (register_callbacks ConnectionCallback st2) as (i3 & H3 & Hl3).
    destruct (register_callbacks NodeRemovedCallback st1) as (i2 & H2 & Hl2).
    destruct (register_callbacks NodeAddedCallback (callbacks, s0)) as (i1 & H1 & Hl1).
    exists (i1 ++ i2 ++ i3). subst st3 st2 st1. rewrite H3, H2, H1. simpl.
    split; [by rewrite <- !app_assoc|]. rewrite !length_app. lia.
Qed.

(** ** Selection *)

(** X30. [AddPickHitToSelectionList] answers whether the hit lies under
    the rprim root of the delegate, and that only: a hit under the root
    with no render-item adapter of that path (a prim of a shape adapter,
    say) is reported as converted although nothing is selected.  When there
    is an adapter, one path and one hit point are appended: the path of the
    transform above the item when Maya gives one, else the path of the item
    itself. *)
Theorem AddPickHitToSelectionList_outcome (hit : HdxPickHit GfVec3d)
    (selectionList : list MDagPath) (worldSpaceHitPts : list GfVec3d) s :
  let r := AddPickHitToSelectionList viewport hit selectionList worldSpaceHitPts s in
  r.1.1 = SdfPath_HasPrefix viewport (objectId hit) (GetRprimPath viewport)
  ∧ (r.1.1 = false ∨ _renderItemsAdapters s !! objectId hit = None →
     r.1.2 = selectionList ∧ r.2 = worldSpaceHitPts)
  ∧ (r.1.1 = true →
     ∀ a, _renderItemsAdapters s !! objectId hit = Some a →
          r.1.2 = selectionList
                  ++ [default (ria_GetDagPath viewport a)
                        (transform_getAPathTo viewport (ria_GetDagPath viewport a))]
          ∧ r.2 = worldSpaceHitPts ++ [worldSpaceHitPoint hit]).
Proof.
  intros r. subst r. unfold AddPickHitToSelectionList.
  destruct (SdfPath_HasPrefix viewport (objectId hit) (GetRprimPath viewport)).
  - destruct (_renderItemsAdapters s !! objectId hit) as [a|]; simpl.
    + split; [done|]. split; [by intros [?|?]|]. intros _ ? [= <-].
      by destruct (transform_getAPathTo viewport (ria_GetDagPath viewport a)).
    + split; [done|]. split; [done|]. by intros.
  - simpl. split; [done|]. split; [done|]. by intros.
Qed.

End ViewportFacts.

(** * Further facts at concrete inputs *)

Lemma ex_empty_renderItems_wf (w : ExWorld) : renderItems_wf (ex_empty w).
Proof. split; intros k r Hr; simpl in Hr; rewrite lookup_empty in Hr; discriminate. Defined.

Lemma ex_one_render_item_wf : renderItems_wf ex_one_render_item.
Proof.
  apply _AddRenderItem_wf; [apply ex_empty_renderItems_wf|reflexivity|reflexivity].
Defined.

(** The adapter [ex_ria] is registered in the empty delegate and removed
    again. *)
Lemma _AddRenderItem_lookup_remove_witness :
  _GetRenderItem 7 ex_one_render_item = Some ex_ria
  ∧ _RemoveRenderItem ex_ria ex_one_render_item = ex_empty ex_world0.
Proof.
  destruct (_AddRenderItem_lookup_remove ex_ria (ex_empty ex_world0)) as (H1 & _ & H3 & _).
  - reflexivity.
  - reflexivity.
  - split; [exact H1|exact H3].
Defined.

(** A second adapter with the path of [ex_ria] and the free fast key 8. *)
Lemma _AddRenderItem_keeps_existing_path_witness :
  _renderItemsAdapters (_AddRenderItem ex_ria8 ex_one_render_item)
  = _renderItemsAdapters ex_one_render_item
  ∧ _GetRenderItem 8 (_AddRenderItem ex_ria8 ex_one_render_item) = Some ex_ria8
  ∧ ¬ renderItems_in_sync (_AddRenderItem ex_ria8 ex_one_render_item).
Proof.
  apply (_AddRenderItem_keeps_existing_path ex_ria8 ex_ria ex_one_render_item).
  - vm_compute. reflexivity.
  - vm_compute. reflexivity.
  - discriminate.
Defined.

(** An identity already queued for recreation with node 3 is queued again
    with node 4. *)
Lemma RecreateAdapterOnIdle_last_write_wins_witness :
  pending_recreates "/Rprims|cubeShape"
    (_adaptersToRecreate (RecreateAdapterOnIdle "/Rprims|cubeShape" 4 ex_unresolved_light))
  = [("/Rprims|cubeShape", 4)].
Proof.
  destruct (RecreateAdapterOnIdle_last_write_wins "/Rprims|cubeShape" 4 ex_unresolved_light)
    as (_ & H & _).
  - simpl. apply NoDup_singleton.
  - exact H.
Defined.

(** A material that is already queued is reported again. *)
Lemma MaterialTagChanged_queues_once_witness :
  MaterialTagChanged "/Materials/sg" (MaterialTagChanged "/Materials/sg" ex_material_changed)
  = MaterialTagChanged "/Materials/sg" ex_material_changed.
Proof.
  destruct (MaterialTagChanged_queues_once "/Materials/sg" ex_material_changed)
    as (_ & _ & H & _).
  - simpl. apply NoDup_singleton.
  - exact H.
Defined.

(** The light [|light1] is recreated with its own node. *)
Lemma RecreateAdapter_requeues_light_witness :
  _lightAdapters (RecreateAdapter (ex_host false true) "/Lights|light1" 1 ex_one_light)
    !! "/Lights|light1" = None
  ∧ _lightsToAdd (RecreateAdapter (ex_host false true) "/Lights|light1" 1 ex_one_light)
    = [(1, ex_light)].
Proof.
  destruct (RecreateAdapter_requeues_light (ex_host false true) "/Lights|light1" 1
              (ex_light1 false) ex_one_light) as (H1 & _ & _ & _ & H5 & _).
  - vm_compute. reflexivity.
  - split.
    + rewrite H1. apply lookup_delete_eq.
    + exact (H5 ex_light eq_refl eq_refl eq_refl eq_refl).
Defined.

(** A frame on the empty delegate. *)
Lemma PreFrame_idle_frame_witness :
  PreFrame (ex_host false true) ex_context0 (ex_empty ex_world0) = ex_empty ex_world0.
Proof.
  apply (PreFrame_idle_frame (ex_host false true) ex_context0 (ex_empty ex_world0)).
  - reflexivity.
  - reflexivity.
  - repeat split.
  - right. split; [reflexivity|right; reflexivity].
Defined.

(** A rebuild queued for an identity that no table knows. *)
Lemma PreFrame_rebuild_of_unknown_identity_is_dropped_witness :
  _adaptersToRebuild (PreFrame_adaptersToRebuild (ex_host true true) ex_stale_rebuild) = []
  ∧ world (PreFrame_adaptersToRebuild (ex_host true true) ex_stale_rebuild) = ex_world0.
Proof.
  destruct (PreFrame_rebuild_of_unknown_identity_is_dropped (ex_host true true)
              ex_stale_rebuild) as [H1 H2].
  - repeat constructor.
  - rewrite H1. split; [reflexivity|exact H2].
Defined.

(** The queued light 1 gets its adapter in the next frame. *)
Lemma PreFrame_creates_queued_lights_witness :
  is_Some (GetLightAdapter "/Lights|light1"
             (PreFrame (ex_host false true) ex_context0 ex_queued_light))
  ∧ la_lightingOn <$> GetLightAdapter "/Lights|light1"
                        (PreFrame (ex_host false true) ex_context0 ex_queued_light)
    = Some true.
Proof.
  destruct (PreFrame_creates_queued_lights (ex_host false true) ex_context0 ex_queued_light
              1 ex_light "|light1" ex_light (ex_light1 true)) as [H1 H2].
  - apply ex_light_creators_wf.
  - intros id a Hl. simpl in Hl. rewrite lookup_empty in Hl. discriminate.
  - split; repeat constructor. by eexists.
  - simpl. apply list_elem_of_here.
  - reflexivity.
  - reflexivity.
  - reflexivity.
  - reflexivity.
  - reflexivity.
  - apply not_elem_of_nil.
  - discriminate.
  - split; [exact H1|exact (H2 eq_refl)].
Defined.

(** The resource of a material that has no adapter. *)
Lemma GetMaterialResource_never_empty_witness :
  VtValue_IsEmpty ex_methods
    (GetMaterialResource ex_methods "/Materials/none" (ex_empty ex_world0)) = false.
Proof.
  apply (GetMaterialResource_never_empty ex_methods "/Materials/none" (ex_empty ex_world0)).
  - reflexivity.
  - intros p. reflexivity.
Defined.

(** The batch that brings render item 7 into the empty delegate. *)
Lemma HandleCompleteViewportScene_footprint_witness :
  (ex_after ex_scene_add (ex_empty ex_world0)).1 = false
  ∧ modifies [FRenderItemsFast; FRenderItems; FMaterials; FWorld] (ex_empty ex_world0)
             (ex_after ex_scene_add (ex_empty ex_world0)).2.
Proof.
  destruct (HandleCompleteViewportScene_footprint (ex_host false true) ex_viewport
              ex_scene_add false (ex_empty ex_world0)
              (ex_after ex_scene_add (ex_empty ex_world0))) as (H1 & H2 & _).
  - vm_compute. reflexivity.
  - split; [exact H1|exact H2].
Defined.

Lemma HandleCompleteViewportScene_items_have_adapters_witness :
  is_Some (_GetRenderItem 7 (ex_after ex_scene_add (ex_empty ex_world0)).2).
Proof.
  apply (HandleCompleteViewportScene_items_have_adapters (ex_host false true) ex_viewport
           ex_scene_add false (ex_empty ex_world0)
           (ex_after ex_scene_add (ex_empty ex_world0)) (ex_item 7, 2%N)).
  - vm_compute. reflexivity.
  - simpl. apply list_elem_of_here.
  - split; [discriminate|reflexivity].
  - vm_compute. discriminate.
Defined.

(** The batch that removes render item 7 and brings render item 8. *)
Lemma HandleCompleteViewportScene_removes_witness :
  _GetRenderItem 7 (ex_after ex_scene_replace ex_one_render_item).2 = None.
Proof.
  apply (HandleCompleteViewportScene_removes (ex_host false true) ex_viewport
           ex_scene_replace false ex_one_render_item
           (ex_after ex_scene_replace ex_one_render_item) 7).
  - apply ex_one_render_item_wf.
  - vm_compute. reflexivity.
  - simpl. apply list_elem_of_further, list_elem_of_here.
  - discriminate.
  - intros item Hin _ _. simpl in Hin. apply list_elem_of_singleton in Hin as ->.
    discriminate.
Defined.

Lemma HandleCompleteViewportScene_keeps_tables_paired_witness :
  renderItems_wf (ex_after ex_scene_replace ex_one_render_item).2.
Proof.
  apply (HandleCompleteViewportScene_keeps_tables_paired (ex_host false true) ex_viewport
           ex_scene_replace false ex_one_render_item
           (ex_after ex_scene_replace ex_one_render_item)).
  - apply ex_one_render_item_wf.
  - split.
    + intros item item' Hin Hin' _. simpl in Hin, Hin'.
      apply list_elem_of_singleton in Hin as ->.
      apply list_elem_of_singleton in Hin' as ->. reflexivity.
    + intros item r Hin Hr _. right.
      assert (_renderItemsAdapters ex_one_render_item = {[ria_GetID ex_ria := ex_ria]}) as Hm
        by reflexivity.
      rewrite Hm in Hr. apply lookup_singleton_Some in Hr as [_ <-].
      split; [|discriminate]. simpl. apply list_elem_of_further, list_elem_of_here.
  - vm_compute. reflexivity.
Defined.

(** Render item 7 arrives with a changed effect: its adapter is bound to
    the material of the shading engine of [|cubeShape]. *)
Lemma HandleItem_pushes_material_binding_witness :
  ria_GetMaterial
    <$> _GetRenderItem 7 (HandleItem (ex_host false true) ex_viewport (ex_empty ex_world0)
                            (ex_item 7, 2%N))
  = Some "/Materials/sg".
Proof.
  destruct (HandleItem_pushes_material_binding (ex_host false true) ex_viewport
              (ex_empty ex_world0) (ex_item 7) 2%N) as (a & Ha & Hm & _).
  - split; [discriminate|reflexivity].
  - right. vm_compute. discriminate.
  - rewrite (Ha : _GetRenderItem 7 _ = Some a). simpl. f_equal.
    destruct Hm as [_ Hm]; [discriminate|]. apply Hm; discriminate.
Defined.

(** With assertions on, a batch that removes render item 7 from a delegate
    that does not have it stops the program. *)
Lemma HandleCompleteViewportScene_asserts_known_removals_witness :
  HandleCompleteViewportScene (ex_host false true) ex_viewport ex_scene_replace false
    (ex_empty ex_world0) = None.
Proof.
  apply (proj2 (HandleCompleteViewportScene_asserts_known_removals (ex_host false true)
                  ex_viewport ex_scene_replace false (ex_empty ex_world0))
           eq_refl 7%Z).
  - simpl. apply list_elem_of_further, list_elem_of_here.
  - discriminate.
  - reflexivity.
Defined.

(** Outside mesh-adapter mode the walk queues the light 1 and enters no
    adapter for it. *)
Lemma Populate_walks_the_scene_witness :
  (1, ex_light)
    ∈ _lightsToAdd
        (MayaHydraSceneDelegate_Populate (ex_host false true) ex_viewport []
           (ex_empty ex_world0)).2
  ∧ _lightAdapters
      (MayaHydraSceneDelegate_Populate (ex_host false true) ex_viewport []
         (ex_empty ex_world0)).2 = ∅.
Proof.
  destruct (Populate_walks_the_scene (ex_host false true) ex_viewport []
              (ex_empty ex_world0)) as (_ & H & _).
  destruct (H eq_refl) as [Hm Hq]. split.
  - apply Hq. right. exists "|light1". repeat split. simpl. apply list_elem_of_here.
  - apply (Hm FLights). intros Hin.
    apply elem_of_cons in Hin as [Hin|Hin]; [discriminate|].
    apply list_elem_of_singleton in Hin. discriminate.
Defined.

(** A hit on a prim under the rprim root that is no render item. *)
Lemma AddPickHitToSelectionList_outcome_witness :
  AddPickHitToSelectionList ex_viewport
    {| objectId := "/Rprims|cubeShape"; worldSpaceHitPoint := 0 |} [] [] ex_one_render_item
  = (true, [], []).
Proof.
  pose proof (AddPickHitToSelectionList_outcome ex_viewport
                {| objectId := "/Rprims|cubeShape"; worldSpaceHitPoint := 0 |} [] []
                ex_one_render_item) as (H1 & H2 & _).
  destruct (AddPickHitToSelectionList _ _ _ _ _) as [[b l] pts]. simpl in *.
  destruct H2 as [-> ->]; [right; reflexivity|]. by rewrite H1.
Defined.
